(** * FlexCAN message-buffer driver of the S32K144 HAL

    A shallow embedding of [lib/driver/can/can.c] and of the inline helpers
    of [lib/driver/can/can.h].  Machine integers are [Z] with the 32-bit and
    8-bit wrap-around written out; the memory-mapped register block of one
    controller is a record; the driver's file-scope tables and the three
    register blocks form the driver state; every bus access and every
    callback invocation is appended to a log, so that the order of register
    writes can be stated. *)

From Stdlib Require Import ZArith Lia Bool List.
From stdpp Require Import base decidable list.
Import ListNotations.

Local Open Scope Z_scope.

(** ** Machine integers *)

Definition u32 (x : Z) : Z := x mod 2 ^ 32.
Definition u8 (x : Z) : Z := x mod 2 ^ 8.

(** [~x] on a 32-bit operand. *)
Definition not32 (x : Z) : Z := Z.lxor (u32 x) 0xFFFFFFFF.

(** [x << n] on a 32-bit operand.  For [n >= 32] C leaves the shift
    undefined; the Cortex-M LSL instruction yields 0 there, which is what
    the wrap-around gives. *)
Definition shl32 (x n : Z) : Z := u32 (Z.shiftl x n).

(** ** can.h: message-buffer field definitions *)

Definition CAN_CS_CODE_SHIFT : Z := 24.
Definition CAN_CS_CODE_MASK : Z := 0x0F000000.
Definition CAN_CS_SRR_MASK : Z := 0x00400000.

Definition CAN_CS_CODE_TX_INACTIVE : Z := 0x08.
Definition CAN_CS_CODE_TX_ABORT : Z := 0x09.
Definition CAN_CS_CODE_TX_DATA : Z := 0x0C.
Definition CAN_CS_CODE_TX_REMOTE : Z := 0x0C.
Definition CAN_CS_CODE_RX_INACTIVE : Z := 0x00.
Definition CAN_CS_CODE_RX_EMPTY : Z := 0x04.
Definition CAN_CS_CODE_RX_FULL : Z := 0x02.

Definition CAN_ID_STD_SHIFT : Z := 18.
Definition CAN_ID_STD_MASK : Z := 0x1FFC0000.
Definition CAN_ID_EXT_SHIFT : Z := 0.
Definition CAN_ID_EXT_MASK : Z := 0x1FFFFFFF.

Definition CAN_MB_COUNT : Z := 32.
Definition CAN_INSTANCE_COUNT : Z := 3.
Definition CAN_MAX_DATA_LENGTH : Z := 8.
Definition CAN_TX_MB_START : Z := 8.
Definition CAN_TX_MB_COUNT : Z := 8.
Definition CAN_RX_MB_START : Z := 16.
Definition CAN_RX_MB_COUNT : Z := 16.

(** can.c *)
Definition MSG_BUF_SIZE : Z := 4.
Definition CAN_FREEZE_TIMEOUT : Z := 10000.
Definition CAN_DEFAULT_CLK_FREQ : Z := 40000000.

(** ** can_reg.h

    can.h includes this register header, whose text is not available.  The
    control-status masks below are the ones can.h keeps in comments next to
    [CAN_CS_SRR_MASK] (IDE 0x00200000, RTR 0x00100000, DLC 0x000F0000 at
    bit 16); the remaining masks, shifts and base addresses are those of
    the S32K144 FlexCAN register map. *)

(** Modelled from the spec: can_reg.h, extended-identifier flag of the
    control-status word. *)
Definition CAN_WMBn_CS_IDE_MASK : Z := 0x00200000.
(** Modelled from the spec: can_reg.h, remote-frame flag of the CS word. *)
Definition CAN_WMBn_CS_RTR_MASK : Z := 0x00100000.
(** Modelled from the spec: can_reg.h, substitute-remote flag of the CS
    word (the same bit as [CAN_CS_SRR_MASK] of can.h). *)
Definition CAN_WMBn_CS_SRR_MASK : Z := 0x00400000.
(** Modelled from the spec: can_reg.h, data-length code of the CS word. *)
Definition CAN_WMBn_CS_DLC_MASK : Z := 0x000F0000.
(** Modelled from the spec: can_reg.h, position of the data-length code. *)
Definition CAN_WMBn_CS_DLC_SHIFT : Z := 16.

(** Modelled from the spec: can_reg.h, MCR module-disable bit. *)
Definition CAN_MCR_MDIS_MASK : Z := 0x80000000.
(** Modelled from the spec: can_reg.h, MCR freeze-enable bit. *)
Definition CAN_MCR_FRZ_MASK : Z := 0x40000000.
(** Modelled from the spec: can_reg.h, MCR RX-FIFO-enable bit. *)
Definition CAN_MCR_RFEN_MASK : Z := 0x20000000.
(** Modelled from the spec: can_reg.h, MCR halt bit. *)
Definition CAN_MCR_HALT_MASK : Z := 0x10000000.
(** Modelled from the spec: can_reg.h, MCR not-ready flag. *)
Definition CAN_MCR_NOTRDY_MASK : Z := 0x08000000.
(** Modelled from the spec: can_reg.h, MCR soft-reset bit. *)
Definition CAN_MCR_SOFTRST_MASK : Z := 0x02000000.
(** Modelled from the spec: can_reg.h, MCR freeze-acknowledge flag. *)
Definition CAN_MCR_FRZACK_MASK : Z := 0x01000000.
(** Modelled from the spec: can_reg.h, MCR self-reception-disable bit. *)
Definition CAN_MCR_SRXDIS_MASK : Z := 0x00020000.
(** Modelled from the spec: can_reg.h, MCR number of the last mailbox. *)
Definition CAN_MCR_MAXMB_MASK : Z := 0x0000007F.
(** Modelled from the spec: can_reg.h, position of the MAXMB field. *)
Definition CAN_MCR_MAXMB_SHIFT : Z := 0.

(** Modelled from the spec: can_reg.h, CTRL1 position of the prescaler. *)
Definition CAN_CTRL1_PRESDIV_SHIFT : Z := 24.
(** Modelled from the spec: can_reg.h, CTRL1 position of the resync jump
    width. *)
Definition CAN_CTRL1_RJW_SHIFT : Z := 22.
(** Modelled from the spec: can_reg.h, CTRL1 position of phase segment 1. *)
Definition CAN_CTRL1_PSEG1_SHIFT : Z := 19.
(** Modelled from the spec: can_reg.h, CTRL1 position of phase segment 2. *)
Definition CAN_CTRL1_PSEG2_SHIFT : Z := 16.
(** Modelled from the spec: can_reg.h, CTRL1 position of the propagation
    segment. *)
Definition CAN_CTRL1_PROPSEG_SHIFT : Z := 0.
(** Modelled from the spec: can_reg.h, CTRL1 position of the sampling bit. *)
Definition CAN_CTRL1_SMP_SHIFT : Z := 7.
(** Modelled from the spec: can_reg.h, CTRL1 loop-back bit. *)
Definition CAN_CTRL1_LPB_MASK : Z := 0x00001000.
(** Modelled from the spec: can_reg.h, CTRL1 listen-only bit. *)
Definition CAN_CTRL1_LOM_MASK : Z := 0x00000008.
(** Modelled from the spec: can_reg.h, CTRL1 clock-source bit. *)
Definition CAN_CTRL1_CLKSRC_MASK : Z := 0x00002000.

(** Modelled from the spec: can_reg.h, ESR1 fault-confinement field. *)
Definition CAN_ESR1_FLTCONF_MASK : Z := 0x00000030.
(** Modelled from the spec: can_reg.h, position of the fault-confinement
    field. *)
Definition CAN_ESR1_FLTCONF_SHIFT : Z := 4.

(** Modelled from the spec: can_reg.h, base address of controller 0 (a
    controller is identified by its base address). *)
Definition CAN0 : Z := 0x40024000.
(** Modelled from the spec: can_reg.h, base address of controller 1. *)
Definition CAN1 : Z := 0x40025000.
(** Modelled from the spec: can_reg.h, base address of controller 2. *)
Definition CAN2 : Z := 0x4002B000.

(** A null pointer. *)
Definition NULL : Z := 0.

(** ** can.h: types *)

Inductive status_t : Set :=
| STATUS_SUCCESS
| STATUS_ERROR
| STATUS_BUSY
| STATUS_TIMEOUT
| STATUS_INVALID_PARAM
| STATUS_NOT_INITIALIZED.

Inductive can_id_type_t : Set := CAN_ID_STD | CAN_ID_EXT.
Inductive can_frame_type_t : Set := CAN_FRAME_DATA | CAN_FRAME_REMOTE.
Inductive can_mode_t : Set :=
  CAN_MODE_NORMAL | CAN_MODE_LOOPBACK | CAN_MODE_LISTEN_ONLY.
Inductive can_error_state_t : Set :=
  CAN_ERROR_ACTIVE | CAN_ERROR_PASSIVE | CAN_ERROR_BUS_OFF.

(** Modelled from the spec: can_reg.h, the clock-source enumeration; can.c
    names the first two, the examples of can.h the others (they take the
    [default] branch of [CAN_GetClockFrequency]). *)
Inductive can_clk_src_t : Set :=
| CAN_CLK_SRC_SOSCDIV2
| CAN_CLK_SRC_BUSCLOCK
| CAN_CLK_SRC_FIRCDIV2
| CAN_CLK_SRC_SPLLDIV2.

Inductive can_event_t : Set :=
| CAN_EVENT_NONE
| CAN_EVENT_TX_COMPLETE
| CAN_EVENT_RX_COMPLETE
| CAN_EVENT_ERROR
| CAN_EVENT_BUS_OFF
| CAN_EVENT_OVERRUN.

#[global] Instance status_t_eq_dec : EqDecision status_t.
Proof. solve_decision. Defined.
#[global] Instance can_id_type_t_eq_dec : EqDecision can_id_type_t.
Proof. solve_decision. Defined.
#[global] Instance can_frame_type_t_eq_dec : EqDecision can_frame_type_t.
Proof. solve_decision. Defined.
#[global] Instance can_mode_t_eq_dec : EqDecision can_mode_t.
Proof. solve_decision. Defined.
#[global] Instance can_clk_src_t_eq_dec : EqDecision can_clk_src_t.
Proof. solve_decision. Defined.
#[global] Instance can_event_t_eq_dec : EqDecision can_event_t.
Proof. solve_decision. Defined.

(** [can_message_t]; [data] is the array [uint8_t data[8]]. *)
Record can_message_t : Set := Message {
  id : Z;
  idType : can_id_type_t;
  frameType : can_frame_type_t;
  dataLength : Z;
  data : list Z
}.

Record can_timing_config_t : Set := Timing {
  propSeg : Z;
  phaseSeg1 : Z;
  phaseSeg2 : Z;
  rJumpWidth : Z;
  preDiv : Z
}.

Record can_config_t : Set := Config {
  instance : Z;
  clockSource : can_clk_src_t;
  baudRate : Z;
  mode : can_mode_t;
  enableSelfReception : bool;
  useRxFifo : bool
}.

Record can_rx_filter_t : Set := Filter {
  filter_id : Z;
  filter_mask : Z;
  filter_idType : can_id_type_t
}.

(** [can_event_data_t]; [message] is a pointer, [None] when null. *)
Record can_event_data_t : Set := EventData {
  mbIndex : Z;
  message : option can_message_t;
  errorFlags : Z
}.

(** A callback is a function pointer; the driver only stores it, compares
    it with [NULL] and calls it. *)
Definition can_callback_t : Set := Z.

(** ** The register block [CAN_Type] and the bus *)

(** Modelled from the spec: can_reg.h, the register block of one
    controller, with the registers the driver uses; [RAMn] is the mailbox
    RAM (128 words, four per mailbox: control-status, identifier, two data
    words) and [RXIMR] the individual mask registers. *)

Record CAN_Type : Set := Regs {
  MCR : Z;
  CTRL1 : Z;
  TIMER : Z;
  ECR : Z;
  ESR1 : Z;
  IMASK1 : Z;
  IFLAG1 : Z;
  RXMGMASK : Z;
  RAMn : list Z;
  RXIMR : list Z
}.

(** The name of a register of the block, as an lvalue of the C code. *)
Inductive reg : Set :=
| rMCR | rCTRL1 | rTIMER | rECR | rESR1 | rIMASK1 | rIFLAG1 | rRXMGMASK
| rRAMn (i : Z)
| rRXIMR (i : Z).

#[global] Instance reg_eq_dec : EqDecision reg.
Proof. solve_decision. Defined.

Definition read_reg (r : reg) (b : CAN_Type) : Z :=
  match r with
  | rMCR => MCR b
  | rCTRL1 => CTRL1 b
  | rTIMER => TIMER b
  | rECR => ECR b
  | rESR1 => ESR1 b
  | rIMASK1 => IMASK1 b
  | rIFLAG1 => IFLAG1 b
  | rRXMGMASK => RXMGMASK b
  | rRAMn i => RAMn b !!! Z.to_nat i
  | rRXIMR i => RXIMR b !!! Z.to_nat i
  end.

(** A store to a register.  [IFLAG1] is write-one-to-clear ("This reg is
    w1c", can.c): the bits written as 1 are cleared, the others kept.  All
    other registers hold what was stored; what the controller itself does
    to them is the hardware reaction of the next section. *)
Definition write_reg (r : reg) (v : Z) (b : CAN_Type) : CAN_Type :=
  match b with
  | Regs mcr ctrl1 timer ecr esr1 imask1 iflag1 rxmg ram rximr =>
      match r with
      | rMCR => Regs v ctrl1 timer ecr esr1 imask1 iflag1 rxmg ram rximr
      | rCTRL1 => Regs mcr v timer ecr esr1 imask1 iflag1 rxmg ram rximr
      | rTIMER => Regs mcr ctrl1 v ecr esr1 imask1 iflag1 rxmg ram rximr
      | rECR => Regs mcr ctrl1 timer v esr1 imask1 iflag1 rxmg ram rximr
      | rESR1 => Regs mcr ctrl1 timer ecr v imask1 iflag1 rxmg ram rximr
      | rIMASK1 => Regs mcr ctrl1 timer ecr esr1 v iflag1 rxmg ram rximr
      | rIFLAG1 =>
          Regs mcr ctrl1 timer ecr esr1 imask1 (Z.land iflag1 (not32 v))
               rxmg ram rximr
      | rRXMGMASK => Regs mcr ctrl1 timer ecr esr1 imask1 iflag1 v ram rximr
      | rRAMn i =>
          Regs mcr ctrl1 timer ecr esr1 imask1 iflag1 rxmg
               (<[Z.to_nat i := v]> ram) rximr
      | rRXIMR i =>
          Regs mcr ctrl1 timer ecr esr1 imask1 iflag1 rxmg ram
               (<[Z.to_nat i := v]> rximr)
      end
  end.

(** What the driver does on the bus, in program order: a load with the
    value it returned, a store with the value written, and the call of the
    registered callback with its three arguments.  The first component of a
    load or store is the index of the controller ([s_canBases]). *)
Inductive access : Set :=
| Rd (inst : Z) (r : reg) (v : Z)
| Wr (inst : Z) (r : reg) (v : Z)
| Call (cb : can_callback_t) (base : Z) (event : can_event_t)
       (eventData : can_event_data_t).

(** The driver state: the register blocks by controller index
    ([s_canBases] gives their addresses), the two file-scope tables of
    can.c, and the log of bus accesses, most recent first. *)
Record driver : Type := Driver {
  banks : Z -> CAN_Type;
  s_canInitialized : list bool;
  s_canCallbacks : list can_callback_t;
  bus : list access
}.

(** The accesses in program order. *)
Definition trace (st : driver) : list access := rev (bus st).

Definition s_canBases : list Z := [CAN0; CAN1; CAN2].

Definition bank (st : driver) (inst : Z) : CAN_Type := banks st inst.

Definition upd_bank (f : Z -> CAN_Type) (inst : Z) (b : CAN_Type)
    : Z -> CAN_Type :=
  fun i => if i =? inst then b else f i.

Definition initialized (st : driver) (inst : Z) : bool :=
  s_canInitialized st !!! Z.to_nat inst.

Definition callback (st : driver) (inst : Z) : can_callback_t :=
  s_canCallbacks st !!! Z.to_nat inst.

(** ** A state monad over the driver state *)

Definition M (A : Type) : Type := driver -> A * driver.

Definition ret {A} (a : A) : M A := fun st => (a, st).

Definition bind {A B} (c : M A) (k : A -> M B) : M B :=
  fun st => let (a, st') := c st in k a st'.

Notation "'let*' x ':=' c 'in' k" := (bind c (fun x => k))
  (at level 10, x name, c at level 100, k at level 200).
Notation "c ';;' k" := (bind c (fun _ => k))
  (at level 100, k at level 200, right associativity).

Definition get : M driver := fun st => (st, st).

Definition set_initialized (inst : Z) (v : bool) : M unit :=
  fun st => (tt, Driver (banks st) (<[Z.to_nat inst := v]> (s_canInitialized st))
                        (s_canCallbacks st) (bus st)).

Definition set_callback (inst : Z) (cb : can_callback_t) : M unit :=
  fun st => (tt, Driver (banks st) (s_canInitialized st)
                        (<[Z.to_nat inst := cb]> (s_canCallbacks st)) (bus st)).

Definition call (cb : can_callback_t) (base : Z) (event : can_event_t)
    (eventData : can_event_data_t) : M unit :=
  fun st => (tt, Driver (banks st) (s_canInitialized st) (s_canCallbacks st)
                        (Call cb base event eventData :: bus st)).

(** ** Bit-timing calculator *)

Definition with_preDiv (v : Z) (t : can_timing_config_t) :=
  Timing (propSeg t) (phaseSeg1 t) (phaseSeg2 t) (rJumpWidth t) v.
Definition with_propSeg (v : Z) (t : can_timing_config_t) :=
  Timing v (phaseSeg1 t) (phaseSeg2 t) (rJumpWidth t) (preDiv t).
Definition with_phaseSeg1 (v : Z) (t : can_timing_config_t) :=
  Timing (propSeg t) v (phaseSeg2 t) (rJumpWidth t) (preDiv t).
Definition with_phaseSeg2 (v : Z) (t : can_timing_config_t) :=
  Timing (propSeg t) (phaseSeg1 t) v (rJumpWidth t) (preDiv t).
Definition with_rJumpWidth (v : Z) (t : can_timing_config_t) :=
  Timing (propSeg t) (phaseSeg1 t) (phaseSeg2 t) v (preDiv t).

(** [(canClockHz / (baudRate * numTq)) - 1U] in 32-bit unsigned
    arithmetic.  When [baudRate * numTq] wraps to 0 the C division is
    undefined; [Z] division gives 0 there. *)
Definition prescaler (canClockHz baudRate numTq : Z) : Z :=
  u32 (canClockHz / u32 (baudRate * numTq) - 1).

(** [timing] is the caller's structure ([None] for a null pointer); the
    second component of the result is that structure after the call. *)
Definition CAN_CalculateTiming (canClockHz baudRate : Z)
    (timing : option can_timing_config_t)
    : status_t * option can_timing_config_t :=
  match timing with
  | None => (STATUS_INVALID_PARAM, timing)
  | Some t =>
      if (baudRate =? 0) || (canClockHz =? 0)
      then (STATUS_INVALID_PARAM, timing)
      else
        (* Configure timing with good margin *)
        let configure (preDiv : Z) :=
          let t := with_preDiv (u8 preDiv) t in
          let t := with_preDiv 0 t in
          let t := with_propSeg 6 t in
          let t := with_phaseSeg1 3 t in
          let t := with_phaseSeg2 3 t in
          let t := with_rJumpWidth 3 t in
          (STATUS_SUCCESS, Some t) in
        (* Target: 16 time quanta per bit for good timing *)
        let numTq := 16 in
        let preDiv := prescaler canClockHz baudRate numTq in
        if 255 <? preDiv then
          (* Try with 8 time quanta *)
          let numTq := 8 in
          let preDiv := prescaler canClockHz baudRate numTq in
          if 255 <? preDiv then (STATUS_INVALID_PARAM, timing)
          else configure preDiv
        else configure preDiv
  end.

Section Driver.

(** The controller is not passive: between two bus accesses it may set
    acknowledge bits, receive frames, raise flags.  [hw] is that reaction,
    applied to the register block of a controller before each access to
    it; the driver is defined, and most properties proved, for every
    [hw]. *)
Variable hw : CAN_Type -> CAN_Type.

(** A load from register [r] of controller [inst]. *)
Definition rd (inst : Z) (r : reg) : M Z :=
  fun st =>
    let b := hw (banks st inst) in
    let v := read_reg r b in
    (v, Driver (upd_bank (banks st) inst b) (s_canInitialized st)
               (s_canCallbacks st) (Rd inst r v :: bus st)).

(** A store to register [r] of controller [inst]. *)
Definition wr (inst : Z) (r : reg) (v : Z) : M unit :=
  fun st =>
    let b := write_reg r v (hw (banks st inst)) in
    (tt, Driver (upd_bank (banks st) inst b) (s_canInitialized st)
                (s_canCallbacks st) (Wr inst r v :: bus st)).

(** [base->r |= m] and [base->r &= ~m]: a load followed by a store. *)
Definition set_bits (inst : Z) (r : reg) (m : Z) : M unit :=
  let* v := rd inst r in wr inst r (Z.lor v m).

Definition clear_bits (inst : Z) (r : reg) (m : Z) : M unit :=
  let* v := rd inst r in wr inst r (Z.land v (not32 m)).

(** ** Transmit path *)

(** [message->data[i]]. *)
Definition data_at (m : can_message_t) (i : nat) : Z := data m !!! i.

(** The two data words [CAN_Send] writes: byte 0 is the most significant
    byte of word 0, byte 4 of word 1. *)
Definition send_data0 (m : can_message_t) : Z :=
  Z.lor (Z.lor (Z.lor (shl32 (data_at m 0) 24) (shl32 (data_at m 1) 16))
               (shl32 (data_at m 2) 8))
        (data_at m 3).

Definition send_data1 (m : can_message_t) : Z :=
  Z.lor (Z.lor (Z.lor (shl32 (data_at m 4) 24) (shl32 (data_at m 5) 16))
               (shl32 (data_at m 6) 8))
        (data_at m 7).

(** The identifier word [CAN_Send] writes. *)
Definition send_id (m : can_message_t) : Z :=
  match idType m with
  | CAN_ID_STD => Z.land (shl32 (id m) CAN_ID_STD_SHIFT) CAN_ID_STD_MASK
  | CAN_ID_EXT => Z.land (shl32 (id m) CAN_ID_EXT_SHIFT) CAN_ID_EXT_MASK
  end.

(** The control-status word [CAN_Send] writes. *)
Definition send_cs (m : can_message_t) : Z :=
  let cs := Z.lor (shl32 CAN_CS_CODE_TX_DATA CAN_CS_CODE_SHIFT)
                  (shl32 (dataLength m) CAN_WMBn_CS_DLC_SHIFT) in
  let cs := if decide (idType m = CAN_ID_EXT)
            then Z.lor cs CAN_WMBn_CS_IDE_MASK else cs in
  let cs := if decide (idType m = CAN_ID_STD)
            then Z.lor cs CAN_WMBn_CS_SRR_MASK else cs in
  let cs := if decide (frameType m = CAN_FRAME_REMOTE)
            then Z.lor cs CAN_WMBn_CS_RTR_MASK else cs in
  cs.

Definition CAN_Send (instance mbIndex : Z) (message : option can_message_t)
    : M status_t :=
  match CAN_INSTANCE_COUNT <=? instance, message with
  | false, Some msg =>
      let* st := get in
      if negb (initialized st instance) then ret STATUS_NOT_INITIALIZED
      else if (mbIndex <? CAN_TX_MB_START)
              || (CAN_TX_MB_START + CAN_TX_MB_COUNT <=? mbIndex)
      then ret STATUS_INVALID_PARAM
      else if CAN_MAX_DATA_LENGTH <? dataLength msg
      then ret STATUS_INVALID_PARAM
      else
        let mbOffset := mbIndex * MSG_BUF_SIZE in
        (* Clear interrupt flag *)
        wr instance rIFLAG1 (shl32 1 mbIndex);;
        (* Write data words *)
        wr instance (rRAMn (mbOffset + 2)) (send_data0 msg);;
        wr instance (rRAMn (mbOffset + 3)) (send_data1 msg);;
        (* Configure ID word *)
        wr instance (rRAMn (mbOffset + 1)) (send_id msg);;
        (* Write CS to activate MB *)
        wr instance (rRAMn (mbOffset + 0)) (send_cs msg);;
        ret STATUS_SUCCESS
  | _, _ => ret STATUS_INVALID_PARAM
  end.

(** The polling loop of [CAN_SendBlocking]; [n] is the number of
    iterations left, [timeoutMs * 1000U - timeoutCount]. *)
Fixpoint send_wait (n : nat) (instance mbMask : Z) : M status_t :=
  match n with
  | O => ret STATUS_TIMEOUT
  | S n' =>
      let* f := rd instance rIFLAG1 in
      if negb (Z.land f mbMask =? 0)
      then wr instance rIFLAG1 mbMask;; ret STATUS_SUCCESS
      else send_wait n' instance mbMask
  end.

Definition CAN_SendBlocking (instance mbIndex : Z)
    (message : option can_message_t) (timeoutMs : Z) : M status_t :=
  let* status := CAN_Send instance mbIndex message in
  if negb (bool_decide (status = STATUS_SUCCESS)) then ret status
  else
    let mbMask := shl32 1 mbIndex in
    send_wait (Z.to_nat (u32 (timeoutMs * 1000))) instance mbMask.

(** ** Receive path *)

(** What [CAN_Receive] stores into [*message] from the four words of a
    mailbox.  Every field of the structure, and each of the eight bytes of
    [data], is assigned. *)
Definition recv_message (cs idw data0 data1 : Z) : can_message_t :=
  let '(ty, ident) :=
    if negb (Z.land cs CAN_WMBn_CS_IDE_MASK =? 0)
    then (CAN_ID_EXT, Z.shiftr (Z.land idw CAN_ID_EXT_MASK) CAN_ID_EXT_SHIFT)
    else (CAN_ID_STD, Z.shiftr (Z.land idw CAN_ID_STD_MASK) CAN_ID_STD_SHIFT)
  in
  let frame := if negb (Z.land cs CAN_WMBn_CS_RTR_MASK =? 0)
               then CAN_FRAME_REMOTE else CAN_FRAME_DATA in
  let len := u8 (Z.shiftr (Z.land cs CAN_WMBn_CS_DLC_MASK)
                          CAN_WMBn_CS_DLC_SHIFT) in
  Message ident ty frame len
    [ u8 (Z.land (Z.shiftr data0 24) 0xFF);
      u8 (Z.land (Z.shiftr data0 16) 0xFF);
      u8 (Z.land (Z.shiftr data0 8) 0xFF);
      u8 (Z.land data0 0xFF);
      u8 (Z.land (Z.shiftr data1 24) 0xFF);
      u8 (Z.land (Z.shiftr data1 16) 0xFF);
      u8 (Z.land (Z.shiftr data1 8) 0xFF);
      u8 (Z.land data1 0xFF) ].

(** [message] is the caller's structure ([None] for a null pointer); the
    second component of the result is that structure after the call. *)
Definition CAN_Receive (instance mbIndex : Z) (message : option can_message_t)
    : M (status_t * option can_message_t) :=
  match CAN_INSTANCE_COUNT <=? instance, message with
  | false, Some _ =>
      let* st := get in
      if negb (initialized st instance)
      then ret (STATUS_NOT_INITIALIZED, message)
      else if (mbIndex <? CAN_RX_MB_START) || (CAN_MB_COUNT <=? mbIndex)
      then ret (STATUS_INVALID_PARAM, message)
      else
        let mbMask := shl32 1 mbIndex in
        let mbOffset := mbIndex * MSG_BUF_SIZE in
        (* Check if message available *)
        let* f := rd instance rIFLAG1 in
        if Z.land f mbMask =? 0 then ret (STATUS_ERROR, message)
        else
          (* Read CS word (locks the MB), then the ID word *)
          let* cs := rd instance (rRAMn (mbOffset + 0)) in
          let* idw := rd instance (rRAMn (mbOffset + 1)) in
          (* Read data words *)
          let* data0 := rd instance (rRAMn (mbOffset + 2)) in
          let* data1 := rd instance (rRAMn (mbOffset + 3)) in
          (* Read TIMER to unlock message buffers, clear interrupt flag;
             the source does both twice *)
          let* _ := rd instance rTIMER in
          wr instance rIFLAG1 mbMask;;
          let* _ := rd instance rTIMER in
          wr instance rIFLAG1 mbMask;;
          ret (STATUS_SUCCESS, Some (recv_message cs idw data0 data1))
  | _, _ => ret (STATUS_INVALID_PARAM, message)
  end.

(** The polling loop of [CAN_ReceiveBlocking]. *)
Fixpoint receive_wait (n : nat) (instance mbIndex mbMask : Z)
    (message : option can_message_t) : M (status_t * option can_message_t) :=
  match n with
  | O => ret (STATUS_TIMEOUT, message)
  | S n' =>
      let* f := rd instance rIFLAG1 in
      if negb (Z.land f mbMask =? 0)
      then CAN_Receive instance mbIndex message
      else receive_wait n' instance mbIndex mbMask message
  end.

Definition CAN_ReceiveBlocking (instance mbIndex : Z)
    (message : option can_message_t) (timeoutMs : Z)
    : M (status_t * option can_message_t) :=
  match CAN_INSTANCE_COUNT <=? instance, message with
  | false, Some _ =>
      let* st := get in
      if negb (initialized st instance)
      then ret (STATUS_NOT_INITIALIZED, message)
      else
        let mbMask := shl32 1 mbIndex in
        receive_wait (Z.to_nat (u32 (timeoutMs * 1000))) instance mbIndex
                     mbMask message
  | _, _ => ret (STATUS_INVALID_PARAM, message)
  end.

(** ** Mailbox configuration *)

Definition CAN_ConfigRxFilter (instance mbIndex : Z)
    (filter : option can_rx_filter_t) : M status_t :=
  match CAN_INSTANCE_COUNT <=? instance, filter with
  | false, Some flt =>
      let* st := get in
      if negb (initialized st instance) then ret STATUS_NOT_INITIALIZED
      else if (mbIndex <? CAN_RX_MB_START) || (CAN_MB_COUNT <=? mbIndex)
      then ret STATUS_INVALID_PARAM
      else
        let mbOffset := mbIndex * MSG_BUF_SIZE in
        (* Configure ID word *)
        let idw :=
          if decide (filter_idType flt = CAN_ID_EXT)
          then Z.land (shl32 (filter_id flt) CAN_ID_EXT_SHIFT) CAN_ID_EXT_MASK
          else Z.land (shl32 (filter_id flt) CAN_ID_STD_SHIFT) CAN_ID_STD_MASK
        in
        wr instance (rRAMn (mbOffset + 1)) idw;;
        (* Configure CS word as RX empty *)
        let cs := shl32 CAN_CS_CODE_RX_EMPTY CAN_CS_CODE_SHIFT in
        let cs := if decide (filter_idType flt = CAN_ID_EXT)
                  then Z.lor cs CAN_WMBn_CS_IDE_MASK else cs in
        wr instance (rRAMn (mbOffset + 0)) cs;;
        (* Configure individual mask *)
        wr instance (rRXIMR mbIndex) (filter_mask flt);;
        (* Enable interrupt for this MB *)
        set_bits instance rIMASK1 (shl32 1 mbIndex);;
        ret STATUS_SUCCESS
  | _, _ => ret STATUS_INVALID_PARAM
  end.

Definition CAN_ConfigTxMailbox (instance mbIndex : Z) : M status_t :=
  if CAN_INSTANCE_COUNT <=? instance then ret STATUS_INVALID_PARAM
  else
    let* st := get in
    if negb (initialized st instance) then ret STATUS_NOT_INITIALIZED
    else if (mbIndex <? CAN_TX_MB_START)
            || (CAN_TX_MB_START + CAN_TX_MB_COUNT <=? mbIndex)
    then ret STATUS_INVALID_PARAM
    else
      let mbOffset := mbIndex * MSG_BUF_SIZE in
      (* Set MB as inactive TX *)
      wr instance (rRAMn (mbOffset + 0))
         (shl32 CAN_CS_CODE_TX_INACTIVE CAN_CS_CODE_SHIFT);;
      (* Enable interrupt for this MB *)
      set_bits instance rIMASK1 (shl32 1 mbIndex);;
      ret STATUS_SUCCESS.

Definition CAN_AbortTransmission (instance mbIndex : Z) : M status_t :=
  if (CAN_INSTANCE_COUNT <=? instance) || (CAN_MB_COUNT <=? mbIndex)
  then ret STATUS_INVALID_PARAM
  else
    let mbOffset := mbIndex * MSG_BUF_SIZE in
    (* Set abort code *)
    wr instance (rRAMn (mbOffset + 0))
       (shl32 CAN_CS_CODE_TX_ABORT CAN_CS_CODE_SHIFT);;
    ret STATUS_SUCCESS.

(** [isBusy] is the caller's variable ([None] for a null pointer). *)
Definition CAN_IsMbBusy (instance mbIndex : Z) (isBusy : option bool)
    : M (status_t * option bool) :=
  match (CAN_INSTANCE_COUNT <=? instance) || (CAN_MB_COUNT <=? mbIndex),
        isBusy with
  | false, Some _ =>
      let mbOffset := mbIndex * MSG_BUF_SIZE in
      let* cs := rd instance (rRAMn (mbOffset + 0)) in
      let code := Z.shiftr (Z.land cs CAN_CS_CODE_MASK) CAN_CS_CODE_SHIFT in
      ret (STATUS_SUCCESS,
           Some (negb (code =? CAN_CS_CODE_TX_INACTIVE)
                 && negb (code =? CAN_CS_CODE_RX_INACTIVE)))
  | _, _ => ret (STATUS_INVALID_PARAM, isBusy)
  end.

(** ** Error state queries *)

Definition CAN_GetErrorState (instance : Z)
    (errorState : option can_error_state_t)
    : M (status_t * option can_error_state_t) :=
  match CAN_INSTANCE_COUNT <=? instance, errorState with
  | false, Some _ =>
      let* esr1 := rd instance rESR1 in
      let fltConf := Z.shiftr (Z.land esr1 CAN_ESR1_FLTCONF_MASK)
                              CAN_ESR1_FLTCONF_SHIFT in
      ret (STATUS_SUCCESS,
           Some (if fltConf =? 0 then CAN_ERROR_ACTIVE
                 else if fltConf =? 1 then CAN_ERROR_PASSIVE
                 else CAN_ERROR_BUS_OFF))
  | _, _ => ret (STATUS_INVALID_PARAM, errorState)
  end.

Definition CAN_GetErrorCounters (instance : Z)
    (txErrorCount rxErrorCount : option Z)
    : M (status_t * option Z * option Z) :=
  match CAN_INSTANCE_COUNT <=? instance, txErrorCount, rxErrorCount with
  | false, Some _, Some _ =>
      let* e1 := rd instance rECR in
      let* e2 := rd instance rECR in
      ret (STATUS_SUCCESS, Some (u8 (Z.land (Z.shiftr e1 8) 0xFF)),
           Some (u8 (Z.land e2 0xFF)))
  | _, _, _ => ret (STATUS_INVALID_PARAM, txErrorCount, rxErrorCount)
  end.

(** ** Controller state machine *)

(** [while ((timeout > 0U) && waiting(base->MCR)) timeout--;] started with
    [timeout = n]; the result is the final value of [timeout]. *)
Fixpoint poll_mcr (n : nat) (inst : Z) (waiting : Z -> bool) : M nat :=
  match n with
  | O => ret O
  | S n' =>
      let* v := rd inst rMCR in
      if waiting v then poll_mcr n' inst waiting else ret n
  end.

Definition timeout_status (timeout : nat) : status_t :=
  match timeout with O => STATUS_TIMEOUT | S _ => STATUS_SUCCESS end.

Definition CAN_EnterFreezeMode (inst : Z) : M status_t :=
  (* Request freeze mode *)
  set_bits inst rMCR (Z.lor CAN_MCR_FRZ_MASK CAN_MCR_HALT_MASK);;
  (* Wait for freeze mode acknowledge *)
  let* timeout := poll_mcr (Z.to_nat CAN_FREEZE_TIMEOUT) inst
                    (fun v => Z.land v CAN_MCR_FRZACK_MASK =? 0) in
  ret (timeout_status timeout).

Definition CAN_ExitFreezeMode (inst : Z) : M status_t :=
  (* Clear freeze and halt bits *)
  clear_bits inst rMCR (Z.lor CAN_MCR_FRZ_MASK CAN_MCR_HALT_MASK);;
  (* Wait for module ready *)
  let* timeout := poll_mcr (Z.to_nat CAN_FREEZE_TIMEOUT) inst
                    (fun v => negb (Z.land v CAN_MCR_FRZACK_MASK =? 0)) in
  match timeout with
  | O => ret STATUS_TIMEOUT
  | S _ =>
      (* Wait for module not ready flag to clear *)
      let* timeout := poll_mcr (Z.to_nat CAN_FREEZE_TIMEOUT) inst
                        (fun v => negb (Z.land v CAN_MCR_NOTRDY_MASK =? 0)) in
      ret (timeout_status timeout)
  end.

Definition CAN_SoftReset (inst : Z) : M status_t :=
  (* Request soft reset *)
  set_bits inst rMCR CAN_MCR_SOFTRST_MASK;;
  (* Wait for reset to complete *)
  let* timeout := poll_mcr (Z.to_nat CAN_FREEZE_TIMEOUT) inst
                    (fun v => negb (Z.land v CAN_MCR_SOFTRST_MASK =? 0)) in
  ret (timeout_status timeout).

Definition CAN_EnableClock (instance : Z) (clockSource : can_clk_src_t)
    : M unit :=
  (* MDIS=1: Disable module before selecting clock *)
  set_bits instance rMCR CAN_MCR_MDIS_MASK;;
  (* Select clock source in CTRL1 *)
  (if decide (clockSource = CAN_CLK_SRC_SOSCDIV2)
   then clear_bits instance rCTRL1 CAN_CTRL1_CLKSRC_MASK
   else set_bits instance rCTRL1 CAN_CTRL1_CLKSRC_MASK);;
  (* MDIS=0; Enable module config. *)
  clear_bits instance rMCR CAN_MCR_MDIS_MASK.

(** [for (i = start; i < start + n; i++) body(i);] *)
Fixpoint for_each (n : nat) (i : Z) (body : Z -> M unit) : M unit :=
  match n with
  | O => ret tt
  | S n' => body i;; for_each n' (i + 1) body
  end.

Definition CAN_InitMessageBuffers (inst : Z) : M unit :=
  (* Clear all 32 msg bufs x 4 words/msg buf = 128 words *)
  for_each 128 0 (fun i => wr inst (rRAMn i) 0);;
  (* In FRZ mode, init CAN 16 msg buf filters *)
  for_each 16 0 (fun i => wr inst (rRXIMR i) 0xFFFFFFFF);;
  (* Clear all interrupt flags *)
  wr inst rIFLAG1 0xFFFFFFFF.

Definition CAN_GetClockFrequency (clockSource : can_clk_src_t) : Z :=
  match clockSource with
  | CAN_CLK_SRC_SOSCDIV2 => 4000000
  | CAN_CLK_SRC_BUSCLOCK => 40000000
  | _ => CAN_DEFAULT_CLK_FREQ
  end.

(** ** Initialization *)

Definition CAN_Init (config : option can_config_t) : M status_t :=
  match config with
  | None => ret STATUS_INVALID_PARAM
  | Some cfg =>
      if CAN_INSTANCE_COUNT <=? instance cfg then ret STATUS_INVALID_PARAM
      else
        let base := instance cfg in
        (* Enable CAN clock *)
        CAN_EnableClock (instance cfg) (clockSource cfg);;
        (* Get CAN clock frequency *)
        let canClockHz := CAN_GetClockFrequency (clockSource cfg) in
        (* Enter freeze mode for configuration *)
        let* status := CAN_EnterFreezeMode base in
        if negb (bool_decide (status = STATUS_SUCCESS)) then ret STATUS_ERROR
        else
        (* Soft reset *)
        let* status := CAN_SoftReset base in
        if negb (bool_decide (status = STATUS_SUCCESS)) then ret STATUS_ERROR
        else
        (* Calculate timing parameters; [timing] is an uninitialised local *)
        match CAN_CalculateTiming canClockHz (baudRate cfg)
                (Some (Timing 0 0 0 0 0)) with
        | (STATUS_SUCCESS, Some timing) =>
            (* Configure CTRL1 register *)
            wr base rCTRL1
               (Z.lor (Z.lor (Z.lor (Z.lor (Z.lor
                  (shl32 (preDiv timing) CAN_CTRL1_PRESDIV_SHIFT)
                  (shl32 (rJumpWidth timing) CAN_CTRL1_RJW_SHIFT))
                  (shl32 (phaseSeg1 timing) CAN_CTRL1_PSEG1_SHIFT))
                  (shl32 (phaseSeg2 timing) CAN_CTRL1_PSEG2_SHIFT))
                  (shl32 (propSeg timing) CAN_CTRL1_PROPSEG_SHIFT))
                  (shl32 3 CAN_CTRL1_SMP_SHIFT));;
            (* Configure operating mode *)
            (if decide (mode cfg = CAN_MODE_LOOPBACK)
             then set_bits base rCTRL1 CAN_CTRL1_LPB_MASK
             else if decide (mode cfg = CAN_MODE_LISTEN_ONLY)
             then set_bits base rCTRL1 CAN_CTRL1_LOM_MASK
             else ret tt);;
            (* Configure self-reception *)
            (if negb (enableSelfReception cfg)
             then set_bits base rMCR CAN_MCR_SRXDIS_MASK
             else ret tt);;
            (* Configure RX FIFO or individual MBs *)
            (if useRxFifo cfg
             then set_bits base rMCR CAN_MCR_RFEN_MASK
             else clear_bits base rMCR CAN_MCR_RFEN_MASK);;
            (* Set maximum number of MBs *)
            (let* v := rd base rMCR in
             wr base rMCR
                (Z.lor (Z.land v (not32 CAN_MCR_MAXMB_MASK))
                       (shl32 (CAN_MB_COUNT - 1) CAN_MCR_MAXMB_SHIFT)));;
            (* Initialize all Message Buffers *)
            CAN_InitMessageBuffers base;;
            (* Initialize global mask to accept all messages *)
            wr base rRXMGMASK 0x1FFFFFFF;;
            (* Clear error counters *)
            wr base rECR 0;;
            (* Exit freeze mode *)
            let* status := CAN_ExitFreezeMode base in
            if negb (bool_decide (status = STATUS_SUCCESS))
            then ret STATUS_ERROR
            else
              (* Mark as initialized *)
              set_initialized (instance cfg) true;;
              ret STATUS_SUCCESS
        | _ => ret STATUS_INVALID_PARAM
        end
  end.

Definition CAN_Deinit (instance : Z) : M status_t :=
  if CAN_INSTANCE_COUNT <=? instance then ret STATUS_INVALID_PARAM
  else
    (* Disable module *)
    set_bits instance rMCR CAN_MCR_MDIS_MASK;;
    (* Clear initialized flag *)
    set_initialized instance false;;
    ret STATUS_SUCCESS.

(** ** Instance registry and callbacks *)

Definition CAN_GetInstanceIndex (base : Z) : Z :=
  if base =? CAN0 then 0
  else if base =? CAN1 then 1
  else if base =? CAN2 then 2
  else 0xFF.

Definition CAN_RegisterCallback (instance : Z) (cb : can_callback_t)
    : M status_t :=
  let index := CAN_GetInstanceIndex instance in
  if index =? 0xFF then ret STATUS_INVALID_PARAM
  else set_callback index cb;; ret STATUS_SUCCESS.

Definition CAN_UnregisterCallback (instance : Z) : M status_t :=
  let index := CAN_GetInstanceIndex instance in
  if index =? 0xFF then ret STATUS_INVALID_PARAM
  else set_callback index NULL;; ret STATUS_SUCCESS.

(** ** can.h: inline mailbox accessors

    The handler receives the base address of a controller; once
    [CAN_GetInstanceIndex] has recognised it, its registers are those of
    bank [inst]. *)

Definition CAN_GetMbOffset (mbIdx : Z) : Z := u32 (mbIdx * 4).

Definition CAN_ReadMbCs (inst mbIdx : Z) : M Z :=
  rd inst (rRAMn (CAN_GetMbOffset mbIdx + 0)).

Definition CAN_WriteMbCs (inst mbIdx cs : Z) : M unit :=
  wr inst (rRAMn (CAN_GetMbOffset mbIdx + 0)) cs.

Definition CAN_ReadMbId (inst mbIdx : Z) : M Z :=
  rd inst (rRAMn (CAN_GetMbOffset mbIdx + 1)).

Definition CAN_WriteMbId (inst mbIdx idw : Z) : M unit :=
  wr inst (rRAMn (CAN_GetMbOffset mbIdx + 1)) idw.

Definition CAN_ReadMbData (inst mbIdx wordIdx : Z) : M Z :=
  rd inst (rRAMn (CAN_GetMbOffset mbIdx + 2 + wordIdx)).

Definition CAN_WriteMbData (inst mbIdx wordIdx v : Z) : M unit :=
  wr inst (rRAMn (CAN_GetMbOffset mbIdx + 2 + wordIdx)) v.

(** [for (i = start; i < length && i < stop; i++)
       data[i] = (uint8_t)(word >> (top - i * 8U));]
    with [n] bounding the number of iterations. *)
Fixpoint unpack_loop (n : nat) (i stop length word top : Z) (data : list Z)
    : list Z :=
  match n with
  | O => data
  | S n' =>
      if (i <? length) && (i <? stop)
      then unpack_loop n' (i + 1) stop length word top
             (<[Z.to_nat i := u8 (Z.shiftr word (u32 (top - u32 (i * 8))))]>
                data)
      else data
  end.

(** [data] is the destination array; the result is its content after the
    call. *)
Definition CAN_CopyDataFromMb (inst mbIdx : Z) (data : list Z) (length : Z)
    : M (list Z) :=
  let* dataWord0 := CAN_ReadMbData inst mbIdx 0 in
  let* dataWord1 := CAN_ReadMbData inst mbIdx 1 in
  (* Unpack 32-bit words into bytes (big-endian format) *)
  let data := unpack_loop 4 0 4 length dataWord0 24 data in
  let data := unpack_loop 4 4 8 length dataWord1 56 data in
  ret data.

(** [for (i = start; i < length && i < stop; i++)
       word |= ((uint32_t)data[i] << (top - i * 8U));] *)
Fixpoint pack_loop (n : nat) (i stop length top : Z) (data : list Z)
    (word : Z) : Z :=
  match n with
  | O => word
  | S n' =>
      if (i <? length) && (i <? stop)
      then pack_loop n' (i + 1) stop length top data
             (Z.lor word (shl32 (data !!! Z.to_nat i)
                                (u32 (top - u32 (i * 8)))))
      else word
  end.

Definition CAN_CopyDataToMb (inst mbIdx : Z) (data : list Z) (length : Z)
    : M unit :=
  let dataWord0 := pack_loop 4 0 4 length 24 data 0 in
  let dataWord1 := pack_loop 4 4 8 length 56 data 0 in
  CAN_WriteMbData inst mbIdx 0 dataWord0;;
  CAN_WriteMbData inst mbIdx 1 dataWord1.

Definition CAN_ClearMb (inst mbIdx : Z) : M unit :=
  let offset := CAN_GetMbOffset mbIdx in
  wr inst (rRAMn (offset + 0)) 0;;
  wr inst (rRAMn (offset + 1)) 0;;
  wr inst (rRAMn (offset + 2)) 0;;
  wr inst (rRAMn (offset + 3)) 0.

(** ** Interrupt dispatcher *)

(** [can_message_t rxMessage = {0}] and [can_event_data_t eventData = {0}]. *)
Definition rxMessage0 : can_message_t :=
  Message 0 CAN_ID_STD CAN_FRAME_DATA 0 [0; 0; 0; 0; 0; 0; 0; 0].
Definition eventData0 : can_event_data_t := EventData 0 None 0.

(** The body of the scanning loop for the mailbox [mbIdx] whose flag is
    set: classify, serve, call back.  [instance] is the base address the
    handler was called with, [instIdx] its index. *)
Definition irq_service (instance instIdx mbIdx : Z) : M unit :=
  (* Read CS to determine if TX or RX *)
  let* cs := CAN_ReadMbCs instIdx mbIdx in
  let code := u8 (Z.shiftr (Z.land cs CAN_CS_CODE_MASK) CAN_CS_CODE_SHIFT) in
  let* ev :=
    if code =? CAN_CS_CODE_TX_INACTIVE then
      (* TX Complete: clear flag *)
      wr instIdx rIFLAG1 (shl32 1 mbIdx);;
      ret (CAN_EVENT_TX_COMPLETE, EventData mbIdx None 0)
    else if code =? CAN_CS_CODE_RX_FULL then
      (* RX Complete - read message *)
      let dlc := u8 (Z.shiftr (Z.land cs CAN_WMBn_CS_DLC_MASK)
                              CAN_WMBn_CS_DLC_SHIFT) in
      let len := if 8 <? dlc then 8 else dlc in
      (* Extract ID *)
      let* idReg := CAN_ReadMbId instIdx mbIdx in
      let '(ty, ident) :=
        if negb (Z.land cs CAN_WMBn_CS_IDE_MASK =? 0)
        then (CAN_ID_EXT,
              Z.shiftr (Z.land idReg CAN_ID_EXT_MASK) CAN_ID_EXT_SHIFT)
        else (CAN_ID_STD,
              Z.shiftr (Z.land idReg CAN_ID_STD_MASK) CAN_ID_STD_SHIFT) in
      (* Extract frame type *)
      let frame := if negb (Z.land cs CAN_WMBn_CS_RTR_MASK =? 0)
                   then CAN_FRAME_REMOTE else CAN_FRAME_DATA in
      (* Copy data *)
      let* bytes := CAN_CopyDataFromMb instIdx mbIdx (data rxMessage0) len in
      let rxMessage := Message ident ty frame len bytes in
      (* Clear flag (after reading data) *)
      wr instIdx rIFLAG1 (shl32 1 mbIdx);;
      (* Reactivate MB for next reception *)
      CAN_WriteMbCs instIdx mbIdx
        (Z.lor (shl32 CAN_CS_CODE_RX_EMPTY CAN_CS_CODE_SHIFT)
               (Z.land cs (Z.lor CAN_WMBn_CS_IDE_MASK CAN_WMBn_CS_RTR_MASK)));;
      ret (CAN_EVENT_RX_COMPLETE, EventData mbIdx (Some rxMessage) 0)
    else ret (CAN_EVENT_NONE, eventData0) in
  (* Call unified callback *)
  let '(event, eventData) := ev in
  if negb (bool_decide (event = CAN_EVENT_NONE))
  then let* st := get in call (callback st instIdx) instance event eventData
  else ret tt.

(** [for (mbIdx = start; mbIdx < 32U; mbIdx++)
       if ((iflag1 & (1UL << mbIdx)) != 0) { ...; break; }]
    with [n = 32 - start] iterations left. *)
Fixpoint irq_scan (n : nat) (mbIdx instance instIdx iflag1 : Z) : M unit :=
  match n with
  | O => ret tt
  | S n' =>
      if negb (Z.land iflag1 (shl32 1 mbIdx) =? 0)
      then irq_service instance instIdx mbIdx
      else irq_scan n' (mbIdx + 1) instance instIdx iflag1
  end.

Definition CAN_IRQHandler (instance : Z) : M unit :=
  let instIdx := CAN_GetInstanceIndex instance in
  let* st := get in
  if (instIdx =? 0xFF) || (callback st instIdx =? NULL) then ret tt
  else
    (* Check MB interrupts (TX/RX) *)
    let* iflag1 := rd instIdx rIFLAG1 in
    if negb (iflag1 =? 0)
    then irq_scan 32 0 instance instIdx iflag1
    else ret tt.

End Driver.

(** ** Two hardware reactions and the power-on state *)

(** A register bank that never changes by itself (a mock). *)
Definition hw_idle (b : CAN_Type) : CAN_Type := b.

(** A controller that completes a soft reset at once and acknowledges
    freeze requests: [FRZACK] and [NOTRDY] follow [FRZ & HALT]. *)
Definition hw_ack (b : CAN_Type) : CAN_Type :=
  let m := Z.land (MCR b) (not32 CAN_MCR_SOFTRST_MASK) in
  let frozen := negb (Z.land m CAN_MCR_FRZ_MASK =? 0)
                && negb (Z.land m CAN_MCR_HALT_MASK =? 0) in
  let status := Z.lor CAN_MCR_FRZACK_MASK CAN_MCR_NOTRDY_MASK in
  let m := if frozen then Z.lor m status else Z.land m (not32 status) in
  write_reg rMCR m b.

Definition regs0 : CAN_Type :=
  Regs 0 0 0 0 0 0 0 0 (replicate 128 0) (replicate 32 0).

(** The state before any call: the static initialisers of can.c. *)
Definition power_on : driver :=
  Driver (fun _ => regs0) [false; false; false] [NULL; NULL; NULL] [].

(** ** Vocabulary of the properties *)

(** The activation code of a control-status word. *)
Definition cs_code (cs : Z) : Z :=
  Z.shiftr (Z.land cs CAN_CS_CODE_MASK) CAN_CS_CODE_SHIFT.

(** The data-length code of a control-status word. *)
Definition cs_dlc (cs : Z) : Z :=
  Z.shiftr (Z.land cs CAN_WMBn_CS_DLC_MASK) CAN_WMBn_CS_DLC_SHIFT.

(** The content of a [uint8_t data[8]] array. *)
Definition byte_array (l : list Z) : Prop :=
  length l = 8%nat /\ Forall (fun b => 0 <= b < 256) l.

(** The four words of mailbox [mb] in the register block [b]. *)
Definition mailbox_holds (b : CAN_Type) (mb cs idw data0 data1 : Z) : Prop :=
  read_reg (rRAMn (mb * 4)) b = cs /\
  read_reg (rRAMn (mb * 4 + 1)) b = idw /\
  read_reg (rRAMn (mb * 4 + 2)) b = data0 /\
  read_reg (rRAMn (mb * 4 + 3)) b = data1.

(** Two control-status words with the same IDE and RTR flags and the same
    data-length code; the activation code and the time stamp, which the
    controller sets on reception, may differ. *)
Definition same_frame_fields (cs cs' : Z) : Prop :=
  Z.land cs CAN_WMBn_CS_IDE_MASK = Z.land cs' CAN_WMBn_CS_IDE_MASK /\
  Z.land cs CAN_WMBn_CS_RTR_MASK = Z.land cs' CAN_WMBn_CS_RTR_MASK /\
  Z.land cs CAN_WMBn_CS_DLC_MASK = Z.land cs' CAN_WMBn_CS_DLC_MASK.

(** Mailbox [k] is the lowest-index mailbox whose flag is set in [f]. *)
Definition lowest_pending (f k : Z) : Prop :=
  0 <= k < 32 /\ Z.testbit f k = true /\
  forall j, 0 <= j < k -> Z.testbit f j = false.

(** The mailbox a bus access to the mailbox RAM belongs to. *)
Definition ram_mailbox (a : access) : option Z :=
  match a with
  | Rd _ (rRAMn i) _ | Wr _ (rRAMn i) _ => Some (i / 4)
  | _ => None
  end.

Definition is_call (a : access) : bool :=
  match a with Call _ _ _ _ => true | _ => false end.

(** The value stored, when the access is a store to the flag register. *)
Definition flag_store (a : access) : option Z :=
  match a with Wr _ rIFLAG1 v => Some v | _ => None end.

(** Every mailbox RAM access of [l] is to mailbox [k]. *)
Definition only_mailbox (k : Z) (l : list access) : Prop :=
  Forall (fun a => forall m, ram_mailbox a = Some m -> m = k) l.

(** Every store to the flag register in [l] writes exactly [1 << k]. *)
Definition only_flag (k : Z) (l : list access) : Prop :=
  Forall (fun a => forall v, flag_store a = Some v -> v = 2 ^ k) l.

(** The control-status word the handler stores to re-arm a receive
    mailbox whose control-status word read as [cs]. *)
Definition rearm_cs (cs : Z) : Z :=
  Z.lor (shl32 CAN_CS_CODE_RX_EMPTY CAN_CS_CODE_SHIFT)
        (Z.land cs (Z.lor CAN_WMBn_CS_IDE_MASK CAN_WMBn_CS_RTR_MASK)).

(** A computation that leaves the table [s_canInitialized] alone. *)
Definition keeps_flags {A} (c : M A) : Prop :=
  forall st, s_canInitialized (snd (c st)) = s_canInitialized st.

(** A computation that leaves it alone unless it returns success. *)
Definition keeps_flags_on_failure (c : M status_t) : Prop :=
  forall st, fst (c st) <> STATUS_SUCCESS ->
             s_canInitialized (snd (c st)) = s_canInitialized st.

(** The six operations that consult [s_canInitialized] reject the call,
    with the driver state (registers, tables, log) exactly as before. *)
Definition rejects_uninitialized (hw : CAN_Type -> CAN_Type) (st : driver)
    (inst : Z) : Prop :=
  (forall mb msg,
     CAN_Send hw inst mb (Some msg) st = (STATUS_NOT_INITIALIZED, st)) /\
  (forall mb msg t,
     CAN_SendBlocking hw inst mb (Some msg) t st
     = (STATUS_NOT_INITIALIZED, st)) /\
  (forall mb msg,
     CAN_Receive hw inst mb (Some msg) st
     = (STATUS_NOT_INITIALIZED, Some msg, st)) /\
  (forall mb msg t,
     CAN_ReceiveBlocking hw inst mb (Some msg) t st
     = (STATUS_NOT_INITIALIZED, Some msg, st)) /\
  (forall mb flt,
     CAN_ConfigRxFilter hw inst mb (Some flt) st
     = (STATUS_NOT_INITIALIZED, st)) /\
  (forall mb, CAN_ConfigTxMailbox hw inst mb st = (STATUS_NOT_INITIALIZED, st)).

(** Modelled from the spec: the matching rule of the controller hardware,
    which is no code of the repository: mailbox [mbIndex] accepts a frame
    when the received identifier word and the configured identifier word
    agree on every bit set in the mailbox's individual mask register. *)
Definition mb_accepts (b : CAN_Type) (mbIndex rxIdWord : Z) : bool :=
  let m := read_reg (rRXIMR mbIndex) b in
  Z.land rxIdWord m =? Z.land (read_reg (rRAMn (mbIndex * 4 + 1)) b) m.

(** Modelled from the spec: the identifier word of a received standard
    frame ("standard 11-bit IDs occupy bits 18-28 of the ID word"). *)
Definition std_id_word (i : Z) : Z :=
  Z.land (shl32 i CAN_ID_STD_SHIFT) CAN_ID_STD_MASK.

(** An initialised instance 0 whose registers are all zero. *)
Definition ready : driver :=
  Driver (fun _ => regs0) [true; false; false] [NULL; NULL; NULL] [].

Definition msg_123 : can_message_t :=
  Message 0x123 CAN_ID_STD CAN_FRAME_DATA 8 [1; 2; 3; 4; 5; 6; 7; 8].

Definition config_500k : can_config_t :=
  Config 0 CAN_CLK_SRC_BUSCLOCK 500000 CAN_MODE_LOOPBACK true false.

(** Scenario C of the specification: flags 3 and 9 pending on CAN0,
    mailbox 3 receive-full (DLC 8, identifier 0x123, payload 1..8),
    mailbox 9 transmit-inactive, a callback registered. *)
Definition scenario_C : driver :=
  let ram :=
    <[36%nat := 0x08000000]>
      (<[15%nat := 0x05060708]>
         (<[14%nat := 0x01020304]>
            (<[13%nat := 0x048C0000]>
               (<[12%nat := 0x02080000]> (replicate 128 0))))) in
  Driver (fun _ => Regs 0 0 0 0 0 0 0x208 0 ram (replicate 32 0))
         [true; false; false] [0x8000; NULL; NULL] [].

(** Mailbox 16 after loop-back delivery of [msg_123]: receive-full code,
    a time stamp, the words of the frame; flag 16 pending. *)
Definition delivered : driver :=
  let ram :=
    <[67%nat := send_data1 msg_123]>
      (<[66%nat := send_data0 msg_123]>
         (<[65%nat := send_id msg_123]>
            (<[64%nat := 0x02481234]> (replicate 128 0)))) in
  Driver (fun _ => Regs 0 0 0 0 0 0 0x10000 0 ram (replicate 32 0))
         [true; false; false] [NULL; NULL; NULL] [].

(** The registers after [CAN_ConfigRxFilter] of mailbox 16 with the
    standard filter id 0x200, mask 0x700. *)
Definition filtered : driver :=
  snd (CAN_ConfigRxFilter hw_idle 0 16 (Some (Filter 0x200 0x700 CAN_ID_STD))
         ready).

(** The five stores of a successful [CAN_Send], in program order. *)
Definition send_stores (instance mbIndex : Z) (msg : can_message_t)
    : list access :=
  [ Wr instance rIFLAG1 (2 ^ mbIndex);
    Wr instance (rRAMn (mbIndex * 4 + 2)) (send_data0 msg);
    Wr instance (rRAMn (mbIndex * 4 + 3)) (send_data1 msg);
    Wr instance (rRAMn (mbIndex * 4 + 1)) (send_id msg);
    Wr instance (rRAMn (mbIndex * 4 + 0)) (send_cs msg) ].

(** The number four bytes stand for, most significant first. *)
Definition bytes_word (b0 b1 b2 b3 : Z) : Z :=
  b0 * 2 ^ 24 + b1 * 2 ^ 16 + b2 * 2 ^ 8 + b3.

(** The two arrays of a register block have their declared sizes. *)
Definition bank_wf (b : CAN_Type) : Prop :=
  length (RAMn b) = 128%nat /\ length (RXIMR b) = 32%nat.
(** The two file-scope tables have [CAN_INSTANCE_COUNT] entries. *)
Definition tables_wf (st : driver) : Prop :=
  length (s_canInitialized st) = 3%nat /\ length (s_canCallbacks st) = 3%nat.

(** A computation that only adds to the log, at most [k] accesses. *)
Definition accesses_at_most {A} (c : M A) (k : Z) : Prop :=
  forall st, exists l, bus (snd (c st)) = l ++ bus st /\
                       Z.of_nat (length l) <= k.

(** What a call of [CAN_Init] on instance [inst] does to the table
    [s_canInitialized], by its status: on success the entry of [inst] is
    set, with [Q] the conditions the success needed; otherwise the status
    is [STATUS_ERROR] or [STATUS_INVALID_PARAM] and the table is as
    before. *)
Definition init_outcome (Q : Prop) (inst : Z) (c : M status_t) : Prop :=
  forall st,
    (fst (c st) = STATUS_SUCCESS /\ Q /\
     s_canInitialized (snd (c st))
     = <[Z.to_nat inst := true]> (s_canInitialized st)) \/
    ((fst (c st) = STATUS_ERROR \/ fst (c st) = STATUS_INVALID_PARAM) /\
     s_canInitialized (snd (c st)) = s_canInitialized st).

(** A property of the final state of every successful run. *)
Definition on_success (P : driver -> Prop) (c : M status_t) : Prop :=
  forall st, fst (c st) = STATUS_SUCCESS -> P (snd (c st)).

(** The word [CAN_Init] stores to [CTRL1]: prescaler 0, jump width 3,
    phase segments 3 and 3, propagation segment 6, triple sampling. *)
Definition CTRL1_timing : Z := 0x00DB0186.

Definition is_load (a : access) : bool :=
  match a with Rd _ _ _ => true | _ => false end.

(** A computation that only loads: the log grows by loads, the two tables
    are as before, and so are the registers when the controller is
    passive. *)
Definition read_only {A} (hw : CAN_Type -> CAN_Type) (c : M A) : Prop :=
  forall st,
    (exists l, bus (snd (c st)) = l ++ bus st /\
               forallb is_load l = true) /\
    s_canInitialized (snd (c st)) = s_canInitialized st /\
    s_canCallbacks (snd (c st)) = s_canCallbacks st /\
    ((forall b, hw b = b) -> forall i, bank (snd (c st)) i = bank st i).

(** A computation that leaves the callback table alone and keeps the
    number of entries of [s_canInitialized]. *)
Definition keeps_shape {A} (c : M A) : Prop :=
  forall st,
    length (s_canInitialized (snd (c st))) = length (s_canInitialized st) /\
    s_canCallbacks (snd (c st)) = s_canCallbacks st.

(** ** nvic.c: the interrupt controller

    The register arrays of nvic_reg.h (the reserved gaps and [STIR] left
    out) as storage: a register holds what was last stored to it.  What
    the controller itself does on a store to a set-enable or clear-enable
    register is not part of the model. *)

Record NVIC_Type : Set := Nvic {
  ISER : list Z;
  ICER : list Z;
  ISPR : list Z;
  ICPR : list Z;
  IABR : list Z;
  IP : list Z
}.

(** nvic.h: the two interrupt numbers the service layer uses. *)
Definition CAN0_ORed_0_15_MB_IRQn : Z := 81.
Definition CAN0_ORed_16_31_MB_IRQn : Z := 82.

Definition NVIC_EnableInterrupt (IRQ_number : Z) (nv : NVIC_Type)
    : NVIC_Type :=
  if (0 <=? IRQ_number) && (IRQ_number <? 240) then
    let regIndex := u8 (IRQ_number / 32) in
    let bitPos := u8 (IRQ_number mod 32) in
    Nvic (<[Z.to_nat regIndex :=
              Z.lor (ISER nv !!! Z.to_nat regIndex) (shl32 1 bitPos)]>
            (ISER nv))
         (ICER nv) (ISPR nv) (ICPR nv) (IABR nv) (IP nv)
  else nv.

Definition NVIC_DisableInterrupt (IRQ_number : Z) (nv : NVIC_Type)
    : NVIC_Type :=
  if (0 <=? IRQ_number) && (IRQ_number <? 240) then
    let regIndex := u8 (IRQ_number / 32) in
    let bitPos := u8 (IRQ_number mod 32) in
    Nvic (ISER nv)
         (<[Z.to_nat regIndex :=
              Z.lor (ICER nv !!! Z.to_nat regIndex) (shl32 1 bitPos)]>
            (ICER nv))
         (ISPR nv) (ICPR nv) (IABR nv) (IP nv)
  else nv.

Definition NVIC_SetPriority (IRQ_number priority : Z) (nv : NVIC_Type)
    : NVIC_Type :=
  if (0 <=? IRQ_number) && (IRQ_number <? 240) && (priority <=? 15) then
    let regIndex := u8 IRQ_number in
    let current_value := IP nv !!! Z.to_nat regIndex in
    let current_value :=
      u8 (Z.land current_value (Z.lnot (Z.shiftl 0xF 4))) in
    let current_value :=
      u8 (Z.lor current_value (Z.shiftl (Z.land priority 0xF) 4)) in
    Nvic (ISER nv) (ICER nv) (ISPR nv) (ICPR nv) (IABR nv)
         (<[Z.to_nat regIndex := current_value]> (IP nv))
  else nv.

(** ** can_srv.h and can_srv.c: the service layer *)

Inductive can_srv_status_t : Set :=
| CAN_SRV_SUCCESS
| CAN_SRV_ERROR
| CAN_SRV_NOT_INITIALIZED
| CAN_SRV_BUSY.

Inductive can_srv_event_t : Set :=
| CAN_SRV_EVENT_TX_COMPLETE
| CAN_SRV_EVENT_RX_COMPLETE
| CAN_SRV_EVENT_ERROR
| CAN_SRV_EVENT_BUS_OFF.

(** [can_srv_message_t]; the fields [id] and [data] carry a prefix, the
    driver's message has fields of these names. *)
Record can_srv_message_t : Set := SrvMessage {
  srv_id : Z;
  srv_data : list Z;
  dlc : Z;
  isExtended : bool;
  isRemote : bool
}.

(** [can_srv_config_t]; [filter_id], [filter_mask] and [mode] carry a
    prefix for the same reason. *)
Record can_srv_config_t : Set := SrvConfig {
  baudrate : Z;
  srv_filter_id : Z;
  srv_filter_mask : Z;
  filter_extended : bool;
  filter_id2 : Z;
  filter_mask2 : Z;
  srv_mode : can_mode_t
}.

Definition can_srv_callback_t : Set := Z.

Definition CAN_DEFAULT_INSTANCE : Z := 0.
Definition CAN_TX_MB : Z := 8.
Definition CAN_RX_MB_PRIMARY : Z := 16.
Definition CAN_RX_MB_SECONDARY : Z := 17.

(** A call of the user's callback with its three arguments; [message] is
    [None] for a null pointer. *)
Inductive user_call : Set :=
| UserCall (cb : can_srv_callback_t) (inst : Z) (event : can_srv_event_t)
           (msg : option can_srv_message_t).

(** The state of the service layer: the driver below it, the interrupt
    controller, the four file-scope variables of can_srv.c and the calls
    of the user's callback, most recent first. *)
Record service : Type := Service {
  drv : driver;
  nvic : NVIC_Type;
  s_can_initialized : bool;
  s_can_instance_num : Z;
  s_can_instance : Z;
  s_user_callback : can_srv_callback_t;
  user_calls : list user_call
}.

Definition with_drv (d : driver) (s : service) : service :=
  Service d (nvic s) (s_can_initialized s) (s_can_instance_num s)
          (s_can_instance s) (s_user_callback s) (user_calls s).

(** [memcpy(dst, src, n)] on byte arrays. *)
Definition memcpy (dst src : list Z) (n : Z) : list Z :=
  take (Z.to_nat n) src ++ drop (Z.to_nat n) dst.

(** [can_srv_message_t srvMessage = {0}]. *)
Definition srvMessage0 : can_srv_message_t :=
  SrvMessage 0 [0; 0; 0; 0; 0; 0; 0; 0] 0 false false.

(** The bridge from driver events to the user's callback. *)
Definition CAN_SRV_DriverCallback (base : Z) (event : can_event_t)
    (eventData : can_event_data_t) (s : service) : service :=
  if s_user_callback s =? NULL then s
  else
    (* Forward to user *)
    let forward (srvEvent : can_srv_event_t) (srvMessage : can_srv_message_t) :=
      Service (drv s) (nvic s) (s_can_initialized s) (s_can_instance_num s)
        (s_can_instance s) (s_user_callback s)
        (UserCall (s_user_callback s) (s_can_instance_num s) srvEvent
           (if bool_decide (event = CAN_EVENT_RX_COMPLETE)
            then Some srvMessage else None)
         :: user_calls s) in
    (* Convert driver event to service event *)
    match event with
    | CAN_EVENT_TX_COMPLETE => forward CAN_SRV_EVENT_TX_COMPLETE srvMessage0
    | CAN_EVENT_RX_COMPLETE =>
        (* Convert driver message to service message *)
        let srvMessage :=
          match message eventData with
          | Some m =>
              SrvMessage (id m) (memcpy (srv_data srvMessage0) (data m) 8)
                         (dataLength m)
                         (bool_decide (idType m = CAN_ID_EXT))
                         (bool_decide (frameType m = CAN_FRAME_REMOTE))
          | None => srvMessage0
          end in
        forward CAN_SRV_EVENT_RX_COMPLETE srvMessage
    | CAN_EVENT_ERROR => forward CAN_SRV_EVENT_ERROR srvMessage0
    | CAN_EVENT_BUS_OFF => forward CAN_SRV_EVENT_BUS_OFF srvMessage0
    | _ => s (* Don't call user callback for unknown events *)
    end.

(** The driver message [CAN_SRV_Send] builds: the designated initialiser
    zeroes [data], then [memcpy] copies [dlc] bytes. *)
Definition drvMsg_of (msg : can_srv_message_t) : can_message_t :=
  Message (srv_id msg)
          (if isExtended msg then CAN_ID_EXT else CAN_ID_STD)
          (if isRemote msg then CAN_FRAME_REMOTE else CAN_FRAME_DATA)
          (dlc msg)
          (memcpy [0; 0; 0; 0; 0; 0; 0; 0] (srv_data msg) (dlc msg)).

(** The driver configuration [CAN_SRV_Init] builds for instance
    [instance_num]. *)
Definition canConfig_of (instance_num : Z) (config : can_srv_config_t)
    : can_config_t :=
  Config instance_num CAN_CLK_SRC_SOSCDIV2 (baudrate config)
         (srv_mode config)
         (if decide (srv_mode config = CAN_MODE_LOOPBACK) then true else false)
         false.

Section Service.

Variable hw : CAN_Type -> CAN_Type.

(** The address of [CAN_SRV_DriverCallback]. *)
Variable driver_cb : can_callback_t.

Definition CAN_SRV_Init (config : option can_srv_config_t) (s : service)
    : can_srv_status_t * service :=
  match config with
  | None => (CAN_SRV_ERROR, s)
  | Some cfg =>
      (* Select CAN instance: the two variables are assigned here and
         read below *)
      let instance_num := CAN_DEFAULT_INSTANCE in
      let instance_ptr := CAN0 in
      let leave (status : can_srv_status_t) (d : driver) (nv : NVIC_Type)
                (initialized : bool) :=
        (status,
         Service d nv initialized instance_num instance_ptr
                 (s_user_callback s) (user_calls s)) in
      (* Initialize CAN driver *)
      let canConfig := canConfig_of instance_num cfg in
      let '(status, d) := CAN_Init hw (Some canConfig) (drv s) in
      if negb (bool_decide (status = STATUS_SUCCESS))
      then leave CAN_SRV_ERROR d (nvic s) (s_can_initialized s)
      else
      (* Configure RX filter *)
      let filter :=
        Filter (srv_filter_id cfg) (srv_filter_mask cfg)
               (if filter_extended cfg then CAN_ID_EXT else CAN_ID_STD) in
      let '(status, d) :=
        CAN_ConfigRxFilter hw instance_num CAN_RX_MB_PRIMARY (Some filter) d in
      if negb (bool_decide (status = STATUS_SUCCESS))
      then leave CAN_SRV_ERROR d (nvic s) (s_can_initialized s)
      else
      (* Configure secondary RX filter if enabled *)
      let '(status, d) :=
        if negb (filter_id2 cfg =? 0) then
          let filter2 :=
            Filter (filter_id2 cfg) (filter_mask2 cfg)
                   (if filter_extended cfg then CAN_ID_EXT else CAN_ID_STD) in
          CAN_ConfigRxFilter hw instance_num CAN_RX_MB_SECONDARY
            (Some filter2) d
        else (STATUS_SUCCESS, d) in
      if negb (bool_decide (status = STATUS_SUCCESS))
      then leave CAN_SRV_ERROR d (nvic s) (s_can_initialized s)
      else
      (* Configure TX mailbox *)
      let '(status, d) := CAN_ConfigTxMailbox hw instance_num CAN_TX_MB d in
      if negb (bool_decide (status = STATUS_SUCCESS))
      then leave CAN_SRV_ERROR d (nvic s) (s_can_initialized s)
      else
      (* Register driver callback *)
      let '(status, d) := CAN_RegisterCallback instance_ptr driver_cb d in
      if negb (bool_decide (status = STATUS_SUCCESS))
      then leave CAN_SRV_ERROR d (nvic s) (s_can_initialized s)
      else
      (* Enable CAN interrupts in NVIC *)
      let nv := NVIC_EnableInterrupt CAN0_ORed_0_15_MB_IRQn (nvic s) in
      let nv := NVIC_EnableInterrupt CAN0_ORed_16_31_MB_IRQn nv in
      let nv := NVIC_SetPriority CAN0_ORed_0_15_MB_IRQn 5 nv in
      let nv := NVIC_SetPriority CAN0_ORed_16_31_MB_IRQn 5 nv in
      leave CAN_SRV_SUCCESS d nv true
  end.

Definition CAN_SRV_RegisterCallback (cb : can_srv_callback_t) (s : service)
    : can_srv_status_t * service :=
  if negb (s_can_initialized s) then (CAN_SRV_NOT_INITIALIZED, s)
  else
    (CAN_SRV_SUCCESS,
     Service (drv s) (nvic s) (s_can_initialized s) (s_can_instance_num s)
             (s_can_instance s) cb (user_calls s)).

Definition CAN_SRV_Send (msg : option can_srv_message_t) (s : service)
    : can_srv_status_t * service :=
  if negb (s_can_initialized s) then (CAN_SRV_NOT_INITIALIZED, s)
  else
    match msg with
    | None => (CAN_SRV_ERROR, s)
    | Some m =>
        if 8 <? dlc m then (CAN_SRV_ERROR, s)
        else
          (* Convert service message to driver message, send via driver *)
          let '(status, d) :=
            CAN_Send hw (s_can_instance_num s) CAN_TX_MB
              (Some (drvMsg_of m)) (drv s) in
          let s := with_drv d s in
          if negb (bool_decide (status = STATUS_SUCCESS))
          then (CAN_SRV_ERROR, s)
          else (CAN_SRV_SUCCESS, s)
    end.

Definition CAN_SRV_Deinit (s : service) : can_srv_status_t * service :=
  if negb (s_can_initialized s) then (CAN_SRV_NOT_INITIALIZED, s)
  else
    (* Disable NVIC interrupts *)
    let nv := NVIC_DisableInterrupt CAN0_ORed_0_15_MB_IRQn (nvic s) in
    let nv := NVIC_DisableInterrupt CAN0_ORed_16_31_MB_IRQn nv in
    (* Unregister callback *)
    let d := snd (CAN_UnregisterCallback (s_can_instance s) (drv s)) in
    (* Deinitialize driver *)
    let d := snd (CAN_Deinit hw (s_can_instance_num s) d) in
    (CAN_SRV_SUCCESS,
     Service d nv false (s_can_instance_num s) (s_can_instance s) NULL
             (user_calls s)).

(** The indirect call [s_canCallbacks[instIdx](instance, event,
    &eventData)] of [CAN_IRQHandler], resolved: the driver logs the call;
    when the pointer called is the bridge, the bridge runs. *)
Definition run_callback (a : access) (s : service) : service :=
  match a with
  | Call cb base event eventData =>
      if cb =? driver_cb
      then CAN_SRV_DriverCallback base event eventData s else s
  | _ => s
  end.

(** can_irq.c: the interrupt service routines of controller 0 call
    [CAN_IRQHandler(CAN0)]; the accesses the call adds to the log are
    replayed, oldest first, for the callbacks among them. *)
Definition CAN0_ORed_16_31_MB_IRQHandler (s : service) : service :=
  let d := snd (CAN_IRQHandler hw CAN0 (drv s)) in
  let added := take (length (bus d) - length (bus (drv s))) (bus d) in
  fold_right run_callback (with_drv d s) added.

End Service.

Definition nvic0 : NVIC_Type :=
  Nvic (replicate 8 0) (replicate 8 0) (replicate 8 0) (replicate 8 0)
       (replicate 8 0) (replicate 240 0).

(** The service layer before any call: the static initialisers of
    can_srv.c over the driver's power-on state. *)
Definition srv_power_on : service :=
  Service power_on nvic0 false CAN_DEFAULT_INSTANCE NULL NULL [].

(** What the service layer maintains: the instance number is 0 and the
    driver's tables have their three entries; while the service is marked
    initialised, driver instance 0 is initialised and the bridge is its
    callback. *)
Definition srv_inv (driver_cb : can_callback_t) (s : service) : Prop :=
  s_can_instance_num s = 0 /\
  tables_wf (drv s) /\
  (s_can_initialized s = true ->
   s_can_instance s = CAN0 /\
   initialized (drv s) 0 = true /\
   callback (drv s) 0 = driver_cb).

(** The service message the user sees for [m] after a trip through the
    controller: the first [dlc] bytes, then zeros. *)
Definition srv_truncate (m : can_srv_message_t) : can_srv_message_t :=
  SrvMessage (srv_id m)
             (take (Z.to_nat (dlc m)) (srv_data m)
              ++ replicate (8 - Z.to_nat (dlc m)) 0)
             (dlc m) (isExtended m) (isRemote m).

(** The message the handler builds from the four words of a receive-full
    mailbox: the identifier by the IDE flag, the frame type by the RTR
    flag, the data length clamped to 8, and that many bytes unpacked over
    the zeroed array. *)
Definition handler_message (cs idw d0 d1 : Z) : can_message_t :=
  let dlc := u8 (Z.shiftr (Z.land cs CAN_WMBn_CS_DLC_MASK)
                          CAN_WMBn_CS_DLC_SHIFT) in
  let len := if 8 <? dlc then 8 else dlc in
  let ext := negb (Z.land cs CAN_WMBn_CS_IDE_MASK =? 0) in
  Message (if ext
           then Z.shiftr (Z.land idw CAN_ID_EXT_MASK) CAN_ID_EXT_SHIFT
           else Z.shiftr (Z.land idw CAN_ID_STD_MASK) CAN_ID_STD_SHIFT)
          (if ext then CAN_ID_EXT else CAN_ID_STD)
          (if negb (Z.land cs CAN_WMBn_CS_RTR_MASK =? 0)
           then CAN_FRAME_REMOTE else CAN_FRAME_DATA)
          len
          (unpack_loop 4 4 8 len d1 56
             (unpack_loop 4 0 4 len d0 24 (data rxMessage0))).

(** ** Histories of calls

    A call of the driver's interface, with its arguments. *)
Inductive can_call : Type :=
| DoInit (config : option can_config_t)
| DoDeinit (instance : Z)
| DoSend (instance mbIndex : Z) (message : option can_message_t)
| DoSendBlocking (instance mbIndex : Z) (message : option can_message_t)
                 (timeoutMs : Z)
| DoReceive (instance mbIndex : Z) (message : option can_message_t)
| DoReceiveBlocking (instance mbIndex : Z) (message : option can_message_t)
                    (timeoutMs : Z)
| DoConfigRxFilter (instance mbIndex : Z) (filter : option can_rx_filter_t)
| DoConfigTxMailbox (instance mbIndex : Z)
| DoAbortTransmission (instance mbIndex : Z)
| DoIsMbBusy (instance mbIndex : Z) (isBusy : option bool)
| DoGetErrorState (instance : Z) (errorState : option can_error_state_t)
| DoGetErrorCounters (instance : Z) (txErrorCount rxErrorCount : option Z)
| DoRegisterCallback (base : Z) (cb : can_callback_t)
| DoUnregisterCallback (base : Z)
| DoIRQHandler (base : Z).

(** The status a computation returns, when it returns one. *)
Definition returning {A} (f : A -> status_t) (c : M A) : M (option status_t) :=
  let* a := c in ret (Some (f a)).

(** The call made, with the status it returns ([None] for the handler,
    which returns nothing); [hw] is the reaction of the controllers while
    the call runs. *)
Definition do_call (hw : CAN_Type -> CAN_Type) (c : can_call)
    : M (option status_t) :=
  match c with
  | DoInit config => returning (fun s => s) (CAN_Init hw config)
  | DoDeinit i => returning (fun s => s) (CAN_Deinit hw i)
  | DoSend i mb msg => returning (fun s => s) (CAN_Send hw i mb msg)
  | DoSendBlocking i mb msg t =>
      returning (fun s => s) (CAN_SendBlocking hw i mb msg t)
  | DoReceive i mb msg => returning fst (CAN_Receive hw i mb msg)
  | DoReceiveBlocking i mb msg t =>
      returning fst (CAN_ReceiveBlocking hw i mb msg t)
  | DoConfigRxFilter i mb flt =>
      returning (fun s => s) (CAN_ConfigRxFilter hw i mb flt)
  | DoConfigTxMailbox i mb =>
      returning (fun s => s) (CAN_ConfigTxMailbox hw i mb)
  | DoAbortTransmission i mb =>
      returning (fun s => s) (CAN_AbortTransmission hw i mb)
  | DoIsMbBusy i mb b => returning fst (CAN_IsMbBusy hw i mb b)
  | DoGetErrorState i e => returning fst (CAN_GetErrorState hw i e)
  | DoGetErrorCounters i tx rx =>
      returning (fun r => fst (fst r)) (CAN_GetErrorCounters hw i tx rx)
  | DoRegisterCallback base cb =>
      returning (fun s => s) (CAN_RegisterCallback base cb)
  | DoUnregisterCallback base =>
      returning (fun s => s) (CAN_UnregisterCallback base)
  | DoIRQHandler base => CAN_IRQHandler hw base;; ret None
  end.

(** The calls made so far, the first one first, each with the reaction of
    the controllers while it ran. *)
Definition history : Type := list ((CAN_Type -> CAN_Type) * can_call).

Fixpoint run_history (h : history) (st : driver) : driver :=
  match h with
  | [] => st
  | (hw, c) :: h' => run_history h' (snd (do_call hw c st))
  end.

(** The instance number of [CAN_Init] and of [CAN_Deinit] is a value of
    the C type [uint8_t]. *)
Definition typed (c : can_call) : Prop :=
  match c with
  | DoInit (Some cfg) => 0 <= instance cfg < 256
  | DoDeinit i => 0 <= i < 256
  | _ => True
  end.

(** Whether a [CAN_Init] has completed successfully on instance [inst],
    after a call [c] that returned [r], when [b] says so before the call:
    a [CAN_Init] of [inst] that returns success completes one, a
    [CAN_Deinit] of [inst] that returns success starts afresh, and no other
    call, a failed [CAN_Init] in particular, counts. *)
Definition completes (inst : Z) (c : can_call) (r : option status_t)
    (b : bool) : bool :=
  match c, r with
  | DoInit (Some cfg), Some STATUS_SUCCESS =>
      if instance cfg =? inst then true else b
  | DoDeinit i, Some STATUS_SUCCESS => if i =? inst then false else b
  | _, _ => b
  end.

(** Whether a [CAN_Init] has completed successfully on [inst] since the
    start of the history [h], run from the state [st], or since the last
    [CAN_Deinit] of [inst] in it; [b] says whether one had before. *)
Fixpoint init_completed (inst : Z) (h : history) (st : driver) (b : bool)
    : bool :=
  match h with
  | [] => b
  | (hw, c) :: h' =>
      let r := do_call hw c st in
      init_completed inst h' (snd r) (completes inst c (fst r) b)
  end.

(** A configuration with a bit rate of 0, which [CAN_CalculateTiming]
    rejects. *)
Definition config_no_baud : can_config_t :=
  Config 0 CAN_CLK_SRC_BUSCLOCK 0 CAN_MODE_LOOPBACK true false.

(** A failed [CAN_Init], then a successful one, [CAN_Deinit], and a
    [CAN_Init] that fails on its parameter, all on instance 0. *)
Definition history_reset : history :=
  [ (hw_idle, DoInit (Some config_500k));
    (hw_ack, DoInit (Some config_500k));
    (hw_ack, DoSend 0 8 (Some msg_123));
    (hw_ack, DoDeinit 0);
    (hw_ack, DoInit (Some config_no_baud)) ].

(** * Properties *)

(** ** Bit-level facts *)

Lemma u32_small (x : Z) : 0 <= x < 2 ^ 32 -> u32 x = x.
Proof. intros H. unfold u32. apply Z.mod_small. exact H. Qed.

Lemma shl32_one (k : Z) : 0 <= k < 32 -> shl32 1 k = 2 ^ k.
Proof.
  intros Hk. unfold shl32.
  rewrite Z.shiftl_mul_pow2, Z.mul_1_l by lia.
  apply u32_small. split; [apply Z.pow_nonneg; lia|].
  apply Z.pow_lt_mono_r; lia.
Qed.

Lemma testbit_small (p x n : Z) :
  0 <= x < 2 ^ p -> 0 <= p -> p <= n -> Z.testbit x n = false.
Proof.
  intros Hx Hp Hn.
  rewrite <- (Z.mod_small x (2 ^ p)) by exact Hx.
  apply Z.mod_pow2_bits_high. lia.
Qed.

(** [(f & (1 << k)) == 0] tests bit [k] of [f]. *)
Lemma land_pow2_eqb (f k : Z) :
  0 <= k -> (Z.land f (2 ^ k) =? 0) = negb (Z.testbit f k).
Proof.
  intros Hk. destruct (Z.testbit f k) eqn:Hb; simpl.
  - apply Z.eqb_neq. intros H0.
    assert (Hbit : Z.testbit (Z.land f (2 ^ k)) k = true).
    { rewrite Z.land_spec, Hb, Z.pow2_bits_true by lia. reflexivity. }
    rewrite H0, Z.bits_0 in Hbit. discriminate.
  - apply Z.eqb_eq. apply Z.bits_inj'. intros n Hn.
    rewrite Z.land_spec, Z.bits_0, Z.pow2_bits_eqb by lia.
    destruct (Z.eqb_spec k n) as [->|]; [rewrite Hb|]; auto using andb_false_r.
Qed.

Lemma flag_test (f k : Z) :
  0 <= k < 32 ->
  negb (Z.land f (shl32 1 k) =? 0) = Z.testbit f k.
Proof.
  intros Hk. rewrite shl32_one, land_pow2_eqb by lia. apply negb_involutive.
Qed.

(** A store of [1 << k] to a write-one-to-clear register clears bit [k]
    and keeps every other bit. *)
Lemma w1c_bit (f k j : Z) :
  0 <= k < 32 -> 0 <= j < 32 ->
  Z.testbit (Z.land f (not32 (shl32 1 k))) j = Z.testbit f j && negb (j =? k).
Proof.
  intros Hk Hj. unfold not32.
  rewrite shl32_one by lia.
  rewrite u32_small by (split; [apply Z.pow_nonneg|apply Z.pow_lt_mono_r]; lia).
  rewrite Z.land_spec, Z.lxor_spec, Z.pow2_bits_eqb by lia.
  change 0xFFFFFFFF with (Z.ones 32).
  rewrite Z.ones_spec_low by lia.
  rewrite (Z.eqb_sym j k). destruct (k =? j); reflexivity.
Qed.

Lemma land_pow2_value (f k : Z) :
  0 <= k -> Z.land f (2 ^ k) = if Z.testbit f k then 2 ^ k else 0.
Proof.
  intros Hk. apply Z.bits_inj'. intros n Hn.
  rewrite Z.land_spec, Z.pow2_bits_eqb by lia.
  destruct (Z.eqb_spec k n) as [->|Hne].
  - destruct (Z.testbit f n) eqn:Hb.
    + rewrite Z.pow2_bits_true by lia. reflexivity.
    + rewrite Z.bits_0. reflexivity.
  - rewrite andb_false_r. destruct (Z.testbit f k).
    + rewrite Z.pow2_bits_false by lia. reflexivity.
    + rewrite Z.bits_0. reflexivity.
Qed.

Lemma IFLAG1_write_reg (r : reg) (v : Z) (b : CAN_Type) :
  IFLAG1 (write_reg r v b)
  = match r with
    | rIFLAG1 => Z.land (IFLAG1 b) (not32 v)
    | _ => IFLAG1 b
    end.
Proof. destruct b, r; reflexivity. Qed.

(** ** Running the monad *)

Lemma pair_snd {A B} (a a' : A) (b b' : B) : (a, b) = (a', b') -> b = b'.
Proof. intros H. injection H as _ H. exact H. Qed.

Lemma trace_cons (a : access) (l : list access) :
  rev (a :: l) = rev l ++ [a].
Proof. reflexivity. Qed.

Lemma instance_in_range (instance : Z) :
  0 <= instance < 3 -> (CAN_INSTANCE_COUNT <=? instance) = false.
Proof. intros H. apply Z.leb_gt. unfold CAN_INSTANCE_COUNT. lia. Qed.

Lemma tx_mb_in_range (mbIndex : Z) :
  8 <= mbIndex < 16 ->
  (mbIndex <? CAN_TX_MB_START)
  || (CAN_TX_MB_START + CAN_TX_MB_COUNT <=? mbIndex) = false.
Proof.
  intros H. unfold CAN_TX_MB_START, CAN_TX_MB_COUNT.
  apply orb_false_intro; [apply Z.ltb_ge|apply Z.leb_gt]; lia.
Qed.

Lemma rx_mb_in_range (mbIndex : Z) :
  16 <= mbIndex < 32 ->
  (mbIndex <? CAN_RX_MB_START) || (CAN_MB_COUNT <=? mbIndex) = false.
Proof.
  intros H. unfold CAN_RX_MB_START, CAN_MB_COUNT.
  apply orb_false_intro; [apply Z.ltb_ge|apply Z.leb_gt]; lia.
Qed.

(** Unfold the plumbing of the state monad, leaving the tests of the C
    code in place. *)
Ltac run_monad :=
  cbv beta iota zeta delta
    [bind get ret rd wr call set_bits clear_bits set_initialized set_callback
     banks s_canInitialized s_canCallbacks bus fst snd].

Tactic Notation "run_monad" "in" hyp(H) :=
  cbv beta iota zeta delta
    [bind get ret rd wr call set_bits clear_bits set_initialized set_callback
     banks s_canInitialized s_canCallbacks bus fst snd] in H.

(** Decide the test [event != CAN_EVENT_NONE] of the handler. *)
Tactic Notation "simpl_event" "in" hyp(H) :=
  try change (bool_decide (CAN_EVENT_TX_COMPLETE = CAN_EVENT_NONE))
    with false in H;
  try change (bool_decide (CAN_EVENT_RX_COMPLETE = CAN_EVENT_NONE))
    with false in H;
  try change (bool_decide (CAN_EVENT_NONE = CAN_EVENT_NONE))
    with true in H;
  cbn [negb] in H.

(** Name the four components of a driver state. *)
Ltac open_state st :=
  destruct st as [bk fl cbs lg];
  unfold trace, initialized, callback, bank in *;
  cbn [banks s_canInitialized s_canCallbacks bus] in *.

Lemma small_cases (P : Z -> Prop) (n : Z) :
  0 <= n <= 8 ->
  P 0 -> P 1 -> P 2 -> P 3 -> P 4 -> P 5 -> P 6 -> P 7 -> P 8 -> P n.
Proof.
  intros H ? ? ? ? ? ? ? ? ?.
  assert (Hn : n = 0 \/ n = 1 \/ n = 2 \/ n = 3 \/ n = 4 \/ n = 5 \/ n = 6
               \/ n = 7 \/ n = 8) by lia.
  repeat (destruct Hn as [->|Hn]; [assumption|]). subst. assumption.
Qed.

Lemma send_cs_code (m : can_message_t) :
  0 <= dataLength m <= 8 -> cs_code (send_cs m) = CAN_CS_CODE_TX_DATA.
Proof.
  destruct m as [i ty fr len d]; simpl. intros H.
  pattern len. apply small_cases; [exact H|..];
    destruct ty, fr; reflexivity.
Qed.

(** ** C1: order of the register writes of [CAN_Send] *)

(** C1.  On an initialised instance, for a mailbox of the TX range and a
    message of at most 8 bytes, [CAN_Send] succeeds and performs exactly
    five bus accesses, all stores, in this order: the mailbox's bit to the
    write-one-to-clear flag register, data word 0, data word 1, the
    identifier word, and last the control-status word, whose activation
    code is the transmit code.  No store to the control-status word comes
    before the data and identifier stores. *)
Theorem send_write_order (hw : CAN_Type -> CAN_Type) (st : driver)
    (instance mbIndex : Z) (msg : can_message_t) :
  0 <= instance < 3 ->
  initialized st instance = true ->
  8 <= mbIndex < 16 ->
  0 <= dataLength msg <= 8 ->
  let r := CAN_Send hw instance mbIndex (Some msg) st in
  fst r = STATUS_SUCCESS /\
  trace (snd r) =
    trace st ++
      [ Wr instance rIFLAG1 (2 ^ mbIndex);
        Wr instance (rRAMn (mbIndex * 4 + 2)) (send_data0 msg);
        Wr instance (rRAMn (mbIndex * 4 + 3)) (send_data1 msg);
        Wr instance (rRAMn (mbIndex * 4 + 1)) (send_id msg);
        Wr instance (rRAMn (mbIndex * 4 + 0)) (send_cs msg) ] /\
  cs_code (send_cs msg) = CAN_CS_CODE_TX_DATA.
Proof.
  intros Hi Hinit Hmb Hlen r. subst r. open_state st.
  destruct (CAN_Send _ _ _ _ _) as [status st'] eqn:E.
  unfold CAN_Send in E. rewrite instance_in_range in E by exact Hi.
  unfold bind at 1 in E. unfold get, initialized in E.
  cbn [s_canInitialized] in E.
  rewrite Hinit, tx_mb_in_range in E by exact Hmb.
  replace (CAN_MAX_DATA_LENGTH <? dataLength msg) with false in E
    by (symmetry; apply Z.ltb_ge; unfold CAN_MAX_DATA_LENGTH; lia).
  rewrite shl32_one in E by lia.
  unfold MSG_BUF_SIZE in E. cbn [negb] in E. run_monad in E.
  injection E as <- <-. cbn [fst snd bus].
  split; [reflexivity|]. split.
  - rewrite !trace_cons, <- !app_assoc. reflexivity.
  - apply send_cs_code. exact Hlen.
Qed.

Lemma send_write_order_witness :
  let msg := Message 0x123 CAN_ID_STD CAN_FRAME_DATA 8 [1; 2; 3; 4; 5; 6; 7; 8] in
  let st := Driver (fun _ => regs0) [true; false; false] [NULL; NULL; NULL] [] in
  let r := CAN_Send hw_idle 0 8 (Some msg) st in
  fst r = STATUS_SUCCESS /\
  trace (snd r) =
    trace st ++
      [ Wr 0 rIFLAG1 (2 ^ 8);
        Wr 0 (rRAMn (8 * 4 + 2)) (send_data0 msg);
        Wr 0 (rRAMn (8 * 4 + 3)) (send_data1 msg);
        Wr 0 (rRAMn (8 * 4 + 1)) (send_id msg);
        Wr 0 (rRAMn (8 * 4 + 0)) (send_cs msg) ] /\
  cs_code (send_cs msg) = CAN_CS_CODE_TX_DATA.
Proof.
  intros msg st.
  apply (send_write_order hw_idle st 0 8 msg); simpl; try reflexivity; lia.
Defined.

(** ** C5: the transmit packer and the receive unpacker *)

Lemma lor_disjoint_add (a b k : Z) :
  0 <= k -> 0 <= b < 2 ^ k -> Z.lor (a * 2 ^ k) b = a * 2 ^ k + b.
Proof.
  intros Hk Hb.
  assert (H0 : Z.land (a * 2 ^ k) b = 0).
  { apply Z.bits_inj'. intros n Hn. rewrite Z.land_spec, Z.bits_0.
    destruct (Z.lt_ge_cases n k) as [Hlt|Hge].
    - rewrite Z.mul_pow2_bits_low by lia. reflexivity.
    - rewrite (testbit_small k b n) by lia. apply andb_false_r. }
  rewrite <- Z.lxor_lor by exact H0.
  symmetry. apply Z.add_nocarry_lxor. exact H0.
Qed.

Lemma shl32_byte (b n : Z) :
  0 <= b < 256 -> 0 <= n <= 24 -> shl32 b n = b * 2 ^ n.
Proof.
  intros Hb Hn. unfold shl32. rewrite Z.shiftl_mul_pow2 by lia.
  apply u32_small.
  assert (0 < 2 ^ n) by (apply Z.pow_pos_nonneg; lia).
  assert (2 ^ n <= 2 ^ 24) by (apply Z.pow_le_mono_r; lia).
  change (2 ^ 32) with (256 * 2 ^ 24). nia.
Qed.

(** A data word as the big-endian number of its four bytes. *)
Lemma data_word_value (b0 b1 b2 b3 : Z) :
  0 <= b0 < 256 -> 0 <= b1 < 256 -> 0 <= b2 < 256 -> 0 <= b3 < 256 ->
  Z.lor (Z.lor (Z.lor (shl32 b0 24) (shl32 b1 16)) (shl32 b2 8)) b3
  = b0 * 2 ^ 24 + b1 * 2 ^ 16 + b2 * 2 ^ 8 + b3.
Proof.
  intros H0 H1 H2 H3.
  rewrite !shl32_byte by lia.
  rewrite (lor_disjoint_add b0 (b1 * 2 ^ 16) 24) by lia.
  replace (b0 * 2 ^ 24 + b1 * 2 ^ 16) with ((b0 * 2 ^ 8 + b1) * 2 ^ 16) by lia.
  rewrite (lor_disjoint_add _ (b2 * 2 ^ 8) 16) by lia.
  replace ((b0 * 2 ^ 8 + b1) * 2 ^ 16 + b2 * 2 ^ 8)
    with ((b0 * 2 ^ 16 + b1 * 2 ^ 8 + b2) * 2 ^ 8) by lia.
  rewrite (lor_disjoint_add _ b3 8) by lia.
  lia.
Qed.

(** Byte [k] (0 the most significant) of a data word, as [CAN_Receive]
    extracts it. *)
Lemma data_word_bytes (b0 b1 b2 b3 : Z) :
  0 <= b0 < 256 -> 0 <= b1 < 256 -> 0 <= b2 < 256 -> 0 <= b3 < 256 ->
  let w := b0 * 2 ^ 24 + b1 * 2 ^ 16 + b2 * 2 ^ 8 + b3 in
  u8 (Z.land (Z.shiftr w 24) 0xFF) = b0 /\
  u8 (Z.land (Z.shiftr w 16) 0xFF) = b1 /\
  u8 (Z.land (Z.shiftr w 8) 0xFF) = b2 /\
  u8 (Z.land w 0xFF) = b3.
Proof.
  intros H0 H1 H2 H3 w. subst w. unfold u8.
  change 0xFF with (Z.ones 8).
  rewrite !Z.land_ones, !Z.shiftr_div_pow2 by lia.
  change (2 ^ 24) with 16777216. change (2 ^ 16) with 65536.
  change (2 ^ 8) with 256.
  repeat split; Z.div_mod_to_equations; lia.
Qed.

Lemma std_id_roundtrip (i : Z) :
  0 <= i <= 0x7FF ->
  Z.shiftr (Z.land (Z.land (shl32 i CAN_ID_STD_SHIFT) CAN_ID_STD_MASK)
                   CAN_ID_STD_MASK) CAN_ID_STD_SHIFT = i.
Proof.
  intros Hi. unfold shl32, CAN_ID_STD_SHIFT, CAN_ID_STD_MASK.
  rewrite u32_small.
  2:{ rewrite Z.shiftl_mul_pow2 by lia.
      change (2 ^ 18) with 262144. change (2 ^ 32) with 4294967296. lia. }
  change 0x1FFC0000 with (Z.shiftl (Z.ones 11) 18).
  assert (Hm : Z.land i (Z.ones 11) = i).
  { rewrite Z.land_ones by lia. apply Z.mod_small.
    change (2 ^ 11) with 2048. lia. }
  rewrite <- Z.shiftl_land, Hm, <- Z.shiftl_land, Hm.
  rewrite Z.shiftr_shiftl_l by lia. apply Z.shiftl_0_r.
Qed.

Lemma ext_id_roundtrip (i : Z) :
  0 <= i <= 0x1FFFFFFF ->
  Z.shiftr (Z.land (Z.land (shl32 i CAN_ID_EXT_SHIFT) CAN_ID_EXT_MASK)
                   CAN_ID_EXT_MASK) CAN_ID_EXT_SHIFT = i.
Proof.
  intros Hi. unfold shl32, CAN_ID_EXT_SHIFT, CAN_ID_EXT_MASK.
  rewrite Z.shiftl_0_r, Z.shiftr_0_r.
  rewrite u32_small by (change (2 ^ 32) with 4294967296; lia).
  change 0x1FFFFFFF with (Z.ones 29).
  assert (Hm : Z.land i (Z.ones 29) = i).
  { rewrite Z.land_ones by lia. apply Z.mod_small.
    change (2 ^ 29) with 536870912. lia. }
  rewrite Hm. exact Hm.
Qed.

(** The flags and the length [CAN_Receive] decodes from the control-status
    word [CAN_Send] builds. *)
Lemma send_cs_fields (m : can_message_t) :
  0 <= dataLength m <= 8 ->
  negb (Z.land (send_cs m) CAN_WMBn_CS_IDE_MASK =? 0)
    = bool_decide (idType m = CAN_ID_EXT) /\
  negb (Z.land (send_cs m) CAN_WMBn_CS_RTR_MASK =? 0)
    = bool_decide (frameType m = CAN_FRAME_REMOTE) /\
  u8 (Z.shiftr (Z.land (send_cs m) CAN_WMBn_CS_DLC_MASK)
               CAN_WMBn_CS_DLC_SHIFT) = dataLength m.
Proof.
  destruct m as [i ty fr len d]; simpl. intros H.
  pattern len. apply small_cases; [exact H|..];
    destruct ty, fr; repeat split; reflexivity.
Qed.

(** The words [CAN_Send] encodes decode to the message. *)
Lemma send_words_decode (m : can_message_t) :
  byte_array (data m) ->
  0 <= dataLength m <= 8 ->
  (idType m = CAN_ID_STD -> 0 <= id m <= 0x7FF) ->
  (idType m = CAN_ID_EXT -> 0 <= id m <= 0x1FFFFFFF) ->
  recv_message (send_cs m) (send_id m) (send_data0 m) (send_data1 m) = m.
Proof.
  intros [Hlen Hbytes] Hdl Hstd Hext.
  destruct (send_cs_fields m Hdl) as (Hide & Hrtr & Hdlc).
  unfold recv_message. rewrite Hide, Hrtr, Hdlc.
  destruct m as [i ty fr len d]; simpl in *.
  destruct d as [|b0 [|b1 [|b2 [|b3 [|b4 [|b5 [|b6 [|b7 [|? ?]]]]]]]]];
    try discriminate Hlen.
  repeat match goal with
         | H : Forall _ (_ :: _) |- _ => apply Forall_cons in H; destruct H
         end.
  unfold send_data0, send_data1, data_at.
  cbn [lookup_total list_lookup_total data].
  rewrite !data_word_value by assumption.
  destruct (data_word_bytes b0 b1 b2 b3) as (-> & -> & -> & ->);
    try assumption.
  destruct (data_word_bytes b4 b5 b6 b7) as (-> & -> & -> & ->);
    try assumption.
  unfold send_id. cbn [idType id].
  destruct ty; cbn.
  - rewrite std_id_roundtrip by (apply Hstd; reflexivity).
    destruct fr; reflexivity.
  - rewrite ext_id_roundtrip by (apply Hext; reflexivity).
    destruct fr; reflexivity.
Qed.

(** [CAN_Receive] reads of the control-status word only the IDE and RTR
    flags and the data-length code. *)
Lemma recv_message_cs_fields (cs cs' idw data0 data1 : Z) :
  same_frame_fields cs cs' ->
  recv_message cs idw data0 data1 = recv_message cs' idw data0 data1.
Proof.
  intros (Hide & Hrtr & Hdlc). unfold recv_message.
  rewrite Hide, Hrtr, Hdlc. reflexivity.
Qed.

(** [CAN_Receive] on a pending mailbox of an initialised instance: the
    control-status word is loaded first, then the identifier and the data
    words, then the free-running timer, and the flag is cleared last (the
    source reads the timer and clears the flag twice); the message
    returned is the decoding of the four words loaded. *)
Lemma CAN_Receive_pending (hw : CAN_Type -> CAN_Type) (st : driver)
    (inst rx : Z) (out : can_message_t) :
  0 <= inst < 3 ->
  initialized st inst = true ->
  16 <= rx < 32 ->
  Z.testbit (IFLAG1 (hw (bank st inst))) rx = true ->
  exists cs idw data0 data1 t1 t2,
    fst (CAN_Receive hw inst rx (Some out) st)
    = (STATUS_SUCCESS, Some (recv_message cs idw data0 data1)) /\
    trace (snd (CAN_Receive hw inst rx (Some out) st))
    = trace st ++
        [ Rd inst rIFLAG1 (IFLAG1 (hw (bank st inst)));
          Rd inst (rRAMn (rx * 4)) cs;
          Rd inst (rRAMn (rx * 4 + 1)) idw;
          Rd inst (rRAMn (rx * 4 + 2)) data0;
          Rd inst (rRAMn (rx * 4 + 3)) data1;
          Rd inst rTIMER t1;
          Wr inst rIFLAG1 (2 ^ rx);
          Rd inst rTIMER t2;
          Wr inst rIFLAG1 (2 ^ rx) ] /\
    ((forall b, hw b = b) ->
     mailbox_holds (bank st inst) rx cs idw data0 data1).
Proof.
  intros Hi Hinit Hrx Hflag. open_state st.
  destruct (CAN_Receive _ _ _ _ _) as [res st'] eqn:E.
  unfold CAN_Receive in E. rewrite instance_in_range in E by exact Hi.
  unfold bind at 1 in E. unfold get, initialized in E.
  cbn [s_canInitialized] in E.
  rewrite Hinit, rx_mb_in_range in E by exact Hrx. cbn [negb] in E.
  unfold bind at 1 in E. unfold rd at 1 in E. cbn [banks read_reg] in E.
  assert (Htest : (Z.land (IFLAG1 (hw (bk inst))) (shl32 1 rx) =? 0) = false).
  { rewrite <- (negb_involutive (_ =? 0)), flag_test, Hflag by lia.
    reflexivity. }
  rewrite Htest, shl32_one in E by lia.
  unfold MSG_BUF_SIZE in E. rewrite Z.add_0_r in E.
  run_monad in E.
  pose proof (f_equal fst E) as Eres. apply pair_snd in E.
  cbn [fst] in Eres. subst res st'. cbn [fst snd bus].
  do 6 eexists. split; [reflexivity|]. split.
  - rewrite !trace_cons, <- !app_assoc. reflexivity.
  - intros Hidle. unfold upd_bank.
    repeat (rewrite ?Z.eqb_refl, ?Hidle). repeat split; reflexivity.
Qed.

Example roundtrip_extended_remote :
  let m := Message 0x1ABCDEF0 CAN_ID_EXT CAN_FRAME_REMOTE 3
             [0xFF; 0x00; 0x80; 0; 0; 0; 0; 0] in
  recv_message (send_cs m) (send_id m) (send_data0 m) (send_data1 m) = m.
Proof. reflexivity. Qed.

(** ** C8: [CAN_Receive] on a mailbox without pending flag *)

(** C8.  On an initialised instance and for a mailbox of the RX range whose
    pending flag reads as clear, [CAN_Receive] returns [STATUS_ERROR] (not
    the timeout status), leaves the caller's message as it was, and its
    only bus access is the load of the flag register: it stores to no
    register.  The driver's tables are unchanged, and so is every register
    block when the hardware does not change registers by itself. *)
Theorem receive_no_data (hw : CAN_Type -> CAN_Type) (st : driver)
    (instance mbIndex : Z) (msg : can_message_t) :
  0 <= instance < 3 ->
  initialized st instance = true ->
  16 <= mbIndex < 32 ->
  Z.testbit (IFLAG1 (hw (bank st instance))) mbIndex = false ->
  let r := CAN_Receive hw instance mbIndex (Some msg) st in
  fst r = (STATUS_ERROR, Some msg) /\
  STATUS_ERROR <> STATUS_TIMEOUT /\
  trace (snd r)
    = trace st ++ [Rd instance rIFLAG1 (IFLAG1 (hw (bank st instance)))] /\
  s_canInitialized (snd r) = s_canInitialized st /\
  s_canCallbacks (snd r) = s_canCallbacks st /\
  ((forall b, hw b = b) -> forall i, bank (snd r) i = bank st i).
Proof.
  intros Hi Hinit Hmb Hflag r. subst r. open_state st.
  destruct (CAN_Receive _ _ _ _ _) as [res st'] eqn:E.
  unfold CAN_Receive in E. rewrite instance_in_range in E by exact Hi.
  unfold bind at 1 in E. unfold get, initialized in E.
  cbn [s_canInitialized] in E.
  rewrite Hinit, rx_mb_in_range in E by exact Hmb. cbn [negb] in E.
  unfold bind at 1 in E. unfold rd at 1 in E. cbn [banks read_reg] in E.
  assert (Htest : (Z.land (IFLAG1 (hw (bk instance))) (shl32 1 mbIndex)
                   =? 0) = true).
  { rewrite <- (negb_involutive (_ =? 0)), flag_test, Hflag by lia.
    reflexivity. }
  rewrite Htest in E. run_monad in E. injection E as <- <-.
  cbn [fst snd banks s_canInitialized s_canCallbacks bus].
  repeat split; try reflexivity; try discriminate.
  intros Hidle i. unfold upd_bank.
  destruct (Z.eqb_spec i instance) as [->|]; [apply Hidle|reflexivity].
Qed.

Lemma receive_no_data_witness :
  let msg := Message 7 CAN_ID_EXT CAN_FRAME_REMOTE 2 [9; 9; 9; 9; 9; 9; 9; 9] in
  let st := Driver (fun _ => regs0) [true; false; false] [NULL; NULL; NULL] [] in
  let r := CAN_Receive hw_idle 0 16 (Some msg) st in
  fst r = (STATUS_ERROR, Some msg) /\
  STATUS_ERROR <> STATUS_TIMEOUT /\
  trace (snd r) = trace st ++ [Rd 0 rIFLAG1 (IFLAG1 (hw_idle (bank st 0)))] /\
  s_canInitialized (snd r) = s_canInitialized st /\
  s_canCallbacks (snd r) = s_canCallbacks st /\
  ((forall b, hw_idle b = b) -> forall i, bank (snd r) i = bank st i).
Proof.
  intros msg st.
  apply (receive_no_data hw_idle st 0 16 msg); try reflexivity; lia.
Defined.

(** ** C10: the guard of the interrupt dispatcher *)

(** C10.  When the base address is not one of the three controllers
    ([CAN_GetInstanceIndex] returns 0xFF) or no callback is registered for
    it, [CAN_IRQHandler] returns with the driver state exactly as it was:
    no bus access is logged (no mailbox RAM load, no store to the flag
    register or to any other register), every register block and both
    tables are unchanged, so the pending flags stay as they were. *)
Theorem irq_handler_guard (hw : CAN_Type -> CAN_Type) (st : driver)
    (instance : Z) :
  CAN_GetInstanceIndex instance = 0xFF \/
  callback st (CAN_GetInstanceIndex instance) = NULL ->
  CAN_IRQHandler hw instance st = (tt, st).
Proof.
  intros H. unfold CAN_IRQHandler, bind, get.
  destruct H as [H|H]; rewrite H.
  - reflexivity.
  - change (NULL =? NULL) with true. rewrite orb_true_r. reflexivity.
Qed.

Lemma irq_handler_guard_witness :
  let st := Driver (fun _ => Regs 0 0 0 0 0 0 0x208 0 (replicate 128 0)
                                  (replicate 32 0))
                   [true; true; true] [NULL; 0x8000; 0x8000] [] in
  CAN_IRQHandler hw_idle CAN0 st = (tt, st) /\
  CAN_IRQHandler hw_idle 0x40026000 st = (tt, st).
Proof.
  intros st. split.
  - apply (irq_handler_guard hw_idle st CAN0). right. reflexivity.
  - apply (irq_handler_guard hw_idle st 0x40026000). left. reflexivity.
Defined.

(** ** The interrupt dispatcher: scanning and serving *)

Lemma scan_prefix (f : Z) (n : nat) :
  (forall j, 0 <= j < Z.of_nat n -> Z.testbit f j = false) \/
  exists k, 0 <= k < Z.of_nat n /\ Z.testbit f k = true /\
            forall j, 0 <= j < k -> Z.testbit f j = false.
Proof.
  induction n as [|n IH].
  - left. intros j Hj. lia.
  - destruct IH as [Hclear|(k & Hk & Hset & Hlow)].
    + destruct (Z.testbit f (Z.of_nat n)) eqn:Hb.
      * right. exists (Z.of_nat n). split; [lia|]. split; [exact Hb|].
        intros j Hj. apply Hclear. lia.
      * left. intros j Hj.
        destruct (Z.eq_dec j (Z.of_nat n)) as [->|Hne]; [exact Hb|].
        apply Hclear. lia.
    + right. exists k. split; [lia|]. split; assumption.
Qed.

(** A non-zero 32-bit flag word has a lowest pending mailbox. *)
Lemma exists_lowest_pending (f : Z) :
  0 <= f < 2 ^ 32 -> f <> 0 -> exists k, lowest_pending f k.
Proof.
  intros Hf Hnz. destruct (scan_prefix f 32) as [Hclear|(k & Hk & Hset & Hlow)].
  - exfalso. apply Hnz. apply Z.bits_inj_0. intros n.
    destruct (Z.neg_nonneg_cases n) as [Hneg|Hpos];
      [apply Z.testbit_neg_r; exact Hneg|].
    destruct (Z.lt_ge_cases n 32) as [Hlt|Hge].
    + apply Hclear. lia.
    + apply (testbit_small 32); lia.
  - exists k. split; [lia|]. split; assumption.
Qed.

Lemma lowest_pending_unique (f k k' : Z) :
  lowest_pending f k -> lowest_pending f k' -> k = k'.
Proof.
  intros (Hk & Hs & Hl) (Hk' & Hs' & Hl').
  destruct (Z.lt_trichotomy k k') as [H|[H|H]]; [|exact H|].
  - rewrite Hl' in Hs by lia. discriminate.
  - rewrite Hl in Hs' by lia. discriminate.
Qed.

Lemma lowest_pending_nonzero (f k : Z) : lowest_pending f k -> f <> 0.
Proof.
  intros (_ & Hs & _) ->. rewrite Z.bits_0 in Hs. discriminate.
Qed.

Lemma field_small (cs w s : Z) :
  0 <= w -> 0 <= s ->
  0 <= Z.shiftr (Z.land cs (Z.shiftl (Z.ones w) s)) s < 2 ^ w.
Proof.
  intros Hw Hs.
  rewrite Z.shiftr_land, Z.shiftr_shiftl_l, Z.sub_diag, Z.shiftl_0_r by lia.
  rewrite Z.land_ones by lia. apply Z.mod_pos_bound.
  apply Z.pow_pos_nonneg; lia.
Qed.

Lemma cs_code_small (cs : Z) : 0 <= cs_code cs < 16.
Proof. apply (field_small cs 4 24); lia. Qed.

Lemma cs_dlc_small (cs : Z) : 0 <= cs_dlc cs < 16.
Proof. apply (field_small cs 4 16); lia. Qed.

Lemma u8_small (x : Z) : 0 <= x < 16 -> u8 x = x.
Proof. intros H. apply Z.mod_small. change (2 ^ 8) with 256. lia. Qed.

Lemma mb_offset (k : Z) : 0 <= k < 32 -> CAN_GetMbOffset k = k * 4.
Proof.
  intros H. apply u32_small. change (2 ^ 32) with 4294967296. lia.
Qed.

Section Dispatch.

Variable hw : CAN_Type -> CAN_Type.

(** The scanning loop stops at the lowest pending mailbox and serves it. *)
Lemma irq_scan_lowest (instance instIdx f k : Z) (n : nat) :
  forall i,
    0 <= i <= k -> k < i + Z.of_nat n -> k < 32 ->
    Z.testbit f k = true ->
    (forall j, i <= j < k -> Z.testbit f j = false) ->
    irq_scan hw n i instance instIdx f = irq_service hw instance instIdx k.
Proof.
  induction n as [|n IH]; intros i Hi Hn Hk Hset Hlow; [lia|].
  cbn [irq_scan]. rewrite flag_test by lia.
  destruct (Z.eq_dec i k) as [->|Hne].
  - rewrite Hset. reflexivity.
  - rewrite Hlow by lia. apply IH; try lia; try assumption.
    intros j Hj. apply Hlow. lia.
Qed.

(** Past its guard, with [k] the lowest pending mailbox of the flag word
    it loads, the handler is: load the flags, serve mailbox [k]. *)
Lemma irq_handler_dispatch (st : driver) (instance idx k : Z) :
  CAN_GetInstanceIndex instance = idx ->
  idx <> 0xFF ->
  callback st idx <> NULL ->
  lowest_pending (IFLAG1 (hw (bank st idx))) k ->
  CAN_IRQHandler hw instance st
  = irq_service hw instance idx k (snd (rd hw idx rIFLAG1 st)).
Proof.
  intros Hidx Hknown Hcb Hlow. unfold bank in Hlow.
  pose proof (lowest_pending_nonzero _ _ Hlow) as Hnz.
  destruct Hlow as (Hk & Hset & Hlow).
  unfold CAN_IRQHandler. rewrite Hidx.
  unfold bind at 1. unfold get.
  apply Z.eqb_neq in Hknown, Hcb. rewrite Hknown, Hcb. cbn [orb].
  unfold bind at 1.
  destruct (rd hw idx rIFLAG1 st) as [f st1] eqn:Hrd.
  unfold rd in Hrd. injection Hrd as Hf Hst1. cbn [read_reg] in Hf.
  rewrite <- Hf. apply Z.eqb_neq in Hnz. rewrite Hnz. cbn [negb snd].
  apply (f_equal (fun c => c st1)).
  apply irq_scan_lowest; try lia; assumption.
Qed.

(** What serving mailbox [k] does on the bus, by the activation code of
    the control-status word it loads: transmit-inactive, receive-full, or
    anything else. *)
Lemma irq_service_cases (st : driver) (instance idx k : Z) :
  0 <= k < 32 ->
  let cs := read_reg (rRAMn (k * 4)) (hw (bank st idx)) in
  let st' := snd (irq_service hw instance idx k st) in
  (cs_code cs = CAN_CS_CODE_TX_INACTIVE /\
   trace st' =
     trace st ++
       [ Rd idx (rRAMn (k * 4)) cs;
         Wr idx rIFLAG1 (2 ^ k);
         Call (callback st idx) instance CAN_EVENT_TX_COMPLETE
              (EventData k None 0) ]) \/
  (cs_code cs = CAN_CS_CODE_RX_FULL /\
   exists idw d0 d1 msg,
     trace st' =
       trace st ++
         [ Rd idx (rRAMn (k * 4)) cs;
           Rd idx (rRAMn (k * 4 + 1)) idw;
           Rd idx (rRAMn (k * 4 + 2)) d0;
           Rd idx (rRAMn (k * 4 + 3)) d1;
           Wr idx rIFLAG1 (2 ^ k);
           Wr idx (rRAMn (k * 4)) (rearm_cs cs);
           Call (callback st idx) instance CAN_EVENT_RX_COMPLETE
                (EventData k (Some msg) 0) ] /\
     dataLength msg = Z.min (cs_dlc cs) 8) \/
  (cs_code cs <> CAN_CS_CODE_TX_INACTIVE /\
   cs_code cs <> CAN_CS_CODE_RX_FULL /\
   trace st' = trace st ++ [ Rd idx (rRAMn (k * 4)) cs ]).
Proof.
  intros Hk cs st'. subst st' cs. open_state st.
  destruct (irq_service _ _ _ _ _) as [u st'] eqn:E. cbn [snd].
  unfold irq_service, CAN_ReadMbCs, CAN_ReadMbId, CAN_CopyDataFromMb,
    CAN_ReadMbData, CAN_WriteMbCs in E.
  rewrite mb_offset, shl32_one in E by exact Hk.
  rewrite !Z.add_0_r in E.
  replace (k * 4 + 2 + 1) with (k * 4 + 3) in E by lia.
  unfold bind at 1 in E. unfold rd at 1 in E. cbn [banks] in E.
  set (cs := read_reg (rRAMn (k * 4)) (hw (bk idx))) in *.
  change (Z.shiftr (Z.land cs CAN_CS_CODE_MASK) CAN_CS_CODE_SHIFT)
    with (cs_code cs) in E.
  change (Z.shiftr (Z.land cs CAN_WMBn_CS_DLC_MASK) CAN_WMBn_CS_DLC_SHIFT)
    with (cs_dlc cs) in E.
  rewrite (u8_small (cs_code cs)) in E by apply cs_code_small.
  rewrite (u8_small (cs_dlc cs)) in E by apply cs_dlc_small.
  destruct (Z.eqb_spec (cs_code cs) CAN_CS_CODE_TX_INACTIVE) as [Htx|Htx].
  - left. split; [exact Htx|].
    run_monad in E. simpl_event in E. run_monad in E.
    apply pair_snd in E; subst st'. cbn [bus callback s_canCallbacks].
    rewrite !trace_cons, <- !app_assoc. reflexivity.
  - destruct (Z.eqb_spec (cs_code cs) CAN_CS_CODE_RX_FULL) as [Hrx|Hrx].
    + right. left. split; [exact Hrx|].
      destruct (negb (Z.land cs CAN_WMBn_CS_IDE_MASK =? 0));
        run_monad in E; simpl_event in E;
        run_monad in E; apply pair_snd in E; subst st';
        cbn [bus callback s_canCallbacks];
        do 4 eexists; (split;
          [rewrite !trace_cons, <- !app_assoc; reflexivity|]);
        cbn [dataLength]; destruct (Z.ltb_spec 8 (cs_dlc cs)); lia.
    + right. right. split; [exact Htx|]. split; [exact Hrx|].
      run_monad in E. simpl_event in E.
      apply pair_snd in E; subst st'. reflexivity.
Qed.

(** The flag register after serving mailbox [k], when the hardware does
    not change registers by itself. *)
Lemma irq_service_flags (st : driver) (instance idx k : Z) :
  (forall b, hw b = b) ->
  0 <= k < 32 ->
  let cs := read_reg (rRAMn (k * 4)) (bank st idx) in
  IFLAG1 (bank (snd (irq_service hw instance idx k st)) idx)
  = if (cs_code cs =? CAN_CS_CODE_TX_INACTIVE)
       || (cs_code cs =? CAN_CS_CODE_RX_FULL)
    then Z.land (IFLAG1 (bank st idx)) (not32 (2 ^ k))
    else IFLAG1 (bank st idx).
Proof.
  intros Hidle Hk cs. subst cs. open_state st.
  destruct (irq_service _ _ _ _ _) as [u st'] eqn:E. cbn [snd].
  unfold irq_service, CAN_ReadMbCs, CAN_ReadMbId, CAN_CopyDataFromMb,
    CAN_ReadMbData, CAN_WriteMbCs in E.
  rewrite mb_offset, shl32_one in E by exact Hk.
  rewrite !Z.add_0_r in E.
  unfold bind at 1 in E. unfold rd at 1 in E. cbn [banks] in E.
  rewrite Hidle in E.
  set (cs := read_reg (rRAMn (k * 4)) (bk idx)) in *.
  change (Z.shiftr (Z.land cs CAN_CS_CODE_MASK) CAN_CS_CODE_SHIFT)
    with (cs_code cs) in E.
  rewrite (u8_small (cs_code cs)) in E by apply cs_code_small.
  destruct (cs_code cs =? CAN_CS_CODE_TX_INACTIVE);
    [|destruct (cs_code cs =? CAN_CS_CODE_RX_FULL)]; cbn [orb].
  - run_monad in E. simpl_event in E. run_monad in E.
    apply pair_snd in E; subst st'. cbn [banks]. unfold upd_bank.
    rewrite !Z.eqb_refl, !Hidle, IFLAG1_write_reg. reflexivity.
  - destruct (negb (Z.land cs CAN_WMBn_CS_IDE_MASK =? 0));
      run_monad in E; simpl_event in E;
      run_monad in E; apply pair_snd in E; subst st'; cbn [banks]; unfold upd_bank;
      rewrite !Z.eqb_refl, !Hidle, !IFLAG1_write_reg; reflexivity.
  - run_monad in E. simpl_event in E.
    apply pair_snd in E; subst st'. cbn [banks]. unfold upd_bank.
    rewrite !Z.eqb_refl. reflexivity.
Qed.

End Dispatch.

Lemma rearm_cs_fields (cs : Z) :
  cs_code (rearm_cs cs) = CAN_CS_CODE_RX_EMPTY /\
  Z.land (rearm_cs cs) CAN_WMBn_CS_IDE_MASK = Z.land cs CAN_WMBn_CS_IDE_MASK /\
  Z.land (rearm_cs cs) CAN_WMBn_CS_RTR_MASK = Z.land cs CAN_WMBn_CS_RTR_MASK /\
  Z.land (rearm_cs cs)
         (not32 (Z.lor CAN_CS_CODE_MASK
                       (Z.lor CAN_WMBn_CS_IDE_MASK CAN_WMBn_CS_RTR_MASK))) = 0.
Proof.
  unfold rearm_cs, cs_code, CAN_WMBn_CS_IDE_MASK, CAN_WMBn_CS_RTR_MASK.
  change 0x00200000 with (2 ^ 21). change 0x00100000 with (2 ^ 20).
  rewrite Z.land_lor_distr_r, !land_pow2_value by lia.
  destruct (Z.testbit cs 21), (Z.testbit cs 20); repeat split; reflexivity.
Qed.

Lemma rd_flags_state (hw : CAN_Type -> CAN_Type) (st : driver) (idx : Z) :
  let st1 := snd (rd hw idx rIFLAG1 st) in
  trace st1 = trace st ++ [Rd idx rIFLAG1 (IFLAG1 (hw (bank st idx)))] /\
  bank st1 idx = hw (bank st idx) /\
  callback st1 idx = callback st idx.
Proof.
  unfold rd, trace, bank, callback, upd_bank. cbn.
  rewrite Z.eqb_refl. repeat split.
Qed.

Lemma mailbox_word (k r : Z) : 0 <= r < 4 -> (k * 4 + r) / 4 = k.
Proof. intros H. Z.div_mod_to_equations. lia. Qed.

Lemma mailbox_word0 (k : Z) : k * 4 / 4 = k.
Proof. apply Z.div_mul. lia. Qed.

(** ** C2: only the lowest pending mailbox is served *)

(** C2.  Let the handler be called for a known controller with a
    registered callback, and let the flag word it loads be a non-zero
    32-bit value.  Then there is a lowest pending mailbox [k] (all flags
    below [k] clear), and after the load of the flag word: every access to
    the mailbox RAM is to mailbox [k]; every store to the flag register
    writes exactly [1 << k], which the write-one-to-clear register turns
    into clearing flag [k] only; at most one callback is invoked, the
    TX-complete event when the code of mailbox [k] is transmit-inactive,
    the RX-complete event when it is receive-full, none otherwise; and
    when the hardware does not touch the registers itself, each flag other
    than [k] is afterwards what it was before.  In particular, with flags 3
    and 9 pending and none below 3, mailbox 3 receive-full and mailbox 9
    transmit-inactive, [k] is 3, exactly one event is emitted, the
    RX-complete event of mailbox 3, and flag 9 is still set. *)
Theorem irq_lowest_mailbox_only (hw : CAN_Type -> CAN_Type) (st : driver)
    (instance idx : Z) :
  CAN_GetInstanceIndex instance = idx ->
  idx <> 0xFF ->
  callback st idx <> NULL ->
  let f := IFLAG1 (hw (bank st idx)) in
  let cs_of := fun m => read_reg (rRAMn (m * 4)) (hw (hw (bank st idx))) in
  let st' := snd (CAN_IRQHandler hw instance st) in
  0 <= f < 2 ^ 32 ->
  f <> 0 ->
  exists k new,
    lowest_pending f k /\
    trace st' = trace st ++ Rd idx rIFLAG1 f :: new /\
    only_mailbox k new /\
    only_flag k new /\
    (length (List.filter is_call new) <= 1)%nat /\
    (cs_code (cs_of k) = CAN_CS_CODE_TX_INACTIVE ->
     List.filter is_call new
     = [Call (callback st idx) instance CAN_EVENT_TX_COMPLETE
             (EventData k None 0)]) /\
    (cs_code (cs_of k) = CAN_CS_CODE_RX_FULL ->
     exists msg,
       List.filter is_call new
       = [Call (callback st idx) instance CAN_EVENT_RX_COMPLETE
               (EventData k (Some msg) 0)]) /\
    (cs_code (cs_of k) <> CAN_CS_CODE_TX_INACTIVE ->
     cs_code (cs_of k) <> CAN_CS_CODE_RX_FULL ->
     List.filter is_call new = []) /\
    ((forall b, hw b = b) ->
     forall j, 0 <= j < 32 -> j <> k ->
       Z.testbit (IFLAG1 (bank st' idx)) j
       = Z.testbit (IFLAG1 (bank st idx)) j) /\
    (Z.testbit f 3 = true -> Z.testbit f 9 = true ->
     (forall j, 0 <= j < 3 -> Z.testbit f j = false) ->
     cs_code (cs_of 3) = CAN_CS_CODE_RX_FULL ->
     cs_code (cs_of 9) = CAN_CS_CODE_TX_INACTIVE ->
     (forall b, hw b = b) ->
     k = 3 /\
     (exists msg,
        List.filter is_call new
        = [Call (callback st idx) instance CAN_EVENT_RX_COMPLETE
                (EventData 3 (Some msg) 0)]) /\
     Z.testbit (IFLAG1 (bank st' idx)) 9 = true).
Proof.
  intros Hidx Hknown Hcb f cs_of st' Hf Hnz.
  destruct (exists_lowest_pending f Hf Hnz) as [k Hlow].
  pose proof Hlow as (Hk & Hset & Hbelow).
  subst st'. rewrite (irq_handler_dispatch hw st instance idx k) by assumption.
  destruct (rd_flags_state hw st idx) as (Htr & Hbank & Hcall).
  set (st1 := snd (rd hw idx rIFLAG1 st)) in *.
  assert (Hflags : (forall b, hw b = b) ->
            forall j, 0 <= j < 32 -> j <> k ->
              Z.testbit (IFLAG1 (bank (snd (irq_service hw instance idx k st1))
                                      idx)) j
              = Z.testbit (IFLAG1 (bank st idx)) j).
  { intros Hidle j Hj Hjk.
    rewrite (irq_service_flags hw st1 instance idx k Hidle Hk).
    rewrite Hbank, Hidle.
    destruct (_ || _); [|reflexivity].
    rewrite <- (shl32_one k), w1c_bit by lia.
    destruct (Z.eqb_spec j k); [contradiction|]. apply andb_true_r. }
  assert (Hcs : read_reg (rRAMn (k * 4)) (hw (bank st1 idx)) = cs_of k).
  { unfold cs_of. rewrite Hbank. reflexivity. }
  assert (Hscen : forall new : list access,
            (cs_code (cs_of k) = CAN_CS_CODE_RX_FULL ->
             exists msg,
               List.filter is_call new
               = [Call (callback st idx) instance CAN_EVENT_RX_COMPLETE
                       (EventData k (Some msg) 0)]) ->
            Z.testbit f 3 = true -> Z.testbit f 9 = true ->
            (forall j, 0 <= j < 3 -> Z.testbit f j = false) ->
            cs_code (cs_of 3) = CAN_CS_CODE_RX_FULL ->
            cs_code (cs_of 9) = CAN_CS_CODE_TX_INACTIVE ->
            (forall b, hw b = b) ->
            k = 3 /\
            (exists msg,
               List.filter is_call new
               = [Call (callback st idx) instance CAN_EVENT_RX_COMPLETE
                       (EventData 3 (Some msg) 0)]) /\
            Z.testbit (IFLAG1 (bank (snd (irq_service hw instance idx k st1))
                                    idx)) 9 = true).
  { intros new Hrx H3 H9 Hlow3 Hc3 Hc9 Hidle.
    assert (Hk3 : k = 3).
    { apply (lowest_pending_unique f); [exact Hlow|].
      split; [lia|]. split; assumption. }
    subst k. split; [reflexivity|]. split; [apply Hrx; exact Hc3|].
    rewrite Hflags by (try assumption; lia).
    unfold f in H9. rewrite Hidle in H9. exact H9. }
  destruct (irq_service_cases hw st1 instance idx k Hk)
    as [(Hcode & Hnew)|[(Hcode & idw & d0 & d1 & msg & Hnew & _)
                       |(Hntx & Hnrx & Hnew)]];
    rewrite Hcs in *; rewrite ?Hcall, Htr, <- app_assoc in Hnew;
    cbn [app] in Hnew;
    exists k; eexists; (split; [exact Hlow|]); (split; [exact Hnew|]).
  - split; [|split; [|split; [|split; [|split; [|split; [|split]]]]]].
    + repeat constructor; intros m Hm; cbn in Hm; try discriminate;
        injection Hm as <-; apply mailbox_word0.
    + repeat constructor; intros v Hv; cbn in Hv; try discriminate;
        injection Hv as <-; reflexivity.
    + cbn. lia.
    + intros _. reflexivity.
    + intros Habs. rewrite Hcode in Habs. discriminate.
    + intros Habs. contradiction.
    + exact Hflags.
    + apply Hscen. intros Habs. rewrite Hcode in Habs. discriminate.
  - split; [|split; [|split; [|split; [|split; [|split; [|split]]]]]].
    + repeat constructor; intros m Hm; cbn in Hm; try discriminate;
        injection Hm as <-;
        first [apply mailbox_word0 | apply mailbox_word; lia].
    + repeat constructor; intros v Hv; cbn in Hv; try discriminate;
        injection Hv as <-; reflexivity.
    + cbn. lia.
    + intros Habs. rewrite Hcode in Habs. discriminate.
    + intros _. exists msg. reflexivity.
    + intros _ Habs. contradiction.
    + exact Hflags.
    + apply Hscen. intros _. exists msg. reflexivity.
  - split; [|split; [|split; [|split; [|split; [|split; [|split]]]]]].
    + repeat constructor; intros m Hm; cbn in Hm; try discriminate;
        injection Hm as <-; apply mailbox_word0.
    + repeat constructor; intros v Hv; cbn in Hv; discriminate.
    + cbn. lia.
    + intros Habs. contradiction.
    + intros Habs. contradiction.
    + intros _ _. reflexivity.
    + exact Hflags.
    + apply Hscen. intros Habs. contradiction.
Qed.

Lemma irq_lowest_mailbox_only_witness :
  let st' := snd (CAN_IRQHandler hw_idle CAN0 scenario_C) in
  exists k new,
    lowest_pending 0x208 k /\
    trace st' = trace scenario_C ++ Rd 0 rIFLAG1 0x208 :: new /\
    only_mailbox k new /\
    (length (List.filter is_call new) <= 1)%nat /\
    k = 3 /\
    (exists msg,
       List.filter is_call new
       = [Call 0x8000 CAN0 CAN_EVENT_RX_COMPLETE (EventData 3 (Some msg) 0)]) /\
    Z.testbit (IFLAG1 (bank st' 0)) 9 = true.
Proof.
  intros st'.
  destruct (irq_lowest_mailbox_only hw_idle scenario_C CAN0 0)
    as (k & new & Hlow & Htr & Hmb & _ & Hcalls & _ & _ & _ & _ & Hscen).
  - reflexivity.
  - discriminate.
  - discriminate.
  - cbn. lia.
  - discriminate.
  - destruct Hscen as (Hk & Hev & H9).
    + reflexivity.
    + reflexivity.
    + intros j Hj.
      assert (Hc : j = 0 \/ j = 1 \/ j = 2) by lia.
      destruct Hc as [->|[->| ->]]; reflexivity.
    + reflexivity.
    + reflexivity.
    + reflexivity.
    + exists k, new.
      exact (conj Hlow (conj Htr (conj Hmb (conj Hcalls
               (conj Hk (conj Hev H9)))))).
Defined.

(** The same scenario, evaluated: the accesses of the handler in order. *)
Example scenario_C_trace :
  trace (snd (CAN_IRQHandler hw_idle CAN0 scenario_C))
  = [ Rd 0 rIFLAG1 0x208;
      Rd 0 (rRAMn 12) 0x02080000;
      Rd 0 (rRAMn 13) 0x048C0000;
      Rd 0 (rRAMn 14) 0x01020304;
      Rd 0 (rRAMn 15) 0x05060708;
      Wr 0 rIFLAG1 8;
      Wr 0 (rRAMn 12) 0x04000000;
      Call 0x8000 CAN0 CAN_EVENT_RX_COMPLETE
           (EventData 3
              (Some (Message 0x123 CAN_ID_STD CAN_FRAME_DATA 8
                             [1; 2; 3; 4; 5; 6; 7; 8])) 0) ]
  /\ IFLAG1 (bank (snd (CAN_IRQHandler hw_idle CAN0 scenario_C)) 0) = 0x200.
Proof. split; reflexivity. Qed.

(** ** C3: serving a receive-full mailbox *)

(** C3.  Let the handler be called for a known controller with a
    registered callback, let [k] be the lowest pending mailbox of the flag
    word it loads and let the control-status word [cs] it loads from
    mailbox [k] carry the receive-full code.  Then the handler loads the
    identifier and the two data words, stores [1 << k] to the
    write-one-to-clear flag register, then stores to the control-status
    word of mailbox [k] a word whose code is receive-empty, whose IDE and
    RTR bits are those of [cs] and whose other bits are zero, and finally
    invokes the callback with the RX-complete event for mailbox [k] and a
    message whose data length is the DLC field of [cs] clamped to 8.  When
    the hardware does not touch the registers itself, flag [k] is clear
    afterwards. *)
Theorem irq_rx_full (hw : CAN_Type -> CAN_Type) (st : driver)
    (instance idx k : Z) :
  CAN_GetInstanceIndex instance = idx ->
  idx <> 0xFF ->
  callback st idx <> NULL ->
  let f := IFLAG1 (hw (bank st idx)) in
  let cs := read_reg (rRAMn (k * 4)) (hw (hw (bank st idx))) in
  let st' := snd (CAN_IRQHandler hw instance st) in
  lowest_pending f k ->
  cs_code cs = CAN_CS_CODE_RX_FULL ->
  (exists idw d0 d1 msg,
     trace st' =
       trace st ++
         [ Rd idx rIFLAG1 f;
           Rd idx (rRAMn (k * 4)) cs;
           Rd idx (rRAMn (k * 4 + 1)) idw;
           Rd idx (rRAMn (k * 4 + 2)) d0;
           Rd idx (rRAMn (k * 4 + 3)) d1;
           Wr idx rIFLAG1 (2 ^ k);
           Wr idx (rRAMn (k * 4)) (rearm_cs cs);
           Call (callback st idx) instance CAN_EVENT_RX_COMPLETE
                (EventData k (Some msg) 0) ] /\
     dataLength msg = Z.min (cs_dlc cs) 8 /\
     0 <= dataLength msg <= 8) /\
  cs_code (rearm_cs cs) = CAN_CS_CODE_RX_EMPTY /\
  Z.land (rearm_cs cs) CAN_WMBn_CS_IDE_MASK = Z.land cs CAN_WMBn_CS_IDE_MASK /\
  Z.land (rearm_cs cs) CAN_WMBn_CS_RTR_MASK = Z.land cs CAN_WMBn_CS_RTR_MASK /\
  Z.land (rearm_cs cs)
         (not32 (Z.lor CAN_CS_CODE_MASK
                       (Z.lor CAN_WMBn_CS_IDE_MASK CAN_WMBn_CS_RTR_MASK))) = 0 /\
  ((forall b, hw b = b) -> Z.testbit (IFLAG1 (bank st' idx)) k = false).
Proof.
  intros Hidx Hknown Hcb f cs st' Hlow Hcode.
  pose proof Hlow as (Hk & Hset & Hbelow).
  subst st'. rewrite (irq_handler_dispatch hw st instance idx k) by assumption.
  destruct (rd_flags_state hw st idx) as (Htr & Hbank & Hcall).
  set (st1 := snd (rd hw idx rIFLAG1 st)) in *.
  assert (Hcs : read_reg (rRAMn (k * 4)) (hw (bank st1 idx)) = cs).
  { unfold cs. rewrite Hbank. reflexivity. }
  destruct (rearm_cs_fields cs) as (Hc & Hide & Hrtr & Hrest).
  split; [|split; [exact Hc|split; [exact Hide|split; [exact Hrtr|
           split; [exact Hrest|]]]]].
  - destruct (irq_service_cases hw st1 instance idx k Hk)
      as [(Habs & _)|[(_ & idw & d0 & d1 & msg & Hnew & Hlen)
                     |(_ & Habs & _)]];
      rewrite Hcs in *.
    + rewrite Hcode in Habs. discriminate.
    + exists idw, d0, d1, msg.
      rewrite Hcall, Htr, <- app_assoc in Hnew.
      split; [exact Hnew|]. split; [exact Hlen|].
      pose proof (cs_dlc_small cs). lia.
    + contradiction.
  - intros Hidle.
    rewrite (irq_service_flags hw st1 instance idx k Hidle Hk).
    rewrite Hbank, !Hidle.
    assert (Hcs' : read_reg (rRAMn (k * 4)) (bank st idx) = cs).
    { unfold cs. rewrite !Hidle. reflexivity. }
    rewrite Hcs', Hcode. cbn [orb Z.eqb].
    change (CAN_CS_CODE_RX_FULL =? CAN_CS_CODE_TX_INACTIVE) with false.
    change (CAN_CS_CODE_RX_FULL =? CAN_CS_CODE_RX_FULL) with true.
    cbn [orb].
    rewrite <- (shl32_one k), w1c_bit by lia.
    rewrite Z.eqb_refl. apply andb_false_r.
Qed.

Lemma irq_rx_full_witness :
  let st' := snd (CAN_IRQHandler hw_idle CAN0 scenario_C) in
  (exists idw d0 d1 msg,
     trace st' =
       trace scenario_C ++
         [ Rd 0 rIFLAG1 0x208;
           Rd 0 (rRAMn (3 * 4)) 0x02080000;
           Rd 0 (rRAMn (3 * 4 + 1)) idw;
           Rd 0 (rRAMn (3 * 4 + 2)) d0;
           Rd 0 (rRAMn (3 * 4 + 3)) d1;
           Wr 0 rIFLAG1 (2 ^ 3);
           Wr 0 (rRAMn (3 * 4)) (rearm_cs 0x02080000);
           Call 0x8000 CAN0 CAN_EVENT_RX_COMPLETE
                (EventData 3 (Some msg) 0) ] /\
     dataLength msg = Z.min (cs_dlc 0x02080000) 8 /\
     0 <= dataLength msg <= 8) /\
  Z.testbit (IFLAG1 (bank st' 0)) 3 = false.
Proof.
  intros st'.
  destruct (irq_rx_full hw_idle scenario_C CAN0 0 3)
    as (Htrace & _ & _ & _ & _ & Hflag).
  - reflexivity.
  - discriminate.
  - discriminate.
  - split; [lia|]. split; [reflexivity|]. intros j Hj.
    assert (Hc : j = 0 \/ j = 1 \/ j = 2) by lia.
    destruct Hc as [->|[->| ->]]; reflexivity.
  - reflexivity.
  - split; [exact Htrace|]. apply Hflag. reflexivity.
Defined.

(** A data-length code above 8 is clamped: with DLC 15 in mailbox 3 the
    event carries a length of 8. *)
Example irq_clamps_dlc :
  let ram := <[12%nat := 0x020F0000]> (replicate 128 0) in
  let st := Driver (fun _ => Regs 0 0 0 0 0 0 0x8 0 ram (replicate 32 0))
                   [true; false; false] [0x8000; NULL; NULL] [] in
  last (trace (snd (CAN_IRQHandler hw_idle CAN0 st)))
  = Some (Call 0x8000 CAN0 CAN_EVENT_RX_COMPLETE
            (EventData 3
               (Some (Message 0 CAN_ID_STD CAN_FRAME_DATA 8
                              [0; 0; 0; 0; 0; 0; 0; 0])) 0)).
Proof. reflexivity. Qed.

(** ** C6: the initialised flag *)

Create HintDb flags.

Lemma keeps_ret {A} (a : A) : keeps_flags (ret a).
Proof. intros st. reflexivity. Qed.

Lemma keeps_bind {A B} (c : M A) (k : A -> M B) :
  keeps_flags c -> (forall a, keeps_flags (k a)) -> keeps_flags (bind c k).
Proof.
  intros Hc Hk st. unfold bind. specialize (Hc st).
  destruct (c st) as [a st1]. cbn [snd] in Hc. rewrite Hk. exact Hc.
Qed.

Lemma keeps_get : keeps_flags get.
Proof. intros st. reflexivity. Qed.

Lemma failure_of_keeps (c : M status_t) :
  keeps_flags c -> keeps_flags_on_failure c.
Proof. intros Hc st _. apply Hc. Qed.

Lemma failure_bind {A} (c : M A) (k : A -> M status_t) :
  keeps_flags c -> (forall a, keeps_flags_on_failure (k a)) ->
  keeps_flags_on_failure (bind c k).
Proof.
  intros Hc Hk st. unfold bind. specialize (Hc st).
  destruct (c st) as [a st1]. cbn [snd] in Hc. intros Hfail.
  rewrite Hk by exact Hfail. exact Hc.
Qed.

Lemma failure_success (c : M unit) :
  keeps_flags_on_failure (bind c (fun _ => ret STATUS_SUCCESS)).
Proof.
  intros st. unfold bind, ret. destruct (c st). cbn [fst]. congruence.
Qed.

#[local] Hint Resolve keeps_ret keeps_bind keeps_get : flags.

Section Flags.

Variable hw : CAN_Type -> CAN_Type.

Lemma keeps_rd (inst : Z) (r : reg) : keeps_flags (rd hw inst r).
Proof. intros st. reflexivity. Qed.

Lemma keeps_wr (inst : Z) (r : reg) (v : Z) : keeps_flags (wr hw inst r v).
Proof. intros st. reflexivity. Qed.

Hint Resolve keeps_rd keeps_wr : flags.

Lemma keeps_set_bits (inst : Z) (r : reg) (m : Z) :
  keeps_flags (set_bits hw inst r m).
Proof. unfold set_bits. auto with flags. Qed.

Lemma keeps_clear_bits (inst : Z) (r : reg) (m : Z) :
  keeps_flags (clear_bits hw inst r m).
Proof. unfold clear_bits. auto with flags. Qed.

Hint Resolve keeps_set_bits keeps_clear_bits : flags.

Lemma keeps_poll_mcr (n : nat) (inst : Z) (waiting : Z -> bool) :
  keeps_flags (poll_mcr hw n inst waiting).
Proof.
  induction n as [|n IH]; cbn [poll_mcr]; [auto with flags|].
  apply keeps_bind; [auto with flags|].
  intros v. destruct (waiting v); auto with flags.
Qed.

Lemma keeps_for_each (n : nat) (body : Z -> M unit) :
  (forall i, keeps_flags (body i)) ->
  forall i, keeps_flags (for_each n i body).
Proof.
  intros Hbody. induction n as [|n IH]; intros i; cbn [for_each];
    auto with flags.
Qed.

Hint Resolve keeps_poll_mcr keeps_for_each : flags.

Lemma keeps_EnableClock (inst : Z) (src : can_clk_src_t) :
  keeps_flags (CAN_EnableClock hw inst src).
Proof.
  unfold CAN_EnableClock.
  destruct (decide (src = CAN_CLK_SRC_SOSCDIV2)); auto 10 with flags.
Qed.

Lemma keeps_EnterFreezeMode (inst : Z) :
  keeps_flags (CAN_EnterFreezeMode hw inst).
Proof. unfold CAN_EnterFreezeMode. auto 10 with flags. Qed.

Lemma keeps_SoftReset (inst : Z) : keeps_flags (CAN_SoftReset hw inst).
Proof. unfold CAN_SoftReset. auto 10 with flags. Qed.

Lemma keeps_ExitFreezeMode (inst : Z) :
  keeps_flags (CAN_ExitFreezeMode hw inst).
Proof.
  unfold CAN_ExitFreezeMode.
  apply keeps_bind; [auto with flags|]. intros _.
  apply keeps_bind; [auto with flags|]. intros [|n]; auto 10 with flags.
Qed.

Lemma keeps_InitMessageBuffers (inst : Z) :
  keeps_flags (CAN_InitMessageBuffers hw inst).
Proof. unfold CAN_InitMessageBuffers. auto 10 with flags. Qed.

Hint Resolve keeps_EnableClock keeps_EnterFreezeMode keeps_SoftReset
  keeps_ExitFreezeMode keeps_InitMessageBuffers : flags.

(** [CAN_Init] writes the table only on its successful path. *)
Lemma Init_failure_keeps_flags (config : option can_config_t) :
  keeps_flags_on_failure (CAN_Init hw config).
Proof.
  unfold CAN_Init. destruct config as [cfg|]; [|auto using failure_of_keeps with flags].
  destruct (CAN_INSTANCE_COUNT <=? instance cfg);
    [auto using failure_of_keeps with flags|].
  apply failure_bind; [auto with flags|]. intros _.
  apply failure_bind; [auto with flags|]. intros s1.
  destruct (negb (bool_decide (s1 = STATUS_SUCCESS)));
    [auto using failure_of_keeps with flags|].
  apply failure_bind; [auto with flags|]. intros s2.
  destruct (negb (bool_decide (s2 = STATUS_SUCCESS)));
    [auto using failure_of_keeps with flags|].
  destruct (CAN_CalculateTiming _ _ _) as [[] [timing|]];
    try solve [apply failure_of_keeps; auto with flags].
  apply failure_bind; [auto with flags|]. intros _.
  apply failure_bind.
  { destruct (decide (mode cfg = CAN_MODE_LOOPBACK)); [auto with flags|].
    destruct (decide (mode cfg = CAN_MODE_LISTEN_ONLY)); auto with flags. }
  intros _. apply failure_bind.
  { destruct (negb (enableSelfReception cfg)); auto with flags. }
  intros _. apply failure_bind.
  { destruct (useRxFifo cfg); auto with flags. }
  intros _. apply failure_bind; [auto with flags|].
  intros _. apply failure_bind; [auto with flags|].
  intros _. apply failure_bind; [auto with flags|].
  intros _. apply failure_bind; [auto with flags|].
  intros _. apply failure_bind; [auto with flags|]. intros s3.
  destruct (negb (bool_decide (s3 = STATUS_SUCCESS)));
    [auto using failure_of_keeps with flags|].
  apply failure_success.
Qed.

End Flags.

Lemma flag_clear_rejects (hw : CAN_Type -> CAN_Type) (st : driver) (inst : Z) :
  0 <= inst < 3 -> initialized st inst = false ->
  rejects_uninitialized hw st inst.
Proof.
  intros Hi Hflag.
  assert (Hget : forall A (k : driver -> M A),
            bind get k st = k st st) by reflexivity.
  assert (Hsend : forall mb msg,
            CAN_Send hw inst mb (Some msg) st = (STATUS_NOT_INITIALIZED, st)).
  { intros mb msg. unfold CAN_Send. rewrite instance_in_range by exact Hi.
    rewrite Hget, Hflag. reflexivity. }
  assert (Hrecv : forall mb msg,
            CAN_Receive hw inst mb (Some msg) st
            = (STATUS_NOT_INITIALIZED, Some msg, st)).
  { intros mb msg. unfold CAN_Receive. rewrite instance_in_range by exact Hi.
    rewrite Hget, Hflag. reflexivity. }
  repeat split.
  - exact Hsend.
  - intros mb msg t. unfold CAN_SendBlocking, bind. rewrite Hsend. reflexivity.
  - exact Hrecv.
  - intros mb msg t. unfold CAN_ReceiveBlocking.
    rewrite instance_in_range by exact Hi.
    rewrite Hget, Hflag. reflexivity.
  - intros mb flt. unfold CAN_ConfigRxFilter.
    rewrite instance_in_range by exact Hi.
    rewrite Hget, Hflag. reflexivity.
  - intros mb. unfold CAN_ConfigTxMailbox.
    rewrite instance_in_range by exact Hi.
    rewrite Hget, Hflag. reflexivity.
Qed.

(** With a controller that acknowledges, [CAN_Init] of [config_500k]
    succeeds and sets the flag of instance 0 only. *)
Example init_succeeds :
  fst (CAN_Init hw_ack (Some config_500k) power_on) = STATUS_SUCCESS /\
  s_canInitialized (snd (CAN_Init hw_ack (Some config_500k) power_on))
  = [true; false; false].
Proof. vm_compute. split; reflexivity. Qed.

(** ** C7: argument validation *)

(** [CAN_Send] validates before it touches the bus: on an initialised
    instance a data length above 8 (9 in particular) and a mailbox outside
    the TX range are rejected with [STATUS_INVALID_PARAM], the driver state
    and the log being exactly as before. *)
Lemma send_rejects_long_message (hw : CAN_Type -> CAN_Type) (st : driver)
    (instance mbIndex : Z) (msg : can_message_t) :
  0 <= instance < 3 -> initialized st instance = true ->
  8 < dataLength msg ->
  CAN_Send hw instance mbIndex (Some msg) st = (STATUS_INVALID_PARAM, st).
Proof.
  intros Hi Hinit Hlen. unfold CAN_Send.
  rewrite instance_in_range by exact Hi.
  unfold bind at 1. unfold get. rewrite Hinit. cbn [negb].
  destruct (_ || _); [reflexivity|].
  replace (CAN_MAX_DATA_LENGTH <? dataLength msg) with true
    by (symmetry; apply Z.ltb_lt; unfold CAN_MAX_DATA_LENGTH; lia).
  reflexivity.
Qed.

Lemma send_rejects_bad_mailbox (hw : CAN_Type -> CAN_Type) (st : driver)
    (instance mbIndex : Z) (msg : can_message_t) :
  0 <= instance < 3 -> initialized st instance = true ->
  mbIndex < 8 \/ 16 <= mbIndex ->
  CAN_Send hw instance mbIndex (Some msg) st = (STATUS_INVALID_PARAM, st).
Proof.
  intros Hi Hinit Hmb. unfold CAN_Send.
  rewrite instance_in_range by exact Hi.
  unfold bind at 1. unfold get. rewrite Hinit. cbn [negb].
  replace ((mbIndex <? CAN_TX_MB_START)
           || (CAN_TX_MB_START + CAN_TX_MB_COUNT <=? mbIndex)) with true;
    [reflexivity|].
  symmetry. apply orb_true_iff. unfold CAN_TX_MB_START, CAN_TX_MB_COUNT.
  destruct Hmb; [left; apply Z.ltb_lt|right; apply Z.leb_le]; lia.
Qed.

Lemma receive_rejects_bad_mailbox (hw : CAN_Type -> CAN_Type) (st : driver)
    (instance mbIndex : Z) (msg : can_message_t) :
  0 <= instance < 3 -> initialized st instance = true ->
  mbIndex < 16 \/ 32 <= mbIndex ->
  CAN_Receive hw instance mbIndex (Some msg) st
  = (STATUS_INVALID_PARAM, Some msg, st).
Proof.
  intros Hi Hinit Hmb. unfold CAN_Receive.
  rewrite instance_in_range by exact Hi.
  unfold bind at 1. unfold get. rewrite Hinit. cbn [negb].
  replace ((mbIndex <? CAN_RX_MB_START) || (CAN_MB_COUNT <=? mbIndex))
    with true; [reflexivity|].
  symmetry. apply orb_true_iff. unfold CAN_RX_MB_START, CAN_MB_COUNT.
  destruct Hmb; [left; apply Z.ltb_lt|right; apply Z.leb_le]; lia.
Qed.

(** C7 fails on [CAN_ReceiveBlocking]: it checks the instance, the pointer
    and the flag, but not the mailbox index, before it polls.  Called for
    mailbox 5 (outside the RX range 16..31) with a timeout of 1 ms, it
    loads the flag register 1000 times and returns [STATUS_TIMEOUT];
    [CAN_Receive], for the same arguments, returns [STATUS_INVALID_PARAM]
    without any bus access. *)
Theorem receive_blocking_polls_before_validating :
  let r := CAN_ReceiveBlocking hw_idle 0 5 (Some msg_123) 1 ready in
  fst r = (STATUS_TIMEOUT, Some msg_123) /\
  trace (snd r) = repeat (Rd 0 rIFLAG1 0) 1000 /\
  CAN_Receive hw_idle 0 5 (Some msg_123) ready
  = (STATUS_INVALID_PARAM, Some msg_123, ready).
Proof. vm_compute. repeat split. Qed.

(** [CAN_Init] validates the bit rate only after it has enabled the clock,
    frozen and reset the controller: with a bit rate of 0 it returns
    [STATUS_INVALID_PARAM] after bus accesses, stores included. *)
Example init_validates_bit_rate_late :
  let cfg := Config 0 CAN_CLK_SRC_BUSCLOCK 0 CAN_MODE_NORMAL false false in
  let r := CAN_Init hw_ack (Some cfg) power_on in
  fst r = STATUS_INVALID_PARAM /\
  firstn 2 (trace (snd r)) = [Rd 0 rMCR 0; Wr 0 rMCR 0x80000000] /\
  length (trace (snd r)) = 12%nat.
Proof. vm_compute. repeat split. Qed.

(** ** C4: the bit-timing calculator *)

(** Whenever [CAN_CalculateTiming] succeeds, the structure it fills has a
    prescaler of 0 and the segments 6, 3, 3 with a jump width of 3: the
    second assignment to [preDiv] discards the computed prescaler. *)
Lemma CalculateTiming_success (canClockHz baudRate : Z)
    (t0 : can_timing_config_t) (r : option can_timing_config_t) :
  CAN_CalculateTiming canClockHz baudRate (Some t0) = (STATUS_SUCCESS, r) ->
  r = Some (Timing 6 3 3 3 0).
Proof.
  unfold CAN_CalculateTiming.
  destruct (_ || _); [discriminate|].
  destruct (255 <? prescaler canClockHz baudRate 16);
    [destruct (255 <? prescaler canClockHz baudRate 8); [discriminate|]|];
    cbn; intros H; injection H as <-; reflexivity.
Qed.

(** C4 fails on the code.  For a 40 MHz clock and 500 kbit/s the computed
    prescaler is 4 (within 0..255, 16 quanta per bit), the call succeeds,
    but the returned prescaler is 0, which gives 2.5 Mbit/s instead of
    500 kbit/s, and the returned segments sum with the sync quantum to 13,
    not 16. *)
Theorem CalculateTiming_40MHz_500k :
  prescaler 40000000 500000 16 = 4 /\
  40000000 / (500000 * 16) - 1 <= 255 /\
  exists t,
    CAN_CalculateTiming 40000000 500000 (Some (Timing 0 0 0 0 0))
    = (STATUS_SUCCESS, Some t) /\
    preDiv t = 0 /\
    preDiv t <> 40000000 / (500000 * 16) - 1 /\
    40000000 / (16 * (preDiv t + 1)) = 2500000 /\
    500000 <> 40000000 / (16 * (preDiv t + 1)) /\
    1 + propSeg t + phaseSeg1 t + phaseSeg2 t = 13.
Proof.
  split; [reflexivity|]. split; [vm_compute; discriminate|].
  exists (Timing 6 3 3 3 0). vm_compute. repeat split; discriminate.
Qed.

(** A clock below eight times the bit rate: both quotients are 0, the
    32-bit subtraction wraps above 255, and the call fails. *)
Example CalculateTiming_unachievable :
  CAN_CalculateTiming 1000000 500000 (Some (Timing 0 0 0 0 0))
  = (STATUS_INVALID_PARAM, Some (Timing 0 0 0 0 0)).
Proof. reflexivity. Qed.

(** ** C9: acceptance filtering *)

(** C9 fails on the code.  [CAN_ConfigRxFilter] shifts the identifier into
    bits 18..28 of the identifier word but stores the mask unshifted, so
    the mask 0x700 selects bits 8..10, where every standard identifier
    word is zero: identifier 0x300 is accepted, as is every standard
    identifier, although (0x300 & 0x700) differs from (0x200 & 0x700). *)
Theorem ConfigRxFilter_mask_unshifted :
  fst (CAN_ConfigRxFilter hw_idle 0 16 (Some (Filter 0x200 0x700 CAN_ID_STD))
         ready) = STATUS_SUCCESS /\
  read_reg (rRAMn (16 * 4 + 1)) (bank filtered 0) = Z.shiftl 0x200 18 /\
  read_reg (rRXIMR 16) (bank filtered 0) = 0x700 /\
  Z.land 0x300 0x700 <> Z.land 0x200 0x700 /\
  mb_accepts (bank filtered 0) 16 (std_id_word 0x300) = true /\
  forallb (fun i => mb_accepts (bank filtered 0) 16 (std_id_word i))
          (map Z.of_nat (seq 0 2048)) = true.
Proof. vm_compute. repeat split; discriminate. Qed.

(** * Further properties of the driver *)

(** ** The blocking calls *)

(** [CAN_Send] on a valid call: status and bus accesses. *)
Lemma CAN_Send_valid (hw : CAN_Type -> CAN_Type) (st : driver)
    (instance mbIndex : Z) (msg : can_message_t) :
  0 <= instance < 3 ->
  initialized st instance = true ->
  8 <= mbIndex < 16 ->
  dataLength msg <= 8 ->
  fst (CAN_Send hw instance mbIndex (Some msg) st) = STATUS_SUCCESS /\
  trace (snd (CAN_Send hw instance mbIndex (Some msg) st))
  = trace st ++ send_stores instance mbIndex msg /\
  s_canInitialized (snd (CAN_Send hw instance mbIndex (Some msg) st))
  = s_canInitialized st /\
  s_canCallbacks (snd (CAN_Send hw instance mbIndex (Some msg) st))
  = s_canCallbacks st.
Proof.
  intros Hi Hinit Hmb Hlen. open_state st.
  destruct (CAN_Send _ _ _ _ _) as [status st'] eqn:E.
  unfold CAN_Send in E. rewrite instance_in_range in E by exact Hi.
  unfold bind at 1 in E. unfold get, initialized in E.
  cbn [s_canInitialized] in E.
  rewrite Hinit, tx_mb_in_range in E by exact Hmb.
  replace (CAN_MAX_DATA_LENGTH <? dataLength msg) with false in E
    by (symmetry; apply Z.ltb_ge; unfold CAN_MAX_DATA_LENGTH; lia).
  rewrite shl32_one in E by lia.
  unfold MSG_BUF_SIZE in E. cbn [negb] in E. run_monad in E.
  injection E as <- <-. cbn [fst snd bus s_canInitialized s_canCallbacks].
  unfold send_stores. rewrite !trace_cons, <- !app_assoc.
  repeat split; reflexivity.
Qed.

Section Blocking.

Variable hw : CAN_Type -> CAN_Type.

(** The polling loop of [CAN_SendBlocking], whatever the hardware does:
    either all [n] loads show the flag clear and the loop times out
    without a store, or the first load that shows it set is followed by
    the store that clears it and the loop succeeds. *)
Lemma send_wait_outcomes (inst mbMask : Z) (n : nat) :
  forall st,
    let r := send_wait hw n inst mbMask st in
    s_canInitialized (snd r) = s_canInitialized st /\
    s_canCallbacks (snd r) = s_canCallbacks st /\
    ((fst r = STATUS_TIMEOUT /\
      exists vs,
        length vs = n /\ Forall (fun v => Z.land v mbMask = 0) vs /\
        trace (snd r) = trace st ++ map (Rd inst rIFLAG1) vs) \/
     (fst r = STATUS_SUCCESS /\
      exists vs v,
        (length vs < n)%nat /\ Forall (fun v => Z.land v mbMask = 0) vs /\
        Z.land v mbMask <> 0 /\
        trace (snd r)
        = trace st ++ map (Rd inst rIFLAG1) vs
            ++ [Rd inst rIFLAG1 v; Wr inst rIFLAG1 mbMask])).
Proof.
  induction n as [|n IH]; intros st r; subst r.
  - cbn [send_wait]. unfold ret. cbn [fst snd].
    split; [reflexivity|]. split; [reflexivity|]. left.
    split; [reflexivity|]. exists []. cbn.
    rewrite app_nil_r. repeat split. constructor.
  - set (v := read_reg rIFLAG1 (hw (banks st inst))).
    set (st1 := Driver (upd_bank (banks st) inst (hw (banks st inst)))
                       (s_canInitialized st) (s_canCallbacks st)
                       (Rd inst rIFLAG1 v :: bus st)).
    assert (Hstep : send_wait hw (S n) inst mbMask st
                    = if negb (Z.land v mbMask =? 0)
                      then (wr hw inst rIFLAG1 mbMask;; ret STATUS_SUCCESS) st1
                      else send_wait hw n inst mbMask st1).
    { cbn [send_wait]. unfold bind at 1. unfold rd at 1. cbv beta iota zeta.
      fold v. fold st1. destruct (negb _); reflexivity. }
    rewrite Hstep. clear Hstep.
    destruct (Z.eqb_spec (Z.land v mbMask) 0) as [Hz|Hnz]; cbn [negb].
    + specialize (IH st1). cbn zeta in IH.
      destruct IH as (Hfl & Hcb & IH).
      split; [exact Hfl|]. split; [exact Hcb|].
      destruct IH as [(Hr & vs & Hlen & Hall & Htr)
                     |(Hr & vs & w & Hlen & Hall & Hw & Htr)].
      * left. split; [exact Hr|]. exists (v :: vs).
        split; [cbn; lia|]. split; [constructor; assumption|].
        rewrite Htr. unfold trace, st1. cbn [bus map].
        rewrite trace_cons, <- app_assoc. reflexivity.
      * right. split; [exact Hr|]. exists (v :: vs), w.
        split; [cbn; lia|]. split; [constructor; assumption|].
        split; [exact Hw|].
        rewrite Htr. unfold trace, st1. cbn [bus map].
        rewrite trace_cons, <- !app_assoc. reflexivity.
    + unfold bind, wr, ret. cbn [fst snd s_canInitialized s_canCallbacks].
      split; [reflexivity|]. split; [reflexivity|]. right.
      split; [reflexivity|]. exists [], v.
      split; [cbn; lia|]. split; [constructor|]. split; [exact Hnz|].
      unfold trace, st1. cbn [bus map app].
      rewrite !trace_cons, <- app_assoc. reflexivity.
Qed.

End Blocking.

Lemma land_pow2_zero (v k : Z) :
  0 <= k -> Z.land v (2 ^ k) = 0 <-> Z.testbit v k = false.
Proof.
  intros Hk. rewrite land_pow2_value by exact Hk.
  destruct (Z.testbit v k); split; intros H; try reflexivity;
    try discriminate.
  exfalso. assert (0 < 2 ^ k) by (apply Z.pow_pos_nonneg; lia). lia.
Qed.

Lemma Forall_flag_clear (k : Z) (vs : list Z) :
  0 <= k ->
  Forall (fun v => Z.land v (2 ^ k) = 0) vs ->
  Forall (fun v => Z.testbit v k = false) vs.
Proof.
  intros Hk H. induction H; constructor; auto.
  apply land_pow2_zero; assumption.
Qed.

(** X1.  [CAN_SendBlocking] on a valid call, whatever the hardware does:
    after the five stores of [CAN_Send] it polls the flag register at most
    [timeoutMs * 1000 mod 2^32] times.  It returns [STATUS_TIMEOUT] exactly
    after that many loads that all showed the mailbox flag clear, without
    any further store; it returns [STATUS_SUCCESS] as soon as a load shows
    the flag set, after storing [1 << mbIndex] to clear it.  No other
    status is returned. *)
Theorem SendBlocking_outcomes (hw : CAN_Type -> CAN_Type) (st : driver)
    (instance mbIndex : Z) (msg : can_message_t) (timeoutMs : Z) :
  0 <= instance < 3 ->
  initialized st instance = true ->
  8 <= mbIndex < 16 ->
  dataLength msg <= 8 ->
  let n := Z.to_nat ((timeoutMs * 1000) mod 2 ^ 32) in
  let r := CAN_SendBlocking hw instance mbIndex (Some msg) timeoutMs st in
  let sent := send_stores instance mbIndex msg in
  (fst r = STATUS_TIMEOUT /\
   exists vs,
     length vs = n /\
     Forall (fun v => Z.testbit v mbIndex = false) vs /\
     trace (snd r) = trace st ++ sent ++ map (Rd instance rIFLAG1) vs) \/
  (fst r = STATUS_SUCCESS /\
   exists vs v,
     (length vs < n)%nat /\
     Forall (fun v => Z.testbit v mbIndex = false) vs /\
     Z.testbit v mbIndex = true /\
     trace (snd r)
     = trace st ++ sent ++ map (Rd instance rIFLAG1) vs
         ++ [Rd instance rIFLAG1 v; Wr instance rIFLAG1 (2 ^ mbIndex)]).
Proof.
  intros Hi Hinit Hmb Hlen n r sent. subst n r sent.
  destruct (CAN_Send_valid hw st instance mbIndex msg Hi Hinit Hmb Hlen)
    as (Hs & Htr & _ & _).
  unfold CAN_SendBlocking, bind.
  destruct (CAN_Send hw instance mbIndex (Some msg) st) as [s st1].
  cbn [fst snd] in Hs, Htr. subst s.
  change (negb (bool_decide (STATUS_SUCCESS = STATUS_SUCCESS))) with false.
  cbv iota. rewrite shl32_one by lia. fold (u32 (timeoutMs * 1000)).
  destruct (send_wait_outcomes hw instance (2 ^ mbIndex)
              (Z.to_nat (u32 (timeoutMs * 1000))) st1)
    as (_ & _ & [(Hr & vs & Hn & Hall & Ht)|(Hr & vs & v & Hn & Hall & Hv & Ht)]).
  - left. split; [exact Hr|]. exists vs. split; [exact Hn|].
    split; [apply Forall_flag_clear; [lia|exact Hall]|].
    rewrite Ht, Htr, <- app_assoc. reflexivity.
  - right. split; [exact Hr|]. exists vs, v. split; [exact Hn|].
    split; [apply Forall_flag_clear; [lia|exact Hall]|].
    split.
    + destruct (Z.testbit v mbIndex) eqn:Hb; [reflexivity|].
      exfalso. apply Hv. apply land_pow2_zero; [lia|exact Hb].
    + rewrite Ht, Htr, <- !app_assoc. reflexivity.
Qed.

Lemma SendBlocking_outcomes_witness :
  let r := CAN_SendBlocking hw_idle 0 8 (Some msg_123) 2 ready in
  (fst r = STATUS_TIMEOUT /\
   exists vs,
     length vs = 2000%nat /\
     Forall (fun v => Z.testbit v 8 = false) vs /\
     trace (snd r) = trace ready ++ send_stores 0 8 msg_123
                       ++ map (Rd 0 rIFLAG1) vs) \/
  (fst r = STATUS_SUCCESS /\
   exists vs v,
     (length vs < 2000)%nat /\
     Forall (fun v => Z.testbit v 8 = false) vs /\
     Z.testbit v 8 = true /\
     trace (snd r)
     = trace ready ++ send_stores 0 8 msg_123 ++ map (Rd 0 rIFLAG1) vs
         ++ [Rd 0 rIFLAG1 v; Wr 0 rIFLAG1 (2 ^ 8)]).
Proof.
  apply (SendBlocking_outcomes hw_idle ready 0 8 msg_123 2);
    try reflexivity; cbn; lia.
Defined.

(** [CAN_Receive] on a valid call whose flag load shows the flag clear. *)
Lemma CAN_Receive_empty (hw : CAN_Type -> CAN_Type) (st : driver)
    (instance mbIndex : Z) (msg : can_message_t) :
  0 <= instance < 3 ->
  initialized st instance = true ->
  16 <= mbIndex < 32 ->
  Z.testbit (IFLAG1 (hw (bank st instance))) mbIndex = false ->
  fst (CAN_Receive hw instance mbIndex (Some msg) st)
  = (STATUS_ERROR, Some msg) /\
  trace (snd (CAN_Receive hw instance mbIndex (Some msg) st))
  = trace st ++ [Rd instance rIFLAG1 (IFLAG1 (hw (bank st instance)))].
Proof.
  intros Hi Hinit Hmb Hflag. open_state st.
  destruct (CAN_Receive _ _ _ _ _) as [res st'] eqn:E.
  unfold CAN_Receive in E. rewrite instance_in_range in E by exact Hi.
  unfold bind at 1 in E. unfold get, initialized in E.
  cbn [s_canInitialized] in E.
  rewrite Hinit, rx_mb_in_range in E by exact Hmb. cbn [negb] in E.
  unfold bind at 1 in E. unfold rd at 1 in E. cbn [banks read_reg] in E.
  assert (Htest : (Z.land (IFLAG1 (hw (bk instance))) (shl32 1 mbIndex)
                   =? 0) = true).
  { rewrite <- (negb_involutive (_ =? 0)), flag_test, Hflag by lia.
    reflexivity. }
  rewrite Htest in E. run_monad in E. injection E as <- <-.
  cbn [fst snd bus]. split; reflexivity.
Qed.

Section ReceiveBlocking.

Variable hw : CAN_Type -> CAN_Type.

(** The polling loop of [CAN_ReceiveBlocking]: either all [n] loads of the
    flag register show the flag clear and the loop times out, message
    untouched, or after the first load that shows it set the loop hands
    over to [CAN_Receive]. *)
Lemma receive_wait_outcomes (inst mbIndex mbMask : Z)
    (message : option can_message_t) (n : nat) :
  forall st,
    let r := receive_wait hw n inst mbIndex mbMask message st in
    (fst r = (STATUS_TIMEOUT, message) /\
     s_canInitialized (snd r) = s_canInitialized st /\
     s_canCallbacks (snd r) = s_canCallbacks st /\
     exists vs,
       length vs = n /\ Forall (fun v => Z.land v mbMask = 0) vs /\
       trace (snd r) = trace st ++ map (Rd inst rIFLAG1) vs) \/
    (exists vs v st1,
       (length vs < n)%nat /\ Forall (fun v => Z.land v mbMask = 0) vs /\
       Z.land v mbMask <> 0 /\
       trace st1 = trace st ++ map (Rd inst rIFLAG1) vs ++ [Rd inst rIFLAG1 v] /\
       s_canInitialized st1 = s_canInitialized st /\
       s_canCallbacks st1 = s_canCallbacks st /\
       r = CAN_Receive hw inst mbIndex message st1).
Proof.
  induction n as [|n IH]; intros st r; subst r.
  - left. cbn [receive_wait]. unfold ret. cbn [fst snd].
    repeat split. exists []. cbn [map length].
    rewrite app_nil_r. repeat split. constructor.
  - set (v := read_reg rIFLAG1 (hw (banks st inst))).
    set (st1 := Driver (upd_bank (banks st) inst (hw (banks st inst)))
                       (s_canInitialized st) (s_canCallbacks st)
                       (Rd inst rIFLAG1 v :: bus st)).
    assert (Hstep : receive_wait hw (S n) inst mbIndex mbMask message st
                    = if negb (Z.land v mbMask =? 0)
                      then CAN_Receive hw inst mbIndex message st1
                      else receive_wait hw n inst mbIndex mbMask message st1).
    { cbn [receive_wait]. unfold bind at 1. unfold rd at 1.
      cbv beta iota zeta. fold v. fold st1. destruct (negb _); reflexivity. }
    rewrite Hstep. clear Hstep.
    destruct (Z.eqb_spec (Z.land v mbMask) 0) as [Hz|Hnz]; cbn [negb].
    + specialize (IH st1). cbn zeta in IH.
      destruct IH as [(Hr & Hfl & Hcb & vs & Hlen & Hall & Htr)
                     |(vs & w & st2 & Hlen & Hall & Hw & Htr & Hfl & Hcb & Hr)].
      * left. split; [exact Hr|]. split; [exact Hfl|]. split; [exact Hcb|].
        exists (v :: vs).
        split; [cbn; lia|]. split; [constructor; assumption|].
        rewrite Htr. unfold trace, st1. cbn [bus map].
        rewrite trace_cons, <- app_assoc. reflexivity.
      * right. exists (v :: vs), w, st2.
        split; [cbn; lia|]. split; [constructor; assumption|].
        split; [exact Hw|]. split; [|split; [exact Hfl|split; [exact Hcb|exact Hr]]].
        rewrite Htr. unfold trace, st1. cbn [bus map].
        rewrite trace_cons, <- !app_assoc. reflexivity.
    + right. exists [], v, st1.
      split; [cbn; lia|]. split; [constructor|]. split; [exact Hnz|].
      split; [|repeat split].
      unfold trace, st1. cbn [bus map app]. apply trace_cons.
Qed.

End ReceiveBlocking.

(** X2.  [CAN_ReceiveBlocking] on an initialised instance and a mailbox of
    the RX range, whatever the hardware does.  It polls the flag register
    at most [timeoutMs * 1000 mod 2^32] times.  Either every load showed
    the flag clear: it returns [STATUS_TIMEOUT], the caller's message is
    untouched and the loads are its only bus accesses.  Or some load showed
    the flag set: from the state right after that load it is [CAN_Receive],
    whose status is [STATUS_SUCCESS], or [STATUS_ERROR] when the flag has
    vanished in between. *)
Theorem ReceiveBlocking_outcomes (hw : CAN_Type -> CAN_Type) (st : driver)
    (instance mbIndex : Z) (msg : can_message_t) (timeoutMs : Z) :
  0 <= instance < 3 ->
  initialized st instance = true ->
  16 <= mbIndex < 32 ->
  let n := Z.to_nat ((timeoutMs * 1000) mod 2 ^ 32) in
  let r := CAN_ReceiveBlocking hw instance mbIndex (Some msg) timeoutMs st in
  (fst r = (STATUS_TIMEOUT, Some msg) /\
   exists vs,
     length vs = n /\
     Forall (fun v => Z.testbit v mbIndex = false) vs /\
     trace (snd r) = trace st ++ map (Rd instance rIFLAG1) vs) \/
  (exists vs v st1,
     (length vs < n)%nat /\
     Forall (fun v => Z.testbit v mbIndex = false) vs /\
     Z.testbit v mbIndex = true /\
     trace st1
     = trace st ++ map (Rd instance rIFLAG1) vs ++ [Rd instance rIFLAG1 v] /\
     r = CAN_Receive hw instance mbIndex (Some msg) st1 /\
     (fst (fst r) = STATUS_SUCCESS \/ fst r = (STATUS_ERROR, Some msg))).
Proof.
  intros Hi Hinit Hmb n r. subst n r.
  unfold CAN_ReceiveBlocking. rewrite instance_in_range by exact Hi.
  assert (Hget : forall A (k : driver -> M A), bind get k st = k st st)
    by reflexivity.
  rewrite Hget, Hinit. cbn [negb]. rewrite shl32_one by lia.
  fold (u32 (timeoutMs * 1000)).
  destruct (receive_wait_outcomes hw instance mbIndex (2 ^ mbIndex) (Some msg)
              (Z.to_nat (u32 (timeoutMs * 1000))) st)
    as [(Hr & _ & _ & vs & Hn & Hall & Ht)
       |(vs & v & st1 & Hn & Hall & Hv & Ht & Hfl & _ & Hr)].
  - left. split; [exact Hr|]. exists vs. split; [exact Hn|].
    split; [apply Forall_flag_clear; [lia|exact Hall]|exact Ht].
  - right. exists vs, v, st1. split; [exact Hn|].
    split; [apply Forall_flag_clear; [lia|exact Hall]|].
    split.
    { destruct (Z.testbit v mbIndex) eqn:Hb; [reflexivity|].
      exfalso. apply Hv. apply land_pow2_zero; [lia|exact Hb]. }
    split; [exact Ht|]. split; [exact Hr|].
    rewrite Hr.
    assert (Hinit1 : initialized st1 instance = true).
    { unfold initialized in *. rewrite Hfl. exact Hinit. }
    destruct (Z.testbit (IFLAG1 (hw (bank st1 instance))) mbIndex) eqn:Hb.
    + left.
      destruct (CAN_Receive_pending hw st1 instance mbIndex msg Hi Hinit1 Hmb Hb)
        as (cs & idw & d0 & d1 & t1 & t2 & Hres & _).
      rewrite Hres. reflexivity.
    + right.
      apply (CAN_Receive_empty hw st1 instance mbIndex msg Hi Hinit1 Hmb Hb).
Qed.

Lemma ReceiveBlocking_outcomes_witness :
  let r := CAN_ReceiveBlocking hw_idle 0 16 (Some rxMessage0) 5 delivered in
  (fst r = (STATUS_TIMEOUT, Some rxMessage0) /\
   exists vs,
     length vs = 5000%nat /\
     Forall (fun v => Z.testbit v 16 = false) vs /\
     trace (snd r) = trace delivered ++ map (Rd 0 rIFLAG1) vs) \/
  (exists vs v st1,
     (length vs < 5000)%nat /\
     Forall (fun v => Z.testbit v 16 = false) vs /\
     Z.testbit v 16 = true /\
     trace st1
     = trace delivered ++ map (Rd 0 rIFLAG1) vs ++ [Rd 0 rIFLAG1 v] /\
     r = CAN_Receive hw_idle 0 16 (Some rxMessage0) st1 /\
     (fst (fst r) = STATUS_SUCCESS \/ fst r = (STATUS_ERROR, Some rxMessage0))).
Proof.
  apply (ReceiveBlocking_outcomes hw_idle delivered 0 16 rxMessage0 5);
    try reflexivity; lia.
Defined.

Example ReceiveBlocking_delivers :
  fst (CAN_ReceiveBlocking hw_idle 0 16 (Some rxMessage0) 5 delivered)
  = (STATUS_SUCCESS, Some msg_123).
Proof. vm_compute. reflexivity. Qed.

(** X3.  A timeout of 0 ms never waits, whatever the hardware does.
    [CAN_SendBlocking] queues the frame (the five stores of [CAN_Send]) and
    returns [STATUS_TIMEOUT] without loading the flag register once;
    [CAN_ReceiveBlocking] returns [STATUS_TIMEOUT] without any bus access,
    leaving message and driver state as they were, also when a frame is
    pending in the mailbox. *)
Theorem blocking_zero_timeout (hw : CAN_Type -> CAN_Type) (st : driver)
    (instance : Z) (msg : can_message_t) :
  0 <= instance < 3 ->
  initialized st instance = true ->
  (forall mbIndex,
     8 <= mbIndex < 16 -> dataLength msg <= 8 ->
     fst (CAN_SendBlocking hw instance mbIndex (Some msg) 0 st)
     = STATUS_TIMEOUT /\
     trace (snd (CAN_SendBlocking hw instance mbIndex (Some msg) 0 st))
     = trace st ++ send_stores instance mbIndex msg) /\
  (forall mbIndex,
     CAN_ReceiveBlocking hw instance mbIndex (Some msg) 0 st
     = (STATUS_TIMEOUT, Some msg, st)).
Proof.
  intros Hi Hinit. split.
  - intros mbIndex Hmb Hlen.
    destruct (CAN_Send_valid hw st instance mbIndex msg Hi Hinit Hmb Hlen)
      as (Hs & Htr & _ & _).
    unfold CAN_SendBlocking, bind.
    destruct (CAN_Send hw instance mbIndex (Some msg) st) as [s st1].
    cbn [fst snd] in Hs, Htr. subst s. cbn. split; [reflexivity|exact Htr].
  - intros mbIndex. unfold CAN_ReceiveBlocking.
    rewrite instance_in_range by exact Hi.
    assert (Hget : forall A (k : driver -> M A), bind get k st = k st st)
      by reflexivity.
    rewrite Hget, Hinit. reflexivity.
Qed.

Lemma blocking_zero_timeout_witness :
  (forall mbIndex,
     8 <= mbIndex < 16 -> dataLength msg_123 <= 8 ->
     fst (CAN_SendBlocking hw_idle 0 mbIndex (Some msg_123) 0 delivered)
     = STATUS_TIMEOUT /\
     trace (snd (CAN_SendBlocking hw_idle 0 mbIndex (Some msg_123) 0 delivered))
     = trace delivered ++ send_stores 0 mbIndex msg_123) /\
  (forall mbIndex,
     CAN_ReceiveBlocking hw_idle 0 mbIndex (Some msg_123) 0 delivered
     = (STATUS_TIMEOUT, Some msg_123, delivered)).
Proof.
  apply (blocking_zero_timeout hw_idle delivered 0 msg_123); [lia|reflexivity].
Defined.


(** ** The inline packing helpers of can.h *)

Lemma shl32_byte0 (b : Z) : 0 <= b < 256 -> shl32 b 0 = b.
Proof.
  intros H. unfold shl32. rewrite Z.shiftl_0_r. apply u32_small.
  change (2 ^ 32) with 4294967296. lia.
Qed.

Lemma pack_bytes4 (b0 b1 b2 b3 : Z) :
  0 <= b0 < 256 -> 0 <= b1 < 256 -> 0 <= b2 < 256 -> 0 <= b3 < 256 ->
  Z.lor (Z.lor (Z.lor (Z.lor 0 (shl32 b0 24)) (shl32 b1 16)) (shl32 b2 8))
        (shl32 b3 0)
  = bytes_word b0 b1 b2 b3.
Proof.
  intros. rewrite Z.lor_0_l, (shl32_byte0 b3) by assumption.
  apply data_word_value; assumption.
Qed.

Lemma pack_bytes3 (b0 b1 b2 : Z) :
  0 <= b0 < 256 -> 0 <= b1 < 256 -> 0 <= b2 < 256 ->
  Z.lor (Z.lor (Z.lor 0 (shl32 b0 24)) (shl32 b1 16)) (shl32 b2 8)
  = bytes_word b0 b1 b2 0.
Proof.
  intros. rewrite <- (pack_bytes4 b0 b1 b2 0) by (assumption || lia).
  change (shl32 0 0) with 0. rewrite Z.lor_0_r. reflexivity.
Qed.

Lemma pack_bytes2 (b0 b1 : Z) :
  0 <= b0 < 256 -> 0 <= b1 < 256 ->
  Z.lor (Z.lor 0 (shl32 b0 24)) (shl32 b1 16) = bytes_word b0 b1 0 0.
Proof.
  intros. rewrite <- (pack_bytes3 b0 b1 0) by (assumption || lia).
  change (shl32 0 8) with 0. rewrite Z.lor_0_r. reflexivity.
Qed.

Lemma pack_bytes1 (b0 : Z) :
  0 <= b0 < 256 -> Z.lor 0 (shl32 b0 24) = bytes_word b0 0 0 0.
Proof.
  intros. rewrite <- (pack_bytes2 b0 0) by (assumption || lia).
  change (shl32 0 16) with 0. rewrite Z.lor_0_r. reflexivity.
Qed.

(** [(uint8_t)(word >> s)] for the four byte positions. *)
Lemma bytes_word_unpack (b0 b1 b2 b3 : Z) :
  0 <= b0 < 256 -> 0 <= b1 < 256 -> 0 <= b2 < 256 -> 0 <= b3 < 256 ->
  u8 (Z.shiftr (bytes_word b0 b1 b2 b3) 24) = b0 /\
  u8 (Z.shiftr (bytes_word b0 b1 b2 b3) 16) = b1 /\
  u8 (Z.shiftr (bytes_word b0 b1 b2 b3) 8) = b2 /\
  u8 (Z.shiftr (bytes_word b0 b1 b2 b3) 0) = b3.
Proof.
  intros H0 H1 H2 H3. unfold u8, bytes_word.
  rewrite !Z.shiftr_div_pow2 by lia.
  change (2 ^ 24) with 16777216. change (2 ^ 16) with 65536.
  change (2 ^ 8) with 256. change (2 ^ 0) with 1.
  repeat split; Z.div_mod_to_equations; lia.
Qed.

(** The first word packed from [length] bytes is the number of the bytes
    below [length], the others taken as 0. *)
Lemma pack_word (start top length : Z) (b0 b1 b2 b3 : Z) (d : list Z) :
  0 <= b0 < 256 -> 0 <= b1 < 256 -> 0 <= b2 < 256 -> 0 <= b3 < 256 ->
  (start = 0 /\ top = 24 \/ start = 4 /\ top = 56) ->
  d !!! Z.to_nat start = b0 -> d !!! Z.to_nat (start + 1) = b1 ->
  d !!! Z.to_nat (start + 2) = b2 -> d !!! Z.to_nat (start + 3) = b3 ->
  pack_loop 4 start (start + 4) length top d 0
  = bytes_word (if start <? length then b0 else 0)
               (if start + 1 <? length then b1 else 0)
               (if start + 2 <? length then b2 else 0)
               (if start + 3 <? length then b3 else 0).
Proof.
  intros H0 H1 H2 H3 Hst E0 E1 E2 E3.
  assert (Hsh : forall i, 0 <= i < 4 ->
            u32 (top - u32 ((start + i) * 8)) = 24 - 8 * i).
  { intros i Hi. destruct Hst as [[-> ->]|[-> ->]];
      assert (Hc : i = 0 \/ i = 1 \/ i = 2 \/ i = 3) by lia;
      destruct Hc as [->|[->|[->| ->]]]; reflexivity. }
  cbn [pack_loop].
  replace (start + 1 + 1) with (start + 2) by lia.
  replace (start + 2 + 1) with (start + 3) by lia.
  pose proof (Hsh 0) as S0. pose proof (Hsh 1) as S1.
  pose proof (Hsh 2) as S2. pose proof (Hsh 3) as S3.
  rewrite Z.add_0_r in S0.
  rewrite S0, S1, S2, S3, E0, E1, E2, E3 by lia.
  change (24 - 8 * 0) with 24. change (24 - 8 * 1) with 16.
  change (24 - 8 * 2) with 8. change (24 - 8 * 3) with 0.
  assert (Hlt : forall i, (start + i <? start + 4) = true \/ 4 <= i).
  { intros i. destruct (Z.ltb_spec (start + i) (start + 4)); [left|right];
      [reflexivity|lia]. }
  replace (start <? start + 4) with true by (symmetry; apply Z.ltb_lt; lia).
  replace (start + 1 <? start + 4) with true
    by (symmetry; apply Z.ltb_lt; lia).
  replace (start + 2 <? start + 4) with true
    by (symmetry; apply Z.ltb_lt; lia).
  replace (start + 3 <? start + 4) with true
    by (symmetry; apply Z.ltb_lt; lia).
  rewrite !andb_true_r.
  destruct (Z.ltb_spec start length) as [L0|L0].
  2:{ replace (start + 1 <? length) with false
        by (symmetry; apply Z.ltb_ge; lia).
      replace (start + 2 <? length) with false
        by (symmetry; apply Z.ltb_ge; lia).
      replace (start + 3 <? length) with false
        by (symmetry; apply Z.ltb_ge; lia).
      reflexivity. }
  destruct (Z.ltb_spec (start + 1) length) as [L1|L1].
  2:{ replace (start + 2 <? length) with false
        by (symmetry; apply Z.ltb_ge; lia).
      replace (start + 3 <? length) with false
        by (symmetry; apply Z.ltb_ge; lia).
      apply pack_bytes1; assumption. }
  destruct (Z.ltb_spec (start + 2) length) as [L2|L2].
  2:{ replace (start + 3 <? length) with false
        by (symmetry; apply Z.ltb_ge; lia).
      apply pack_bytes2; assumption. }
  destruct (Z.ltb_spec (start + 3) length) as [L3|L3].
  - apply pack_bytes4; assumption.
  - apply pack_bytes3; assumption.
Qed.

(** The bytes the two unpacking loops store into [dest], from the words
    of the bytes [b0..b7]. *)
Lemma unpack_words (length : Z) (b0 b1 b2 b3 b4 b5 b6 b7 : Z)
    (e0 e1 e2 e3 e4 e5 e6 e7 : Z) :
  0 <= b0 < 256 -> 0 <= b1 < 256 -> 0 <= b2 < 256 -> 0 <= b3 < 256 ->
  0 <= b4 < 256 -> 0 <= b5 < 256 -> 0 <= b6 < 256 -> 0 <= b7 < 256 ->
  0 <= length <= 8 ->
  unpack_loop 4 4 8 length (bytes_word b4 b5 b6 b7) 56
    (unpack_loop 4 0 4 length (bytes_word b0 b1 b2 b3) 24
       [e0; e1; e2; e3; e4; e5; e6; e7])
  = take (Z.to_nat length) [b0; b1; b2; b3; b4; b5; b6; b7]
    ++ drop (Z.to_nat length) [e0; e1; e2; e3; e4; e5; e6; e7].
Proof.
  intros H0 H1 H2 H3 H4 H5 H6 H7 Hlen.
  destruct (bytes_word_unpack b0 b1 b2 b3 H0 H1 H2 H3) as (U0 & U1 & U2 & U3).
  destruct (bytes_word_unpack b4 b5 b6 b7 H4 H5 H6 H7) as (U4 & U5 & U6 & U7).
  generalize dependent (bytes_word b0 b1 b2 b3).
  generalize dependent (bytes_word b4 b5 b6 b7).
  intros w1 U4 U5 U6 U7 w0 U0 U1 U2 U3.
  pattern length. apply small_cases; [exact Hlen|..];
    cbv -[Z.shiftr u8]; rewrite ?U0, ?U1, ?U2, ?U3, ?U4, ?U5, ?U6, ?U7;
    reflexivity.
Qed.

Lemma pack_loop_clamp (n : nat) (i stop length top : Z) (d : list Z) (w : Z) :
  stop <= 8 -> 8 <= length ->
  pack_loop n i stop length top d w = pack_loop n i stop 8 top d w.
Proof.
  intros Hs Hl. revert i w. induction n as [|n IH]; intros i w; [reflexivity|].
  cbn [pack_loop]. rewrite IH.
  destruct (Z.ltb_spec i stop) as [H|H]; [|rewrite !andb_false_r; reflexivity].
  replace (i <? length) with true by (symmetry; apply Z.ltb_lt; lia).
  replace (i <? 8) with true by (symmetry; apply Z.ltb_lt; lia).
  reflexivity.
Qed.

Lemma unpack_loop_clamp (n : nat) (i stop length word top : Z) (d : list Z) :
  stop <= 8 -> 8 <= length ->
  unpack_loop n i stop length word top d = unpack_loop n i stop 8 word top d.
Proof.
  intros Hs Hl. revert i d. induction n as [|n IH]; intros i d; [reflexivity|].
  cbn [unpack_loop]. rewrite IH.
  destruct (Z.ltb_spec i stop) as [H|H]; [|rewrite !andb_false_r; reflexivity].
  replace (i <? length) with true by (symmetry; apply Z.ltb_lt; lia).
  replace (i <? 8) with true by (symmetry; apply Z.ltb_lt; lia).
  reflexivity.
Qed.

(** Packing [length] bytes of [d] into the two data words and unpacking
    [length] bytes from them into [dest]. *)
Lemma pack_then_unpack (d dest : list Z) (length : Z) :
  byte_array d -> List.length dest = 8%nat -> 0 <= length ->
  unpack_loop 4 4 8 length (pack_loop 4 4 8 length 56 d 0) 56
    (unpack_loop 4 0 4 length (pack_loop 4 0 4 length 24 d 0) 24 dest)
  = take (Z.to_nat length) d ++ drop (Z.to_nat length) dest.
Proof.
  intros [Hlen Hbytes] Hdest Hl.
  destruct d as [|b0 [|b1 [|b2 [|b3 [|b4 [|b5 [|b6 [|b7 [|]]]]]]]]];
    try discriminate Hlen.
  destruct dest as [|e0 [|e1 [|e2 [|e3 [|e4 [|e5 [|e6 [|e7 [|]]]]]]]]];
    try discriminate Hdest.
  repeat match goal with
         | H : Forall _ (_ :: _) |- _ => apply Forall_cons in H; destruct H
         end.
  assert (Hmain : forall len, 0 <= len <= 8 ->
    unpack_loop 4 4 8 len
      (pack_loop 4 4 8 len 56 [b0; b1; b2; b3; b4; b5; b6; b7] 0) 56
      (unpack_loop 4 0 4 len
         (pack_loop 4 0 4 len 24 [b0; b1; b2; b3; b4; b5; b6; b7] 0) 24
         [e0; e1; e2; e3; e4; e5; e6; e7])
    = take (Z.to_nat len) [b0; b1; b2; b3; b4; b5; b6; b7]
      ++ drop (Z.to_nat len) [e0; e1; e2; e3; e4; e5; e6; e7]).
  { intros len Hlen8.
    rewrite (pack_word 0 24 len b0 b1 b2 b3)
      by (assumption || reflexivity || (left; split; reflexivity)).
    rewrite (pack_word 4 56 len b4 b5 b6 b7)
      by (assumption || reflexivity || (right; split; reflexivity)).
    pattern len. apply small_cases; [exact Hlen8|..];
      cbv [Z.ltb Z.add Z.compare Pos.compare Pos.compare_cont Pos.add
           Pos.succ];
      rewrite unpack_words by (assumption || lia); reflexivity. }
  destruct (Z.le_gt_cases length 8) as [Hle|Hgt]; [apply Hmain; lia|].
  rewrite !(pack_loop_clamp 4 _ _ length), !(unpack_loop_clamp 4 _ _ length)
    by lia.
  rewrite Hmain by lia.
  rewrite !take_ge, !drop_ge by (cbn [List.length]; lia). reflexivity.
Qed.

(** ** Register banks under a passive controller *)

Lemma fst_bind {A B} (c : M A) (k : A -> M B) (st : driver) :
  fst (bind c k st) = fst (k (fst (c st)) (snd (c st))).
Proof. unfold bind. destruct (c st). reflexivity. Qed.

Lemma snd_bind {A B} (c : M A) (k : A -> M B) (st : driver) :
  snd (bind c k st) = snd (k (fst (c st)) (snd (c st))).
Proof. unfold bind. destruct (c st). reflexivity. Qed.

Lemma write_reg_wf (r : reg) (v : Z) (b : CAN_Type) :
  bank_wf b -> bank_wf (write_reg r v b).
Proof.
  destruct b, r; unfold bank_wf; cbn; rewrite ?length_insert; tauto.
Qed.

Lemma ram_write_same (i v : Z) (b : CAN_Type) :
  bank_wf b -> 0 <= i < 128 ->
  read_reg (rRAMn i) (write_reg (rRAMn i) v b) = v.
Proof.
  intros [Hram _] Hi. destruct b; cbn in *.
  apply list_lookup_total_insert_eq. lia.
Qed.

Lemma ram_write_other (r : reg) (j v : Z) (b : CAN_Type) :
  (forall i, r = rRAMn i -> Z.to_nat i <> Z.to_nat j) ->
  read_reg (rRAMn j) (write_reg r v b) = read_reg (rRAMn j) b.
Proof.
  intros Hr. destruct b, r; cbn; try reflexivity.
  apply list_lookup_total_insert_ne. apply Hr. reflexivity.
Qed.

Section Idle.

Variable hw : CAN_Type -> CAN_Type.
Hypothesis Hidle : forall b, hw b = b.

Lemma fst_rd (inst : Z) (r : reg) (st : driver) :
  fst (rd hw inst r st) = read_reg r (bank st inst).
Proof. unfold rd, bank. cbn. rewrite Hidle. reflexivity. Qed.

Lemma bank_rd (inst : Z) (r : reg) (st : driver) (i : Z) :
  bank (snd (rd hw inst r st)) i = bank st i.
Proof.
  unfold rd, bank, upd_bank. cbn. rewrite Hidle.
  destruct (Z.eqb_spec i inst) as [->|]; reflexivity.
Qed.

Lemma bank_wr (inst : Z) (r : reg) (v : Z) (st : driver) (i : Z) :
  bank (snd (wr hw inst r v st)) i
  = if i =? inst then write_reg r v (bank st inst) else bank st i.
Proof. unfold wr, bank, upd_bank. cbn. rewrite Hidle. reflexivity. Qed.

Lemma bank_wr_same (inst : Z) (r : reg) (v : Z) (st : driver) :
  bank (snd (wr hw inst r v st)) inst = write_reg r v (bank st inst).
Proof. rewrite bank_wr, Z.eqb_refl. reflexivity. Qed.

End Idle.

(** X4.  [CAN_CopyDataToMb] followed by [CAN_CopyDataFromMb] on the same
    mailbox of a passive controller, with the same length: the
    destination array holds the first [length] source bytes and, beyond
    them, what it held before; the control-status and identifier words of
    the mailbox are as before.  A [length] above 8 copies all 8 bytes. *)
Theorem copy_data_roundtrip (hw : CAN_Type -> CAN_Type) (st : driver)
    (inst mb : Z) (d dest : list Z) (length : Z) :
  (forall b, hw b = b) ->
  bank_wf (bank st inst) ->
  0 <= mb < 32 ->
  byte_array d -> List.length dest = 8%nat -> 0 <= length ->
  let st1 := snd (CAN_CopyDataToMb hw inst mb d length st) in
  fst (CAN_CopyDataFromMb hw inst mb dest length st1)
  = take (Z.to_nat length) d ++ drop (Z.to_nat length) dest /\
  read_reg (rRAMn (mb * 4)) (bank st1 inst)
  = read_reg (rRAMn (mb * 4)) (bank st inst) /\
  read_reg (rRAMn (mb * 4 + 1)) (bank st1 inst)
  = read_reg (rRAMn (mb * 4 + 1)) (bank st inst).
Proof.
  intros Hidle Hwf Hmb Hd Hdest Hl st1. subst st1.
  unfold CAN_CopyDataToMb, CAN_CopyDataFromMb, CAN_WriteMbData,
    CAN_ReadMbData.
  rewrite mb_offset by exact Hmb.
  rewrite Z.add_0_r. replace (mb * 4 + 2 + 1) with (mb * 4 + 3) by lia.
  rewrite !snd_bind, !fst_bind.
  set (w0 := pack_loop 4 0 4 length 24 d 0).
  set (w1 := pack_loop 4 4 8 length 56 d 0).
  set (s1 := snd (wr hw inst (rRAMn (mb * 4 + 2)) w0 st)).
  set (s2 := snd (wr hw inst (rRAMn (mb * 4 + 3)) w1 s1)).
  assert (B2 : bank s2 inst
               = write_reg (rRAMn (mb * 4 + 3)) w1
                   (write_reg (rRAMn (mb * 4 + 2)) w0 (bank st inst))).
  { unfold s2, s1. rewrite !bank_wr_same by exact Hidle. reflexivity. }
  assert (Hother : forall j, 0 <= j -> j <> mb * 4 + 2 -> j <> mb * 4 + 3 ->
            read_reg (rRAMn j) (bank s2 inst)
            = read_reg (rRAMn j) (bank st inst)).
  { intros j Hj H2 H3. rewrite B2.
    rewrite !ram_write_other; [reflexivity|..];
      intros i Hi; injection Hi as <-; lia. }
  split; [|split; apply Hother; lia].
  rewrite !fst_rd by exact Hidle. cbn [ret fst].
  rewrite bank_rd by exact Hidle.
  replace (read_reg (rRAMn (mb * 4 + 3)) (bank s2 inst)) with w1.
  2:{ rewrite B2. symmetry. apply ram_write_same; [|lia].
      apply write_reg_wf. exact Hwf. }
  replace (read_reg (rRAMn (mb * 4 + 2)) (bank s2 inst)) with w0.
  2:{ rewrite B2. rewrite ram_write_other
        by (intros i Hi; injection Hi as <-; lia).
      symmetry. apply ram_write_same; [exact Hwf|lia]. }
  apply pack_then_unpack; assumption.
Qed.

Lemma copy_data_roundtrip_witness :
  let st1 := snd (CAN_CopyDataToMb hw_idle 0 16 [1; 2; 3; 4; 5; 6; 7; 8] 3
                    ready) in
  fst (CAN_CopyDataFromMb hw_idle 0 16 [9; 9; 9; 9; 9; 9; 9; 9] 3 st1)
  = [1; 2; 3; 9; 9; 9; 9; 9] /\
  read_reg (rRAMn (16 * 4)) (bank st1 0)
  = read_reg (rRAMn (16 * 4)) (bank ready 0) /\
  read_reg (rRAMn (16 * 4 + 1)) (bank st1 0)
  = read_reg (rRAMn (16 * 4 + 1)) (bank ready 0).
Proof.
  apply (copy_data_roundtrip hw_idle ready 0 16 [1; 2; 3; 4; 5; 6; 7; 8]
           [9; 9; 9; 9; 9; 9; 9; 9] 3).
  - reflexivity.
  - split; reflexivity.
  - lia.
  - split; [reflexivity|]. repeat constructor; lia.
  - reflexivity.
  - lia.
Defined.

(** ** The handler's view of a transmitted frame *)

Section Delivery.

Variable hw : CAN_Type -> CAN_Type.
Hypothesis Hidle : forall b, hw b = b.

(** The callback invoked for a receive-full mailbox holding the words
    [cs], [idw], [d0], [d1]. *)
Lemma irq_service_rx_event (st : driver) (instance idx k cs idw d0 d1 : Z) :
  0 <= k < 32 ->
  mailbox_holds (bank st idx) k cs idw d0 d1 ->
  cs_code cs = CAN_CS_CODE_RX_FULL ->
  last (trace (snd (irq_service hw instance idx k st)))
  = Some (Call (callback st idx) instance CAN_EVENT_RX_COMPLETE
            (EventData k (Some (handler_message cs idw d0 d1)) 0)).
Proof.
  unfold handler_message. cbv zeta.
  intros Hk (M0 & M1 & M2 & M3) Hcode.
  open_state st.
  destruct (irq_service _ _ _ _ _) as [u st'] eqn:E. cbn [snd].
  unfold irq_service, CAN_ReadMbCs, CAN_ReadMbId, CAN_CopyDataFromMb,
    CAN_ReadMbData, CAN_WriteMbCs in E.
  rewrite mb_offset, shl32_one in E by exact Hk.
  rewrite !Z.add_0_r in E.
  replace (k * 4 + 2 + 1) with (k * 4 + 3) in E by lia.
  unfold bind at 1 in E. unfold rd at 1 in E. cbn [banks] in E.
  rewrite Hidle, M0 in E.
  change (Z.shiftr (Z.land cs CAN_CS_CODE_MASK) CAN_CS_CODE_SHIFT)
    with (cs_code cs) in E.
  rewrite Hcode in E.
  change (u8 CAN_CS_CODE_RX_FULL =? CAN_CS_CODE_TX_INACTIVE) with false in E.
  change (u8 CAN_CS_CODE_RX_FULL =? CAN_CS_CODE_RX_FULL) with true in E.
  cbv iota in E.
  destruct (negb (Z.land cs CAN_WMBn_CS_IDE_MASK =? 0));
    run_monad in E; simpl_event in E; run_monad in E;
    unfold upd_bank in E;
    repeat (progress rewrite ?Z.eqb_refl, ?Hidle in E);
    rewrite M1, M2, M3 in E;
    apply pair_snd in E; subst st'; cbn [bus callback s_canCallbacks];
    rewrite trace_cons; apply last_snoc.
Qed.

End Delivery.

Lemma send_data_words (m : can_message_t) (b0 b1 b2 b3 b4 b5 b6 b7 : Z) :
  data m = [b0; b1; b2; b3; b4; b5; b6; b7] ->
  Forall (fun b => 0 <= b < 256) (data m) ->
  send_data0 m = bytes_word b0 b1 b2 b3 /\
  send_data1 m = bytes_word b4 b5 b6 b7.
Proof.
  intros Hd Hb. rewrite Hd in Hb.
  repeat match goal with
         | H : Forall _ (_ :: _) |- _ => apply Forall_cons in H; destruct H
         end.
  unfold send_data0, send_data1, data_at. rewrite Hd. cbn [lookup_total
    list_lookup_total].
  split; apply data_word_value; assumption.
Qed.

(** The callback of the handler when the lowest pending mailbox is
    receive-full. *)
Lemma handler_rx_event (hw : CAN_Type -> CAN_Type) (st : driver)
    (instance idx k cs idw d0 d1 : Z) :
  (forall b, hw b = b) ->
  CAN_GetInstanceIndex instance = idx ->
  idx <> 0xFF ->
  callback st idx <> NULL ->
  lowest_pending (IFLAG1 (bank st idx)) k ->
  mailbox_holds (bank st idx) k cs idw d0 d1 ->
  cs_code cs = CAN_CS_CODE_RX_FULL ->
  last (trace (snd (CAN_IRQHandler hw instance st)))
  = Some (Call (callback st idx) instance CAN_EVENT_RX_COMPLETE
            (EventData k (Some (handler_message cs idw d0 d1)) 0)).
Proof.
  intros Hidle Hidx Hknown Hcb Hlow Hmb Hcode.
  pose proof Hlow as (Hk & _ & _).
  rewrite (irq_handler_dispatch hw st instance idx k)
    by (try rewrite Hidle; assumption).
  destruct (rd_flags_state hw st idx) as (_ & Hbank & Hcall).
  set (st1 := snd (rd hw idx rIFLAG1 st)) in *.
  rewrite Hidle in Hbank.
  rewrite (irq_service_rx_event hw Hidle st1 instance idx k cs idw d0 d1 Hk)
    by (rewrite ?Hbank; assumption).
  rewrite Hcall. reflexivity.
Qed.

(** What the handler makes of the words of a transmitted frame: the
    frame, cut to its data length. *)
Lemma sent_frame_decoded (cs : Z) (m : can_message_t) :
  same_frame_fields cs (send_cs m) ->
  byte_array (data m) ->
  0 <= dataLength m <= 8 ->
  (idType m = CAN_ID_STD -> 0 <= id m <= 0x7FF) ->
  (idType m = CAN_ID_EXT -> 0 <= id m <= 0x1FFFFFFF) ->
  handler_message cs (send_id m) (send_data0 m) (send_data1 m)
  = Message (id m) (idType m) (frameType m) (dataLength m)
            (take (Z.to_nat (dataLength m)) (data m)
             ++ replicate (8 - Z.to_nat (dataLength m)) 0).
Proof.
  intros Hsame [Hlen Hbytes] Hdl Hstd Hext. unfold handler_message.
  destruct Hsame as (Hide & Hrtr & Hdlc).
  destruct (send_cs_fields m Hdl) as (Fide & Frtr & Fdlc).
  rewrite Hide, Hrtr, Hdlc, Fide, Frtr, Fdlc.
  replace (8 <? dataLength m) with false by (symmetry; apply Z.ltb_ge; lia).
  destruct m as [i ty fr len d]. cbn [id idType frameType dataLength data] in *.
  assert (Hid : (if bool_decide (ty = CAN_ID_EXT)
                 then Z.shiftr (Z.land (send_id (Message i ty fr len d))
                                       CAN_ID_EXT_MASK) CAN_ID_EXT_SHIFT
                 else Z.shiftr (Z.land (send_id (Message i ty fr len d))
                                       CAN_ID_STD_MASK) CAN_ID_STD_SHIFT) = i).
  { destruct ty; cbn [bool_decide decide_rel send_id idType id].
    - apply std_id_roundtrip. apply Hstd. reflexivity.
    - apply ext_id_roundtrip. apply Hext. reflexivity. }
  assert (Hty : (if bool_decide (ty = CAN_ID_EXT) then CAN_ID_EXT
                 else CAN_ID_STD) = ty) by (destruct ty; reflexivity).
  assert (Hfr : (if bool_decide (fr = CAN_FRAME_REMOTE) then CAN_FRAME_REMOTE
                 else CAN_FRAME_DATA) = fr) by (destruct fr; reflexivity).
  rewrite Hid, Hty, Hfr. f_equal.
  destruct d as [|b0 [|b1 [|b2 [|b3 [|b4 [|b5 [|b6 [|b7 [|]]]]]]]]];
    try discriminate Hlen.
  destruct (send_data_words (Message i ty fr len [b0; b1; b2; b3; b4; b5; b6; b7])
              b0 b1 b2 b3 b4 b5 b6 b7 eq_refl Hbytes) as [-> ->].
  repeat match goal with
         | H : Forall _ (_ :: _) |- _ => apply Forall_cons in H; destruct H
         end.
  unfold rxMessage0. cbn [data].
  rewrite unpack_words by assumption.
  change [0; 0; 0; 0; 0; 0; 0; 0] with (replicate 8 0).
  rewrite drop_replicate. reflexivity.
Qed.

(** X5.  Let a mailbox hold the identifier and data words [CAN_Send]
    writes for a message [m], with the receive-full code and the flags and
    length of [m] in its control-status word, and let it be the lowest
    pending mailbox of a known controller with a registered callback.  The
    handler then hands the callback the identifier, identifier type, frame
    type and data length of [m], and a payload made of the first
    [dataLength m] bytes of [m] followed by zeros: unlike [CAN_Receive],
    which copies all eight bytes, the handler drops the bytes beyond the
    data length. *)
Theorem irq_delivers_sent_frame (hw : CAN_Type -> CAN_Type) (st : driver)
    (instance idx k cs : Z) (m : can_message_t) :
  (forall b, hw b = b) ->
  CAN_GetInstanceIndex instance = idx ->
  idx <> 0xFF ->
  callback st idx <> NULL ->
  lowest_pending (IFLAG1 (bank st idx)) k ->
  mailbox_holds (bank st idx) k cs (send_id m) (send_data0 m) (send_data1 m) ->
  cs_code cs = CAN_CS_CODE_RX_FULL ->
  same_frame_fields cs (send_cs m) ->
  byte_array (data m) ->
  0 <= dataLength m <= 8 ->
  (idType m = CAN_ID_STD -> 0 <= id m <= 0x7FF) ->
  (idType m = CAN_ID_EXT -> 0 <= id m <= 0x1FFFFFFF) ->
  last (trace (snd (CAN_IRQHandler hw instance st)))
  = Some (Call (callback st idx) instance CAN_EVENT_RX_COMPLETE
            (EventData k
               (Some (Message (id m) (idType m) (frameType m) (dataLength m)
                        (take (Z.to_nat (dataLength m)) (data m)
                         ++ replicate (8 - Z.to_nat (dataLength m)) 0)))
               0)).
Proof.
  intros Hidle Hidx Hknown Hcb Hlow Hmb Hcode Hsame Hbytes Hdl Hstd Hext.
  rewrite (handler_rx_event hw st instance idx k cs (send_id m)
             (send_data0 m) (send_data1 m)) by assumption.
  rewrite sent_frame_decoded by assumption. reflexivity.
Qed.

Lemma irq_delivers_sent_frame_witness :
  let m := Message 0x123 CAN_ID_STD CAN_FRAME_DATA 2 [1; 2; 3; 4; 5; 6; 7; 8] in
  let st :=
    Driver (fun _ => Regs 0 0 0 0 0 0 0x10000 0
                       (<[67%nat := send_data1 m]>
                          (<[66%nat := send_data0 m]>
                             (<[65%nat := send_id m]>
                                (<[64%nat := 0x02420000]> (replicate 128 0)))))
                       (replicate 32 0))
           [true; false; false] [0x8000; NULL; NULL] [] in
  last (trace (snd (CAN_IRQHandler hw_idle CAN0 st)))
  = Some (Call 0x8000 CAN0 CAN_EVENT_RX_COMPLETE
            (EventData 16
               (Some (Message 0x123 CAN_ID_STD CAN_FRAME_DATA 2
                        [1; 2; 0; 0; 0; 0; 0; 0])) 0)).
Proof.
  intros m st.
  apply (irq_delivers_sent_frame hw_idle st CAN0 0 16 0x02420000 m).
  - reflexivity.
  - reflexivity.
  - discriminate.
  - discriminate.
  - split; [lia|]. split; [reflexivity|].
    intros j Hj.
    assert (Hc : j = 0 \/ j = 1 \/ j = 2 \/ j = 3 \/ j = 4 \/ j = 5 \/ j = 6
                 \/ j = 7 \/ j = 8 \/ j = 9 \/ j = 10 \/ j = 11 \/ j = 12
                 \/ j = 13 \/ j = 14 \/ j = 15) by lia.
    repeat (destruct Hc as [->|Hc]; [reflexivity|]). subst. reflexivity.
  - repeat split; reflexivity.
  - reflexivity.
  - repeat split; reflexivity.
  - split; [reflexivity|]. repeat constructor; lia.
  - simpl. lia.
  - intros _. simpl. lia.
  - intros _. simpl. lia.
Defined.

(** ** Operations in sequence *)

(** The registers and tables after a successful [CAN_Receive], under a
    passive controller: only the two flag-clearing stores change them. *)
Lemma CAN_Receive_pending_state (hw : CAN_Type -> CAN_Type) (st : driver)
    (inst rx : Z) (out : can_message_t) :
  (forall b, hw b = b) ->
  0 <= inst < 3 ->
  initialized st inst = true ->
  16 <= rx < 32 ->
  Z.testbit (IFLAG1 (bank st inst)) rx = true ->
  let st' := snd (CAN_Receive hw inst rx (Some out) st) in
  bank st' inst
  = write_reg rIFLAG1 (2 ^ rx) (write_reg rIFLAG1 (2 ^ rx) (bank st inst)) /\
  s_canInitialized st' = s_canInitialized st /\
  s_canCallbacks st' = s_canCallbacks st.
Proof.
  intros Hidle Hi Hinit Hrx Hflag. open_state st.
  destruct (CAN_Receive _ _ _ _ _) as [res st'] eqn:E.
  unfold CAN_Receive in E. rewrite instance_in_range in E by exact Hi.
  unfold bind at 1 in E. unfold get, initialized in E.
  cbn [s_canInitialized] in E.
  rewrite Hinit, rx_mb_in_range in E by exact Hrx. cbn [negb] in E.
  unfold bind at 1 in E. unfold rd at 1 in E. cbn [banks read_reg] in E.
  rewrite Hidle in E.
  assert (Htest : (Z.land (IFLAG1 (bk inst)) (shl32 1 rx) =? 0) = false).
  { rewrite <- (negb_involutive (_ =? 0)), flag_test, Hflag by lia.
    reflexivity. }
  rewrite Htest, shl32_one in E by lia.
  run_monad in E. apply pair_snd in E. subst st'.
  cbn [snd banks s_canInitialized s_canCallbacks]. unfold upd_bank.
  repeat (progress rewrite ?Z.eqb_refl, ?Hidle). repeat split.
Qed.

(** X6.  A successful [CAN_Receive] consumes the pending flag: under a
    passive controller a second [CAN_Receive] on the same mailbox reports
    [STATUS_ERROR] and leaves the caller's message alone, the flags of the
    other mailboxes are as before, and the mailbox RAM is unchanged (the
    receive path does not re-arm the mailbox). *)
Theorem receive_consumes_flag (hw : CAN_Type -> CAN_Type) (st : driver)
    (inst rx : Z) (out out2 : can_message_t) :
  (forall b, hw b = b) ->
  0 <= inst < 3 ->
  initialized st inst = true ->
  16 <= rx < 32 ->
  Z.testbit (IFLAG1 (bank st inst)) rx = true ->
  let r := CAN_Receive hw inst rx (Some out) st in
  fst (fst r) = STATUS_SUCCESS /\
  fst (CAN_Receive hw inst rx (Some out2) (snd r))
  = (STATUS_ERROR, Some out2) /\
  (forall j, 0 <= j < 32 -> j <> rx ->
     Z.testbit (IFLAG1 (bank (snd r) inst)) j
     = Z.testbit (IFLAG1 (bank st inst)) j) /\
  RAMn (bank (snd r) inst) = RAMn (bank st inst).
Proof.
  intros Hidle Hi Hinit Hrx Hflag r. subst r.
  destruct (CAN_Receive_pending hw st inst rx out Hi Hinit Hrx)
    as (cs & idw & d0 & d1 & t1 & t2 & Hres & _ & _).
  { rewrite Hidle. exact Hflag. }
  destruct (CAN_Receive_pending_state hw st inst rx out Hidle Hi Hinit Hrx
              Hflag) as (Hbank & Hfl & _).
  set (st' := snd (CAN_Receive hw inst rx (Some out) st)) in *.
  assert (Hbits : forall j, 0 <= j < 32 ->
            Z.testbit (IFLAG1 (bank st' inst)) j
            = Z.testbit (IFLAG1 (bank st inst)) j && negb (j =? rx)).
  { intros j Hj. rewrite Hbank, !IFLAG1_write_reg.
    rewrite <- (shl32_one rx) by lia. rewrite !w1c_bit by lia.
    destruct (Z.testbit _ j), (j =? rx); reflexivity. }
  split; [rewrite Hres; reflexivity|]. split; [|split].
  - apply CAN_Receive_empty; try assumption.
    + unfold initialized. rewrite Hfl. exact Hinit.
    + rewrite Hidle, Hbits, Z.eqb_refl by lia. apply andb_false_r.
  - intros j Hj Hne. rewrite Hbits by exact Hj.
    apply Z.eqb_neq in Hne. rewrite Hne. apply andb_true_r.
  - rewrite Hbank. destruct (bank st inst). reflexivity.
Qed.

Lemma receive_consumes_flag_witness :
  let r := CAN_Receive hw_idle 0 16 (Some rxMessage0) delivered in
  fst (fst r) = STATUS_SUCCESS /\
  fst (CAN_Receive hw_idle 0 16 (Some rxMessage0) (snd r))
  = (STATUS_ERROR, Some rxMessage0) /\
  (forall j, 0 <= j < 32 -> j <> 16 ->
     Z.testbit (IFLAG1 (bank (snd r) 0)) j
     = Z.testbit (IFLAG1 (bank delivered 0)) j) /\
  RAMn (bank (snd r) 0) = RAMn (bank delivered 0).
Proof.
  apply (receive_consumes_flag hw_idle delivered 0 16 rxMessage0 rxMessage0).
  - reflexivity.
  - lia.
  - reflexivity.
  - lia.
  - reflexivity.
Defined.

(** Rewrite the register bank and result of a sequence of loads and
    stores under a passive controller. *)
Ltac idle_bank Hidle :=
  repeat (progress (cbv beta; cbn [ret fst snd];
    rewrite ?snd_bind, ?fst_bind, ?bank_wr_same, ?bank_rd, ?fst_rd
      by exact Hidle)).

Section Sequences.

Variable hw : CAN_Type -> CAN_Type.
Hypothesis Hidle : forall b, hw b = b.

Lemma ConfigTxMailbox_valid (st : driver) (inst mb : Z) :
  0 <= inst < 3 -> initialized st inst = true -> 8 <= mb < 16 ->
  CAN_ConfigTxMailbox hw inst mb st
  = (wr hw inst (rRAMn (mb * 4)) 0x08000000;;
     set_bits hw inst rIMASK1 (2 ^ mb);;
     ret STATUS_SUCCESS) st.
Proof.
  intros Hi Hinit Hmb. unfold CAN_ConfigTxMailbox.
  rewrite instance_in_range by exact Hi.
  unfold bind at 1. unfold get. rewrite Hinit, tx_mb_in_range by exact Hmb.
  cbn [negb]. rewrite shl32_one by lia. unfold MSG_BUF_SIZE.
  rewrite Z.add_0_r. reflexivity.
Qed.

Lemma ConfigRxFilter_valid (st : driver) (inst mb : Z) (flt : can_rx_filter_t) :
  0 <= inst < 3 -> initialized st inst = true -> 16 <= mb < 32 ->
  CAN_ConfigRxFilter hw inst mb (Some flt) st
  = (wr hw inst (rRAMn (mb * 4 + 1))
        (if decide (filter_idType flt = CAN_ID_EXT)
         then Z.land (shl32 (filter_id flt) CAN_ID_EXT_SHIFT) CAN_ID_EXT_MASK
         else Z.land (shl32 (filter_id flt) CAN_ID_STD_SHIFT) CAN_ID_STD_MASK);;
     wr hw inst (rRAMn (mb * 4))
        (if decide (filter_idType flt = CAN_ID_EXT)
         then 0x04200000 else 0x04000000);;
     wr hw inst (rRXIMR mb) (filter_mask flt);;
     set_bits hw inst rIMASK1 (2 ^ mb);;
     ret STATUS_SUCCESS) st.
Proof.
  intros Hi Hinit Hmb. unfold CAN_ConfigRxFilter.
  rewrite instance_in_range by exact Hi.
  unfold bind at 1. unfold get. rewrite Hinit, rx_mb_in_range by exact Hmb.
  cbn [negb]. rewrite shl32_one by lia. unfold MSG_BUF_SIZE.
  rewrite Z.add_0_r.
  destruct (decide (filter_idType flt = CAN_ID_EXT)); reflexivity.
Qed.

Lemma Send_valid_steps (st : driver) (inst mb : Z) (msg : can_message_t) :
  0 <= inst < 3 -> initialized st inst = true -> 8 <= mb < 16 ->
  dataLength msg <= 8 ->
  CAN_Send hw inst mb (Some msg) st
  = (wr hw inst rIFLAG1 (2 ^ mb);;
     wr hw inst (rRAMn (mb * 4 + 2)) (send_data0 msg);;
     wr hw inst (rRAMn (mb * 4 + 3)) (send_data1 msg);;
     wr hw inst (rRAMn (mb * 4 + 1)) (send_id msg);;
     wr hw inst (rRAMn (mb * 4)) (send_cs msg);;
     ret STATUS_SUCCESS) st.
Proof.
  intros Hi Hinit Hmb Hdl. unfold CAN_Send.
  rewrite instance_in_range by exact Hi.
  unfold bind at 1. unfold get. rewrite Hinit, tx_mb_in_range by exact Hmb.
  cbn [negb].
  replace (CAN_MAX_DATA_LENGTH <? dataLength msg) with false
    by (symmetry; apply Z.ltb_ge; unfold CAN_MAX_DATA_LENGTH; lia).
  rewrite shl32_one by lia. unfold MSG_BUF_SIZE.
  rewrite Z.add_0_r. reflexivity.
Qed.

Lemma Abort_valid (st : driver) (inst mb : Z) :
  0 <= inst < 3 -> 0 <= mb < 32 ->
  CAN_AbortTransmission hw inst mb st
  = (wr hw inst (rRAMn (mb * 4)) 0x09000000;; ret STATUS_SUCCESS) st.
Proof.
  intros Hi Hmb. unfold CAN_AbortTransmission.
  rewrite instance_in_range by exact Hi.
  replace (CAN_MB_COUNT <=? mb) with false
    by (symmetry; apply Z.leb_gt; unfold CAN_MB_COUNT; lia).
  cbn [orb]. unfold MSG_BUF_SIZE. rewrite Z.add_0_r. reflexivity.
Qed.

(** [CAN_IsMbBusy] reports the activation code of the control-status
    word it loads. *)
Lemma IsMbBusy_valid (st : driver) (inst mb : Z) (b0 : bool) :
  0 <= inst < 3 -> 0 <= mb < 32 ->
  let code := cs_code (read_reg (rRAMn (mb * 4)) (bank st inst)) in
  fst (CAN_IsMbBusy hw inst mb (Some b0) st)
  = (STATUS_SUCCESS,
     Some (negb (code =? CAN_CS_CODE_TX_INACTIVE)
           && negb (code =? CAN_CS_CODE_RX_INACTIVE))).
Proof.
  intros Hi Hmb. unfold CAN_IsMbBusy.
  rewrite instance_in_range by exact Hi.
  replace (CAN_MB_COUNT <=? mb) with false
    by (symmetry; apply Z.leb_gt; unfold CAN_MB_COUNT; lia).
  cbn [orb]. unfold MSG_BUF_SIZE. rewrite Z.add_0_r.
  idle_bank Hidle. reflexivity.
Qed.

End Sequences.

(** ** C5: a message sent and received *)

(** The four words of mailbox [tx] after a successful [CAN_Send], under a
    passive controller. *)
Lemma Send_mailbox_words (hw : CAN_Type -> CAN_Type) (st : driver)
    (inst tx : Z) (m : can_message_t) :
  (forall b, hw b = b) ->
  bank_wf (bank st inst) ->
  0 <= inst < 3 ->
  initialized st inst = true ->
  8 <= tx < 16 ->
  dataLength m <= 8 ->
  fst (CAN_Send hw inst tx (Some m) st) = STATUS_SUCCESS /\
  mailbox_holds (bank (snd (CAN_Send hw inst tx (Some m) st)) inst) tx
    (send_cs m) (send_id m) (send_data0 m) (send_data1 m).
Proof.
  intros Hidle Hwf Hi Hinit Htx Hdl.
  rewrite (Send_valid_steps hw) by assumption.
  split; [idle_bank Hidle; reflexivity|].
  unfold mailbox_holds. idle_bank Hidle.
  assert (Hw : forall r v, bank_wf (write_reg r v (bank st inst)))
    by (intros; apply write_reg_wf; exact Hwf).
  repeat split.
  - apply ram_write_same; [repeat apply write_reg_wf; exact Hwf|lia].
  - rewrite ram_write_other by (intros i [= <-]; lia).
    apply ram_write_same; [repeat apply write_reg_wf; exact Hwf|lia].
  - rewrite !ram_write_other by (intros i [= <-]; lia).
    apply ram_write_same; [repeat apply write_reg_wf; exact Hwf|lia].
  - rewrite 2!ram_write_other by (intros i [= <-]; lia).
    apply ram_write_same; [repeat apply write_reg_wf; exact Hwf|lia].
Qed.

(** C5.  For a message with a standard identifier of at most 0x7FF or an
    extended identifier of at most 0x1FFFFFFF and a data length of at most
    8, [CAN_Send] on a transmit mailbox of a passive controller succeeds,
    and the four words the mailbox then holds (control-status, identifier
    and the two data words), decoded the way [CAN_Receive] decodes a
    mailbox, give the message itself: same identifier, identifier type,
    frame type and data length, and the same eight payload bytes.  And
    when a pending receive mailbox holds the identifier word and the data
    words of that transmit mailbox, and a control-status word with its IDE
    and RTR flags and its length (the controller sets the code and the
    time stamp on reception), [CAN_Receive] succeeds and returns the
    message. *)
Theorem pack_unpack_roundtrip (hw : CAN_Type -> CAN_Type) (st : driver)
    (inst tx : Z) (m : can_message_t) :
  (forall b, hw b = b) ->
  bank_wf (bank st inst) ->
  0 <= inst < 3 ->
  initialized st inst = true ->
  8 <= tx < 16 ->
  byte_array (data m) ->
  0 <= dataLength m <= 8 ->
  (idType m = CAN_ID_STD -> 0 <= id m <= 0x7FF) ->
  (idType m = CAN_ID_EXT -> 0 <= id m <= 0x1FFFFFFF) ->
  let sent := bank (snd (CAN_Send hw inst tx (Some m) st)) inst in
  let word k := read_reg (rRAMn (tx * 4 + k)) sent in
  fst (CAN_Send hw inst tx (Some m) st) = STATUS_SUCCESS /\
  recv_message (word 0) (word 1) (word 2) (word 3) = m /\
  forall (hw' : CAN_Type -> CAN_Type) (st' : driver) (inst' rx : Z)
         (out : can_message_t),
    (forall b, hw' b = b) ->
    0 <= inst' < 3 ->
    initialized st' inst' = true ->
    16 <= rx < 32 ->
    Z.testbit (IFLAG1 (bank st' inst')) rx = true ->
    same_frame_fields (read_reg (rRAMn (rx * 4)) (bank st' inst')) (word 0) ->
    read_reg (rRAMn (rx * 4 + 1)) (bank st' inst') = word 1 ->
    read_reg (rRAMn (rx * 4 + 2)) (bank st' inst') = word 2 ->
    read_reg (rRAMn (rx * 4 + 3)) (bank st' inst') = word 3 ->
    fst (CAN_Receive hw' inst' rx (Some out) st') = (STATUS_SUCCESS, Some m).
Proof.
  intros Hidle Hwf Hi Hinit Htx Hbytes Hdl Hstd Hext sent word.
  destruct (Send_mailbox_words hw st inst tx m Hidle Hwf Hi Hinit Htx)
    as (Hok & W0 & W1 & W2 & W3); [lia|].
  pose proof (send_words_decode m Hbytes Hdl Hstd Hext) as Hpure.
  assert (H0 : word 0 = send_cs m)
    by (unfold word, sent; rewrite Z.add_0_r; exact W0).
  assert (H1 : word 1 = send_id m) by exact W1.
  assert (H2 : word 2 = send_data0 m) by exact W2.
  assert (H3 : word 3 = send_data1 m) by exact W3.
  split; [exact Hok|]. split; [rewrite H0, H1, H2, H3; exact Hpure|].
  intros hw' st' inst' rx out Hidle' Hi' Hinit' Hrx Hflag Hcs M1 M2 M3.
  destruct (CAN_Receive_pending hw' st' inst' rx out Hi' Hinit' Hrx)
    as (cs' & idw & d0 & d1 & t1 & t2 & Hres & _ & Hheld).
  { rewrite Hidle'. exact Hflag. }
  destruct (Hheld Hidle') as (R0 & R1 & R2 & R3).
  rewrite Hres. f_equal. f_equal.
  rewrite <- R0, <- R1, <- R2, <- R3, M1, M2, M3, H1, H2, H3.
  rewrite (recv_message_cs_fields _ (send_cs m))
    by (rewrite <- H0; exact Hcs).
  exact Hpure.
Qed.

Lemma pack_unpack_roundtrip_witness :
  let sent := bank (snd (CAN_Send hw_idle 0 8 (Some msg_123) ready)) 0 in
  let word k := read_reg (rRAMn (8 * 4 + k)) sent in
  fst (CAN_Send hw_idle 0 8 (Some msg_123) ready) = STATUS_SUCCESS /\
  recv_message (word 0) (word 1) (word 2) (word 3) = msg_123 /\
  fst (CAN_Receive hw_idle 0 16 (Some rxMessage0) delivered)
  = (STATUS_SUCCESS, Some msg_123).
Proof.
  destruct (pack_unpack_roundtrip hw_idle ready 0 8 msg_123)
    as (Hsend & Hwords & Hrecv).
  - reflexivity.
  - split; reflexivity.
  - lia.
  - reflexivity.
  - lia.
  - split; [reflexivity|]. repeat constructor; lia.
  - simpl. lia.
  - intros _. simpl. lia.
  - intros _. simpl. lia.
  - split; [exact Hsend|]. split; [exact Hwords|].
    apply (Hrecv hw_idle delivered 0 16 rxMessage0).
    + reflexivity.
    + lia.
    + reflexivity.
    + lia.
    + reflexivity.
    + repeat split; reflexivity.
    + reflexivity.
    + reflexivity.
    + reflexivity.
Defined.

(** X7.  What [CAN_IsMbBusy] reports right after another operation on the
    same mailbox, under a passive controller: not busy after
    [CAN_ConfigTxMailbox]; busy after a successful [CAN_Send], after
    [CAN_AbortTransmission] (the abort code is neither of the two inactive
    codes) and after [CAN_ConfigRxFilter] (an armed, empty receive mailbox
    counts as busy). *)
Theorem busy_after (hw : CAN_Type -> CAN_Type) (st : driver) (inst : Z)
    (b0 : bool) :
  (forall b, hw b = b) ->
  bank_wf (bank st inst) ->
  0 <= inst < 3 ->
  initialized st inst = true ->
  (forall mb, 8 <= mb < 16 ->
     fst (CAN_IsMbBusy hw inst mb (Some b0)
            (snd (CAN_ConfigTxMailbox hw inst mb st)))
     = (STATUS_SUCCESS, Some false)) /\
  (forall mb msg, 8 <= mb < 16 -> 0 <= dataLength msg <= 8 ->
     fst (CAN_IsMbBusy hw inst mb (Some b0)
            (snd (CAN_Send hw inst mb (Some msg) st)))
     = (STATUS_SUCCESS, Some true)) /\
  (forall mb, 0 <= mb < 32 ->
     fst (CAN_IsMbBusy hw inst mb (Some b0)
            (snd (CAN_AbortTransmission hw inst mb st)))
     = (STATUS_SUCCESS, Some true)) /\
  (forall mb flt, 16 <= mb < 32 ->
     fst (CAN_IsMbBusy hw inst mb (Some b0)
            (snd (CAN_ConfigRxFilter hw inst mb (Some flt) st)))
     = (STATUS_SUCCESS, Some true)).
Proof.
  intros Hidle Hwf Hi Hinit.
  assert (Hcs : forall mb v r w b, 0 <= mb < 32 -> bank_wf b ->
            (forall i, r = rRAMn i -> Z.to_nat i <> Z.to_nat (mb * 4)) ->
            read_reg (rRAMn (mb * 4))
              (write_reg r w (write_reg (rRAMn (mb * 4)) v b)) = v).
  { intros mb v r w b Hmb Hb Hr. rewrite ram_write_other by exact Hr.
    apply ram_write_same; [exact Hb|lia]. }
  split; [|split; [|split]].
  - intros mb Hmb. rewrite (IsMbBusy_valid hw Hidle) by lia.
    rewrite (ConfigTxMailbox_valid hw) by assumption.
    unfold set_bits. idle_bank Hidle.
    rewrite Hcs; [reflexivity|lia|exact Hwf|discriminate].
  - intros mb msg Hmb Hdl. rewrite (IsMbBusy_valid hw Hidle) by lia.
    rewrite (Send_valid_steps hw) by (assumption || lia).
    idle_bank Hidle.
    rewrite ram_write_same by (repeat apply write_reg_wf; assumption || lia).
    rewrite send_cs_code by exact Hdl. reflexivity.
  - intros mb Hmb. rewrite (IsMbBusy_valid hw Hidle) by lia.
    rewrite (Abort_valid hw) by assumption.
    idle_bank Hidle.
    rewrite ram_write_same by (assumption || lia). reflexivity.
  - intros mb flt Hmb. rewrite (IsMbBusy_valid hw Hidle) by lia.
    rewrite (ConfigRxFilter_valid hw) by assumption.
    unfold set_bits. idle_bank Hidle.
    rewrite ram_write_other by discriminate.
    rewrite Hcs;
      [|lia|apply write_reg_wf; exact Hwf|discriminate].
    destruct (decide (filter_idType flt = CAN_ID_EXT)); reflexivity.
Qed.


Lemma busy_after_witness :
  (forall mb, 8 <= mb < 16 ->
     fst (CAN_IsMbBusy hw_idle 0 mb (Some true)
            (snd (CAN_ConfigTxMailbox hw_idle 0 mb ready)))
     = (STATUS_SUCCESS, Some false)) /\
  (forall mb msg, 8 <= mb < 16 -> 0 <= dataLength msg <= 8 ->
     fst (CAN_IsMbBusy hw_idle 0 mb (Some true)
            (snd (CAN_Send hw_idle 0 mb (Some msg) ready)))
     = (STATUS_SUCCESS, Some true)) /\
  (forall mb, 0 <= mb < 32 ->
     fst (CAN_IsMbBusy hw_idle 0 mb (Some true)
            (snd (CAN_AbortTransmission hw_idle 0 mb ready)))
     = (STATUS_SUCCESS, Some true)) /\
  (forall mb flt, 16 <= mb < 32 ->
     fst (CAN_IsMbBusy hw_idle 0 mb (Some true)
            (snd (CAN_ConfigRxFilter hw_idle 0 mb (Some flt) ready)))
     = (STATUS_SUCCESS, Some true)).
Proof.
  apply (busy_after hw_idle ready 0 true).
  - reflexivity.
  - split; reflexivity.
  - lia.
  - reflexivity.
Defined.

Lemma IMASK1_write_reg (r : reg) (v : Z) (b : CAN_Type) :
  IMASK1 (write_reg r v b)
  = match r with rIMASK1 => v | _ => IMASK1 b end.
Proof. destruct b, r; reflexivity. Qed.

Lemma lor_pow2_bit (x k j : Z) :
  0 <= k -> 0 <= j ->
  Z.testbit (Z.lor x (2 ^ k)) j = Z.testbit x j || (j =? k).
Proof.
  intros Hk Hj. rewrite Z.lor_spec, Z.pow2_bits_eqb by lia.
  rewrite (Z.eqb_sym k j). reflexivity.
Qed.

(** X8.  Configuring a mailbox enables its interrupt and no other:
    after a successful [CAN_ConfigTxMailbox] or [CAN_ConfigRxFilter] of
    mailbox [mb], under a passive controller, bit [mb] of [IMASK1] is set
    and every other bit is as before, so the interrupts enabled by
    earlier configurations stay enabled. *)
Theorem config_enables_interrupt (hw : CAN_Type -> CAN_Type) (st : driver)
    (inst : Z) :
  (forall b, hw b = b) ->
  0 <= inst < 3 ->
  initialized st inst = true ->
  (forall mb j, 8 <= mb < 16 -> 0 <= j ->
     fst (CAN_ConfigTxMailbox hw inst mb st) = STATUS_SUCCESS /\
     Z.testbit (IMASK1 (bank (snd (CAN_ConfigTxMailbox hw inst mb st)) inst)) j
     = Z.testbit (IMASK1 (bank st inst)) j || (j =? mb)) /\
  (forall mb flt j, 16 <= mb < 32 -> 0 <= j ->
     fst (CAN_ConfigRxFilter hw inst mb (Some flt) st) = STATUS_SUCCESS /\
     Z.testbit
       (IMASK1 (bank (snd (CAN_ConfigRxFilter hw inst mb (Some flt) st)) inst))
       j
     = Z.testbit (IMASK1 (bank st inst)) j || (j =? mb)).
Proof.
  intros Hidle Hi Hinit. split.
  - intros mb j Hmb Hj.
    rewrite (ConfigTxMailbox_valid hw) by assumption.
    unfold set_bits. idle_bank Hidle. split; [reflexivity|].
    cbn [read_reg]. rewrite !IMASK1_write_reg. apply lor_pow2_bit; lia.
  - intros mb flt j Hmb Hj.
    rewrite (ConfigRxFilter_valid hw) by assumption.
    unfold set_bits. idle_bank Hidle. split; [reflexivity|].
    cbn [read_reg]. rewrite !IMASK1_write_reg. apply lor_pow2_bit; lia.
Qed.

Lemma config_enables_interrupt_witness :
  (forall mb j, 8 <= mb < 16 -> 0 <= j ->
     fst (CAN_ConfigTxMailbox hw_idle 0 mb filtered) = STATUS_SUCCESS /\
     Z.testbit
       (IMASK1 (bank (snd (CAN_ConfigTxMailbox hw_idle 0 mb filtered)) 0)) j
     = Z.testbit (IMASK1 (bank filtered 0)) j || (j =? mb)) /\
  (forall mb flt j, 16 <= mb < 32 -> 0 <= j ->
     fst (CAN_ConfigRxFilter hw_idle 0 mb (Some flt) filtered)
     = STATUS_SUCCESS /\
     Z.testbit
       (IMASK1 (bank (snd (CAN_ConfigRxFilter hw_idle 0 mb (Some flt)
                             filtered)) 0)) j
     = Z.testbit (IMASK1 (bank filtered 0)) j || (j =? mb)).
Proof.
  apply (config_enables_interrupt hw_idle filtered 0).
  - reflexivity.
  - lia.
  - reflexivity.
Defined.

(** ** Shutting an instance down *)

(** The tables and the log after [CAN_Deinit] of a valid instance. *)
Lemma Deinit_state (hw : CAN_Type -> CAN_Type) (st : driver) (inst : Z) :
  0 <= inst < 3 ->
  tables_wf st ->
  let st' := snd (CAN_Deinit hw inst st) in
  initialized st' inst = false /\
  s_canCallbacks st' = s_canCallbacks st /\
  length (bus st') = S (S (length (bus st))).
Proof.
  intros Hi [Hfl _] st'. subst st'. open_state st.
  destruct (CAN_Deinit _ _ _) as [res st'] eqn:E.
  unfold CAN_Deinit in E. rewrite instance_in_range in E by exact Hi.
  run_monad in E. apply pair_snd in E. subst st'.
  cbn [snd bus s_canInitialized s_canCallbacks length].
  split; [|split; reflexivity].
  apply list_lookup_total_insert_eq. lia.
Qed.

(** X9.  [CAN_Deinit] of a valid instance succeeds whether or not the
    instance was initialised, with one read-modify-write of [MCR] that
    sets the module-disable bit.  Afterwards the six flag-checking
    operations reject the instance with [STATUS_NOT_INITIALIZED]; the
    flags of the other instances and the callback table are as before, so
    a registered callback stays registered. *)
Theorem Deinit_clears_flag (hw : CAN_Type -> CAN_Type) (st : driver)
    (inst : Z) :
  0 <= inst < 3 ->
  tables_wf st ->
  let v := MCR (hw (bank st inst)) in
  let st' := snd (CAN_Deinit hw inst st) in
  fst (CAN_Deinit hw inst st) = STATUS_SUCCESS /\
  trace st' = trace st ++ [ Rd inst rMCR v;
                            Wr inst rMCR (Z.lor v CAN_MCR_MDIS_MASK) ] /\
  initialized st' inst = false /\
  rejects_uninitialized hw st' inst /\
  (forall j, 0 <= j -> j <> inst -> initialized st' j = initialized st j) /\
  s_canCallbacks st' = s_canCallbacks st.
Proof.
  intros Hi [Hfl _] v st'. subst v st'. open_state st.
  destruct (CAN_Deinit _ _ _) as [res st'] eqn:E.
  unfold CAN_Deinit in E. rewrite instance_in_range in E by exact Hi.
  run_monad in E. cbn [read_reg] in E.
  pose proof (f_equal fst E) as Eres. apply pair_snd in E.
  cbn [fst] in Eres. subst res st'.
  cbn [fst snd bus s_canInitialized s_canCallbacks].
  assert (Hclear : <[Z.to_nat inst := false]> fl !!! Z.to_nat inst = false).
  { apply list_lookup_total_insert_eq. lia. }
  split; [reflexivity|]. split.
  { rewrite !trace_cons, <- app_assoc. reflexivity. }
  split; [exact Hclear|]. split.
  { apply flag_clear_rejects; [exact Hi|exact Hclear]. }
  split; [|reflexivity].
  intros j Hj Hne. apply list_lookup_total_insert_ne. lia.
Qed.

Lemma Deinit_clears_flag_witness :
  let v := MCR (hw_idle (bank scenario_C 0)) in
  let st' := snd (CAN_Deinit hw_idle 0 scenario_C) in
  fst (CAN_Deinit hw_idle 0 scenario_C) = STATUS_SUCCESS /\
  trace st' = trace scenario_C ++ [ Rd 0 rMCR v;
                                    Wr 0 rMCR (Z.lor v CAN_MCR_MDIS_MASK) ] /\
  initialized st' 0 = false /\
  rejects_uninitialized hw_idle st' 0 /\
  (forall j, 0 <= j -> j <> 0 -> initialized st' j = initialized scenario_C j) /\
  s_canCallbacks st' = s_canCallbacks scenario_C.
Proof.
  apply (Deinit_clears_flag hw_idle scenario_C 0).
  - lia.
  - split; reflexivity.
Defined.

(** ** Counting bus accesses *)

Lemma accesses_ret {A} (a : A) : accesses_at_most (ret a) 0.
Proof. intros st. exists []. split; [reflexivity|cbn; lia]. Qed.

Lemma accesses_get : accesses_at_most get 0.
Proof. intros st. exists []. split; [reflexivity|cbn; lia]. Qed.

Lemma accesses_bind {A B} (c : M A) (k : A -> M B) (n m : Z) :
  accesses_at_most c n -> (forall a, accesses_at_most (k a) m) ->
  accesses_at_most (bind c k) (n + m).
Proof.
  intros Hc Hk st. unfold bind. destruct (Hc st) as (l1 & E1 & L1).
  destruct (c st) as [a st1]. cbn [snd] in E1.
  destruct (Hk a st1) as (l2 & E2 & L2).
  exists (l2 ++ l1). split.
  - rewrite E2, E1, app_assoc. reflexivity.
  - rewrite length_app. lia.
Qed.

Lemma accesses_weaken {A} (c : M A) (n m : Z) :
  accesses_at_most c n -> n <= m -> accesses_at_most c m.
Proof.
  intros Hc Hle st. destruct (Hc st) as (l & E & L). exists l.
  split; [exact E|lia].
Qed.

Lemma accesses_set_initialized (inst : Z) (v : bool) :
  accesses_at_most (set_initialized inst v) 0.
Proof. intros st. exists []. split; [reflexivity|cbn; lia]. Qed.

Lemma accesses_call (cb base : Z) (ev : can_event_t) (d : can_event_data_t) :
  accesses_at_most (call cb base ev d) 1.
Proof. intros st. exists [Call cb base ev d]. split; [reflexivity|cbn; lia]. Qed.

Section Accesses.

Variable hw : CAN_Type -> CAN_Type.

Lemma accesses_rd (inst : Z) (r : reg) : accesses_at_most (rd hw inst r) 1.
Proof. intros st. eexists [_]. split; [reflexivity|cbn; lia]. Qed.

Lemma accesses_wr (inst : Z) (r : reg) (v : Z) :
  accesses_at_most (wr hw inst r v) 1.
Proof. intros st. eexists [_]. split; [reflexivity|cbn; lia]. Qed.

Lemma accesses_set_bits (inst : Z) (r : reg) (m : Z) :
  accesses_at_most (set_bits hw inst r m) 2.
Proof.
  unfold set_bits. apply (accesses_bind _ _ 1 1); [apply accesses_rd|].
  intros v. apply accesses_wr.
Qed.

Lemma accesses_clear_bits (inst : Z) (r : reg) (m : Z) :
  accesses_at_most (clear_bits hw inst r m) 2.
Proof.
  unfold clear_bits. apply (accesses_bind _ _ 1 1); [apply accesses_rd|].
  intros v. apply accesses_wr.
Qed.

Lemma accesses_poll_mcr (n : nat) (inst : Z) (waiting : Z -> bool) :
  accesses_at_most (poll_mcr hw n inst waiting) (Z.of_nat n).
Proof.
  induction n as [|n IH]; cbn [poll_mcr]; [apply accesses_ret|].
  apply (accesses_weaken _ (1 + Z.of_nat n)); [|lia].
  apply accesses_bind; [apply accesses_rd|]. intros v.
  destruct (waiting v); [exact IH|].
  apply (accesses_weaken _ 0); [apply accesses_ret|lia].
Qed.

Lemma accesses_for_each (n : nat) (body : Z -> M unit) :
  (forall i, accesses_at_most (body i) 1) ->
  forall i, accesses_at_most (for_each n i body) (Z.of_nat n).
Proof.
  intros Hbody. induction n as [|n IH]; intros i; cbn [for_each];
    [apply accesses_ret|].
  apply (accesses_weaken _ (1 + Z.of_nat n)); [|lia].
  apply accesses_bind; [apply Hbody|]. intros _. apply IH.
Qed.

Lemma accesses_EnableClock (inst : Z) (src : can_clk_src_t) :
  accesses_at_most (CAN_EnableClock hw inst src) 6.
Proof.
  unfold CAN_EnableClock.
  apply (accesses_bind _ _ 2 4); [apply accesses_set_bits|]. intros _.
  apply (accesses_bind _ _ 2 2); [|intros _; apply accesses_clear_bits].
  destruct (decide (src = CAN_CLK_SRC_SOSCDIV2));
    [apply accesses_clear_bits|apply accesses_set_bits].
Qed.

Lemma accesses_EnterFreezeMode (inst : Z) :
  accesses_at_most (CAN_EnterFreezeMode hw inst) 10002.
Proof.
  unfold CAN_EnterFreezeMode.
  apply (accesses_bind _ _ 2 10000); [apply accesses_set_bits|]. intros _.
  apply (accesses_bind _ _ 10000 0); [|intros t; apply accesses_ret].
  apply (accesses_weaken _ _ _ (accesses_poll_mcr _ _ _)).
  unfold CAN_FREEZE_TIMEOUT. lia.
Qed.

Lemma accesses_SoftReset (inst : Z) :
  accesses_at_most (CAN_SoftReset hw inst) 10002.
Proof.
  unfold CAN_SoftReset.
  apply (accesses_bind _ _ 2 10000); [apply accesses_set_bits|]. intros _.
  apply (accesses_bind _ _ 10000 0); [|intros t; apply accesses_ret].
  apply (accesses_weaken _ _ _ (accesses_poll_mcr _ _ _)).
  unfold CAN_FREEZE_TIMEOUT. lia.
Qed.

Lemma accesses_ExitFreezeMode (inst : Z) :
  accesses_at_most (CAN_ExitFreezeMode hw inst) 20002.
Proof.
  unfold CAN_ExitFreezeMode.
  apply (accesses_bind _ _ 2 20000); [apply accesses_clear_bits|]. intros _.
  apply (accesses_bind _ _ 10000 10000).
  { apply (accesses_weaken _ _ _ (accesses_poll_mcr _ _ _)).
    unfold CAN_FREEZE_TIMEOUT. lia. }
  intros [|t].
  - apply (accesses_weaken _ 0); [apply accesses_ret|lia].
  - apply (accesses_bind _ _ 10000 0); [|intros t'; apply accesses_ret].
    apply (accesses_weaken _ _ _ (accesses_poll_mcr _ _ _)).
    unfold CAN_FREEZE_TIMEOUT. lia.
Qed.

Lemma accesses_InitMessageBuffers (inst : Z) :
  accesses_at_most (CAN_InitMessageBuffers hw inst) 145.
Proof.
  unfold CAN_InitMessageBuffers.
  apply (accesses_bind _ _ 128 17).
  { apply (accesses_for_each 128). intros i. apply accesses_wr. }
  intros _. apply (accesses_bind _ _ 16 1); [|intros _; apply accesses_wr].
  apply (accesses_for_each 16). intros i. apply accesses_wr.
Qed.

(** Whatever the controller does, [CAN_Init] ends after a bounded number
    of bus accesses. *)
Lemma accesses_Init (config : option can_config_t) :
  accesses_at_most (CAN_Init hw config) 40168.
Proof.
  assert (Hret : forall (s : status_t) k, 0 <= k ->
            accesses_at_most (ret s) k).
  { intros s k Hk. apply (accesses_weaken _ 0); [apply accesses_ret|lia]. }
  unfold CAN_Init. destruct config as [cfg|]; [|apply Hret; lia].
  destruct (CAN_INSTANCE_COUNT <=? instance cfg); [apply Hret; lia|].
  apply (accesses_bind _ _ 6 40162); [apply accesses_EnableClock|]. intros _.
  apply (accesses_bind _ _ 10002 30160); [apply accesses_EnterFreezeMode|].
  intros s1. destruct (negb (bool_decide (s1 = STATUS_SUCCESS)));
    [apply Hret; lia|].
  apply (accesses_bind _ _ 10002 20158); [apply accesses_SoftReset|].
  intros s2. destruct (negb (bool_decide (s2 = STATUS_SUCCESS)));
    [apply Hret; lia|].
  destruct (CAN_CalculateTiming _ _ _) as [[] [timing|]];
    try (apply Hret; lia).
  apply (accesses_bind _ _ 1 20157); [apply accesses_wr|]. intros _.
  apply (accesses_bind _ _ 2 20155).
  { destruct (decide (mode cfg = CAN_MODE_LOOPBACK));
      [apply accesses_set_bits|].
    destruct (decide (mode cfg = CAN_MODE_LISTEN_ONLY));
      [apply accesses_set_bits|].
    apply (accesses_weaken _ 0); [apply accesses_ret|lia]. }
  intros _. apply (accesses_bind _ _ 2 20153).
  { destruct (negb (enableSelfReception cfg)); [apply accesses_set_bits|].
    apply (accesses_weaken _ 0); [apply accesses_ret|lia]. }
  intros _. apply (accesses_bind _ _ 2 20151).
  { destruct (useRxFifo cfg);
      [apply accesses_set_bits|apply accesses_clear_bits]. }
  intros _. apply (accesses_bind _ _ 2 20149).
  { apply (accesses_bind _ _ 1 1); [apply accesses_rd|].
    intros v. apply accesses_wr. }
  intros _.
  apply (accesses_bind _ _ 145 20004); [apply accesses_InitMessageBuffers|].
  intros _. apply (accesses_bind _ _ 1 20003); [apply accesses_wr|].
  intros _. apply (accesses_bind _ _ 1 20002); [apply accesses_wr|].
  intros _.
  apply (accesses_bind _ _ 20002 0); [apply accesses_ExitFreezeMode|].
  intros s3. destruct (negb (bool_decide (s3 = STATUS_SUCCESS)));
    [apply Hret; lia|].
  apply (accesses_bind _ _ 0 0); [apply accesses_set_initialized|].
  intros _. apply accesses_ret.
Qed.

Lemma accesses_irq_service (instance idx k : Z) :
  accesses_at_most (irq_service hw instance idx k) 7.
Proof.
  unfold irq_service, CAN_ReadMbCs, CAN_ReadMbId, CAN_CopyDataFromMb,
    CAN_ReadMbData, CAN_WriteMbCs.
  apply (accesses_bind _ _ 1 6); [apply accesses_rd|]. intros cs.
  apply (accesses_bind _ _ 5 1).
  - destruct (_ =? CAN_CS_CODE_TX_INACTIVE).
    + apply (accesses_bind _ _ 1 4); [apply accesses_wr|]. intros _.
      apply (accesses_weaken _ 0); [apply accesses_ret|lia].
    + destruct (_ =? CAN_CS_CODE_RX_FULL).
      * apply (accesses_bind _ _ 1 4); [apply accesses_rd|]. intros idw.
        destruct (negb (Z.land cs CAN_WMBn_CS_IDE_MASK =? 0));
          (apply (accesses_bind _ _ 2 2);
           [apply (accesses_bind _ _ 1 1); [apply accesses_rd|];
            intros d0;
            apply (accesses_bind _ _ 1 0); [apply accesses_rd|];
            intros d1; apply accesses_ret
           |intros bytes;
            apply (accesses_bind _ _ 1 1); [apply accesses_wr|];
            intros _;
            apply (accesses_bind _ _ 1 0); [apply accesses_wr|];
            intros _; apply accesses_ret]).
      * apply (accesses_weaken _ 0); [apply accesses_ret|lia].
  - intros [event eventData].
    destruct (negb (bool_decide (event = CAN_EVENT_NONE))).
    + apply (accesses_bind _ _ 0 1); [apply accesses_get|]. intros s.
      apply accesses_call.
    + apply (accesses_weaken _ 0); [apply accesses_ret|lia].
Qed.

Lemma accesses_irq_scan (n : nat) (mbIdx instance idx f : Z) :
  accesses_at_most (irq_scan hw n mbIdx instance idx f) 7.
Proof.
  revert mbIdx. induction n as [|n IH]; intros mbIdx; cbn [irq_scan].
  - apply (accesses_weaken _ 0); [apply accesses_ret|lia].
  - destruct (negb _); [apply accesses_irq_service|apply IH].
Qed.

End Accesses.

(** ** Callback registration *)

Lemma instance_index_cases (base : Z) :
  (CAN_GetInstanceIndex base = 0 /\ base = CAN0) \/
  (CAN_GetInstanceIndex base = 1 /\ base = CAN1) \/
  (CAN_GetInstanceIndex base = 2 /\ base = CAN2) \/
  (CAN_GetInstanceIndex base = 0xFF /\ ~ In base s_canBases).
Proof.
  unfold CAN_GetInstanceIndex.
  destruct (Z.eqb_spec base CAN0); [left; split; auto|].
  destruct (Z.eqb_spec base CAN1); [right; left; split; auto|].
  destruct (Z.eqb_spec base CAN2); [right; right; left; split; auto|].
  right; right; right. split; [reflexivity|].
  intros [H|[H|[H|[]]]]; congruence.
Qed.

(** X10.  [CAN_GetInstanceIndex] inverts the table [s_canBases]: the
    index of the [i]-th base address is [i], and an address that is not in
    the table has the index 0xFF, which is no valid instance. *)
Theorem instance_index_inverse (base : Z) :
  (forall i, 0 <= i < CAN_INSTANCE_COUNT ->
     (CAN_GetInstanceIndex base = i <-> s_canBases !!! Z.to_nat i = base)) /\
  (CAN_GetInstanceIndex base = 0xFF <-> ~ In base s_canBases).
Proof.
  split.
  - intros i Hi. unfold CAN_INSTANCE_COUNT in Hi.
    assert (Hc : i = 0 \/ i = 1 \/ i = 2) by lia.
    destruct (instance_index_cases base) as [[E B]|[[E B]|[[E B]|[E B]]]];
      rewrite E; destruct Hc as [->|[->| ->]]; cbn; split; intros H;
      try reflexivity; try (symmetry; exact B); try discriminate;
      try (subst base; discriminate).
    all: exfalso; apply B; rewrite <- H; cbn; auto.
  - destruct (instance_index_cases base) as [[E B]|[[E B]|[[E B]|[E B]]]];
      rewrite E; split; intros H; try discriminate; try assumption;
      try reflexivity; exfalso; apply H; subst base; cbn; auto.
Qed.

(** X11.  Registering a callback for a known controller stores it for
    that controller only, without any bus access; the interrupt handler
    of that controller then starts by loading the flag register.  After
    [CAN_UnregisterCallback] the handler returns at once, with the state
    as it was.  For an address that is no controller both calls are
    rejected and the state is unchanged. *)
Theorem callback_registration (hw : CAN_Type -> CAN_Type) (st : driver)
    (base : Z) (cb : can_callback_t) :
  tables_wf st ->
  (In base s_canBases ->
   let idx := CAN_GetInstanceIndex base in
   let st1 := snd (CAN_RegisterCallback base cb st) in
   let st2 := snd (CAN_UnregisterCallback base st1) in
   fst (CAN_RegisterCallback base cb st) = STATUS_SUCCESS /\
   callback st1 idx = cb /\
   (forall j, 0 <= j -> j <> idx -> callback st1 j = callback st j) /\
   banks st1 = banks st /\
   s_canInitialized st1 = s_canInitialized st /\
   trace st1 = trace st /\
   (cb <> NULL ->
    exists rest,
      trace (snd (CAN_IRQHandler hw base st1))
      = trace st ++ Rd idx rIFLAG1 (IFLAG1 (hw (bank st idx))) :: rest) /\
   fst (CAN_UnregisterCallback base st1) = STATUS_SUCCESS /\
   callback st2 idx = NULL /\
   CAN_IRQHandler hw base st2 = (tt, st2)) /\
  (~ In base s_canBases ->
   CAN_RegisterCallback base cb st = (STATUS_INVALID_PARAM, st) /\
   CAN_UnregisterCallback base st = (STATUS_INVALID_PARAM, st)).
Proof.
  intros [_ Hcbs].
  assert (Hguard : forall s, callback s (CAN_GetInstanceIndex base) = NULL ->
            CAN_IRQHandler hw base s = (tt, s)).
  { intros s H. unfold CAN_IRQHandler, bind, get. rewrite H.
    change (NULL =? NULL) with true. rewrite orb_true_r. reflexivity. }
  split.
  - intros Hin idx st1 st2.
    assert (Hidx : 0 <= idx < 3 /\ (idx =? 0xFF) = false).
    { subst idx.
      destruct (instance_index_cases base) as [[E B]|[[E B]|[[E B]|[E B]]]];
        try (rewrite E; split; [lia|reflexivity]).
      contradiction. }
    destruct Hidx as [Hi Hff].
    assert (E1 : CAN_RegisterCallback base cb st
                 = (STATUS_SUCCESS,
                    Driver (banks st) (s_canInitialized st)
                      (<[Z.to_nat idx := cb]> (s_canCallbacks st)) (bus st))).
    { unfold CAN_RegisterCallback. fold idx. rewrite Hff. reflexivity. }
    assert (E2 : forall s, CAN_UnregisterCallback base s
                 = (STATUS_SUCCESS,
                    Driver (banks s) (s_canInitialized s)
                      (<[Z.to_nat idx := NULL]> (s_canCallbacks s)) (bus s))).
    { intros s. unfold CAN_UnregisterCallback. fold idx. rewrite Hff.
      reflexivity. }
    subst st2 st1. rewrite E1, E2. cbn [fst snd].
    unfold callback, trace, bank.
    cbn [banks s_canInitialized s_canCallbacks bus].
    assert (Hset : <[Z.to_nat idx := cb]> (s_canCallbacks st) !!! Z.to_nat idx
                   = cb).
    { apply list_lookup_total_insert_eq. lia. }
    repeat split; try reflexivity.
    + exact Hset.
    + intros j Hj Hne. apply list_lookup_total_insert_ne. lia.
    + intros Hnn.
      unfold CAN_IRQHandler. fold idx.
      unfold bind at 1. unfold get. unfold callback.
      cbn [s_canCallbacks]. rewrite Hset, Hff.
      apply Z.eqb_neq in Hnn. rewrite Hnn. cbn [orb].
      rewrite snd_bind.
      destruct (negb (fst _ =? 0)).
      * unfold rd at 2. cbn [fst snd banks].
        match goal with
        | |- context [irq_scan hw 32 0 base idx ?f ?s] =>
            destruct (accesses_irq_scan hw 32 0 base idx f s)
              as (l & -> & _)
        end.
        cbn [bus]. rewrite rev_app_distr, trace_cons, <- app_assoc.
        eexists. reflexivity.
      * exists []. reflexivity.
    + apply list_lookup_total_insert_eq. rewrite length_insert. lia.
    + apply Hguard. unfold callback. cbn [s_canCallbacks].
      apply list_lookup_total_insert_eq. rewrite length_insert. lia.
  - intros Hout.
    destruct (instance_index_cases base) as [[E B]|[[E B]|[[E B]|[E B]]]];
      try (exfalso; apply Hout; subst base; cbn; tauto).
    unfold CAN_RegisterCallback, CAN_UnregisterCallback. rewrite E.
    split; reflexivity.
Qed.

Lemma callback_registration_witness :
  let st1 := snd (CAN_RegisterCallback CAN1 0x9000 power_on) in
  fst (CAN_RegisterCallback CAN1 0x9000 power_on) = STATUS_SUCCESS /\
  callback st1 1 = 0x9000 /\
  callback st1 0 = NULL /\
  CAN_IRQHandler hw_idle CAN1 (snd (CAN_UnregisterCallback CAN1 st1))
  = (tt, snd (CAN_UnregisterCallback CAN1 st1)).
Proof.
  intros st1.
  destruct (callback_registration hw_idle power_on CAN1 0x9000) as [Hin _].
  - split; reflexivity.
  - destruct Hin as (H1 & H2 & H3 & _ & _ & _ & _ & _ & _ & H10).
    + right. left. reflexivity.
    + split; [exact H1|]. split; [exact H2|]. split; [|exact H10].
      apply (H3 0); [lia|discriminate].
Defined.


(** ** Initialisation *)

Lemma outcome_bind {A} (Q : Prop) (inst : Z) (c : M A) (k : A -> M status_t) :
  keeps_flags c -> (forall a, init_outcome Q inst (k a)) ->
  init_outcome Q inst (bind c k).
Proof.
  intros Hc Hk st. unfold bind. specialize (Hc st).
  destruct (c st) as [a st1]. cbn [snd] in Hc. rewrite <- Hc. apply Hk.
Qed.

Lemma outcome_error (Q : Prop) (inst : Z) :
  init_outcome Q inst (ret STATUS_ERROR).
Proof. intros st. right. split; [left|]; reflexivity. Qed.

Lemma outcome_invalid (Q : Prop) (inst : Z) :
  init_outcome Q inst (ret STATUS_INVALID_PARAM).
Proof. intros st. right. split; [right|]; reflexivity. Qed.

Lemma on_success_bind {A} (P : driver -> Prop) (c : M A)
    (k : A -> M status_t) :
  (forall a, on_success P (k a)) -> on_success P (bind c k).
Proof. intros Hk st. unfold bind. destruct (c st) as [a st1]. apply Hk. Qed.

Lemma on_success_failed (P : driver -> Prop) (s : status_t) :
  s <> STATUS_SUCCESS -> on_success P (ret s).
Proof. intros Hs st H. cbn in H. contradiction. Qed.

Lemma CalculateTiming_needs (canClockHz baudRate : Z)
    (t0 : can_timing_config_t) (r : option can_timing_config_t) :
  CAN_CalculateTiming canClockHz baudRate (Some t0) = (STATUS_SUCCESS, r) ->
  baudRate <> 0 /\
  (prescaler canClockHz baudRate 16 <= 255 \/
   prescaler canClockHz baudRate 8 <= 255).
Proof.
  unfold CAN_CalculateTiming.
  destruct (Z.eqb_spec baudRate 0); [discriminate|].
  destruct (canClockHz =? 0); [discriminate|]. cbn [orb].
  destruct (Z.ltb_spec 255 (prescaler canClockHz baudRate 16));
    [|intros _; split; [assumption|left; assumption]].
  destruct (Z.ltb_spec 255 (prescaler canClockHz baudRate 8));
    [discriminate|]. intros _. split; [assumption|right; assumption].
Qed.

Section Init.

Variable hw : CAN_Type -> CAN_Type.

(** The steps of [CAN_Init] from the store to [CTRL1] on. *)
Lemma accesses_Init_tail (cfg : can_config_t) (k : M status_t) (n : Z) :
  accesses_at_most k n ->
  accesses_at_most
    ((if decide (mode cfg = CAN_MODE_LOOPBACK)
      then set_bits hw (instance cfg) rCTRL1 CAN_CTRL1_LPB_MASK
      else if decide (mode cfg = CAN_MODE_LISTEN_ONLY)
      then set_bits hw (instance cfg) rCTRL1 CAN_CTRL1_LOM_MASK
      else ret tt);;
     (if negb (enableSelfReception cfg)
      then set_bits hw (instance cfg) rMCR CAN_MCR_SRXDIS_MASK
      else ret tt);;
     (if useRxFifo cfg
      then set_bits hw (instance cfg) rMCR CAN_MCR_RFEN_MASK
      else clear_bits hw (instance cfg) rMCR CAN_MCR_RFEN_MASK);;
     (let* v := rd hw (instance cfg) rMCR in
      wr hw (instance cfg) rMCR
         (Z.lor (Z.land v (not32 CAN_MCR_MAXMB_MASK))
                (shl32 (CAN_MB_COUNT - 1) CAN_MCR_MAXMB_SHIFT)));;
     CAN_InitMessageBuffers hw (instance cfg);;
     wr hw (instance cfg) rRXMGMASK 0x1FFFFFFF;;
     wr hw (instance cfg) rECR 0;;
     k)
    (155 + n).
Proof.
  intros Hk.
  replace (155 + n) with (2 + (2 + (2 + (2 + (145 + (1 + (1 + n)))))))
    by lia.
  apply accesses_bind.
  { destruct (decide (mode cfg = CAN_MODE_LOOPBACK));
      [apply accesses_set_bits|].
    destruct (decide (mode cfg = CAN_MODE_LISTEN_ONLY));
      [apply accesses_set_bits|].
    apply (accesses_weaken _ 0); [apply accesses_ret|lia]. }
  intros _. apply accesses_bind.
  { destruct (negb (enableSelfReception cfg)); [apply accesses_set_bits|].
    apply (accesses_weaken _ 0); [apply accesses_ret|lia]. }
  intros _. apply accesses_bind.
  { destruct (useRxFifo cfg);
      [apply accesses_set_bits|apply accesses_clear_bits]. }
  intros _. apply accesses_bind.
  { apply (accesses_bind _ _ 1 1); [apply accesses_rd|].
    intros v. apply accesses_wr. }
  intros _. apply accesses_bind; [apply accesses_InitMessageBuffers|].
  intros _. apply accesses_bind; [apply accesses_wr|].
  intros _. apply accesses_bind; [apply accesses_wr|].
  intros _. exact Hk.
Qed.

Lemma accesses_Init_end (cfg : can_config_t) :
  accesses_at_most
    (let* status := CAN_ExitFreezeMode hw (instance cfg) in
     if negb (bool_decide (status = STATUS_SUCCESS)) then ret STATUS_ERROR
     else set_initialized (instance cfg) true;; ret STATUS_SUCCESS)
    20002.
Proof.
  apply (accesses_bind _ _ 20002 0); [apply accesses_ExitFreezeMode|].
  intros s3. destruct (negb (bool_decide (s3 = STATUS_SUCCESS)));
    [apply accesses_ret|].
  apply (accesses_bind _ _ 0 0); [apply accesses_set_initialized|].
  intros _. apply accesses_ret.
Qed.

Lemma keeps_Init_step_mode (cfg : can_config_t) :
  keeps_flags
    (if decide (mode cfg = CAN_MODE_LOOPBACK)
     then set_bits hw (instance cfg) rCTRL1 CAN_CTRL1_LPB_MASK
     else if decide (mode cfg = CAN_MODE_LISTEN_ONLY)
     then set_bits hw (instance cfg) rCTRL1 CAN_CTRL1_LOM_MASK
     else ret tt).
Proof.
  destruct (decide (mode cfg = CAN_MODE_LOOPBACK));
    [apply keeps_set_bits|].
  destruct (decide (mode cfg = CAN_MODE_LISTEN_ONLY));
    [apply keeps_set_bits|apply keeps_ret].
Qed.

(** The status of [CAN_Init] and the table of initialised instances. *)
Lemma Init_outcome_cases (cfg : can_config_t) :
  init_outcome
    (instance cfg < CAN_INSTANCE_COUNT /\
     baudRate cfg <> 0 /\
     (prescaler (CAN_GetClockFrequency (clockSource cfg)) (baudRate cfg) 16
      <= 255 \/
      prescaler (CAN_GetClockFrequency (clockSource cfg)) (baudRate cfg) 8
      <= 255))
    (instance cfg) (CAN_Init hw (Some cfg)).
Proof.
  unfold CAN_Init.
  destruct (Z.leb_spec CAN_INSTANCE_COUNT (instance cfg)) as [|Hinst];
    [apply outcome_invalid|].
  apply outcome_bind; [apply keeps_EnableClock|]. intros _.
  apply outcome_bind; [apply keeps_EnterFreezeMode|]. intros s1.
  destruct (negb (bool_decide (s1 = STATUS_SUCCESS)));
    [apply outcome_error|].
  apply outcome_bind; [apply keeps_SoftReset|]. intros s2.
  destruct (negb (bool_decide (s2 = STATUS_SUCCESS)));
    [apply outcome_error|].
  destruct (CAN_CalculateTiming _ _ _) as [[] [timing|]] eqn:Ht;
    try apply outcome_invalid.
  apply CalculateTiming_needs in Ht.
  apply outcome_bind; [apply keeps_wr|]. intros _.
  apply outcome_bind; [apply keeps_Init_step_mode|]. intros _.
  apply outcome_bind.
  { destruct (negb (enableSelfReception cfg));
      [apply keeps_set_bits|apply keeps_ret]. }
  intros _. apply outcome_bind.
  { destruct (useRxFifo cfg); [apply keeps_set_bits|apply keeps_clear_bits]. }
  intros _. apply outcome_bind.
  { apply keeps_bind; [apply keeps_rd|]. intros v. apply keeps_wr. }
  intros _. apply outcome_bind; [apply keeps_InitMessageBuffers|].
  intros _. apply outcome_bind; [apply keeps_wr|].
  intros _. apply outcome_bind; [apply keeps_wr|].
  intros _. apply outcome_bind; [apply keeps_ExitFreezeMode|]. intros s3.
  destruct (negb (bool_decide (s3 = STATUS_SUCCESS)));
    [apply outcome_error|].
  intros st. left. split; [reflexivity|]. split; [|reflexivity].
  split; [exact Hinst|exact Ht].
Qed.

(** A successful [CAN_Init] has stored [CTRL1_timing]. *)
Lemma Init_stores_timing (cfg : can_config_t) :
  on_success (fun s => In (Wr (instance cfg) rCTRL1 CTRL1_timing) (bus s))
             (CAN_Init hw (Some cfg)).
Proof.
  unfold CAN_Init.
  destruct (CAN_INSTANCE_COUNT <=? instance cfg);
    [apply on_success_failed; discriminate|].
  apply on_success_bind. intros _.
  apply on_success_bind. intros s1.
  destruct (negb (bool_decide (s1 = STATUS_SUCCESS)));
    [apply on_success_failed; discriminate|].
  apply on_success_bind. intros s2.
  destruct (negb (bool_decide (s2 = STATUS_SUCCESS)));
    [apply on_success_failed; discriminate|].
  destruct (CAN_CalculateTiming _ _ _) as [[] [timing|]] eqn:Ht;
    try (apply on_success_failed; discriminate).
  apply CalculateTiming_success in Ht. injection Ht as ->.
  intros st _. unfold bind at 1.
  destruct (wr hw (instance cfg) rCTRL1 _ st) as [u st1] eqn:E.
  assert (Hin : In (Wr (instance cfg) rCTRL1 CTRL1_timing) (bus st1)).
  { unfold wr in E. apply pair_snd in E. subst st1. left. reflexivity. }
  destruct (accesses_Init_tail cfg _ 20002 (accesses_Init_end cfg) st1)
    as (l & -> & _).
  apply in_or_app. right. exact Hin.
Qed.

End Init.

(** X12.  Whatever the controller does, [CAN_Init] returns
    [STATUS_SUCCESS], [STATUS_ERROR] or [STATUS_INVALID_PARAM].  It sets
    the initialised flag of the configured instance exactly when it
    succeeds, and success needs a valid instance, a non-zero bit rate and
    a prescaler of at most 255 for 16 or for 8 time quanta; in every other
    case the table of flags is as before.  A null configuration is
    rejected with the state unchanged. *)
Theorem driver_Init_outcomes (hw : CAN_Type -> CAN_Type) (cfg : can_config_t)
    (st : driver) :
  let clk := CAN_GetClockFrequency (clockSource cfg) in
  let r := CAN_Init hw (Some cfg) st in
  ((fst r = STATUS_SUCCESS /\
    (instance cfg < CAN_INSTANCE_COUNT /\
     baudRate cfg <> 0 /\
     (prescaler clk (baudRate cfg) 16 <= 255 \/
      prescaler clk (baudRate cfg) 8 <= 255)) /\
    s_canInitialized (snd r)
    = <[Z.to_nat (instance cfg) := true]> (s_canInitialized st)) \/
   ((fst r = STATUS_ERROR \/ fst r = STATUS_INVALID_PARAM) /\
    s_canInitialized (snd r) = s_canInitialized st)) /\
  CAN_Init hw None st = (STATUS_INVALID_PARAM, st).
Proof.
  intros clk r. split; [|reflexivity].
  exact (Init_outcome_cases hw cfg st).
Qed.

(** X13.  Whatever the controller does, the driver does not wait for it
    for ever: [CAN_Init] ends after at most 40168 bus accesses (its four
    polling loops give up after 10000 loads each), [CAN_Deinit] after at
    most 2, and a call of the interrupt handler after at most 8, the
    callback included.  None of them removes an entry from the log. *)
Theorem bounded_accesses (hw : CAN_Type -> CAN_Type) :
  (forall config, accesses_at_most (CAN_Init hw config) 40168) /\
  (forall inst, accesses_at_most (CAN_Deinit hw inst) 2) /\
  (forall base, accesses_at_most (CAN_IRQHandler hw base) 8).
Proof.
  split; [apply accesses_Init|]. split.
  - intros inst. unfold CAN_Deinit.
    destruct (CAN_INSTANCE_COUNT <=? inst).
    + apply (accesses_weaken _ 0); [apply accesses_ret|lia].
    + apply (accesses_bind _ _ 2 0); [apply accesses_set_bits|]. intros _.
      apply (accesses_bind _ _ 0 0); [apply accesses_set_initialized|].
      intros _. apply accesses_ret.
  - intros base. unfold CAN_IRQHandler.
    apply (accesses_bind _ _ 0 8); [apply accesses_get|]. intros s.
    destruct (_ || _).
    + apply (accesses_weaken _ 0); [apply accesses_ret|lia].
    + apply (accesses_bind _ _ 1 7); [apply accesses_rd|]. intros f.
      destruct (negb (f =? 0)); [apply accesses_irq_scan|].
      apply (accesses_weaken _ 0); [apply accesses_ret|lia].
Qed.

(** X14.  Every successful [CAN_Init] stores the same bit-timing word to
    [CTRL1], whatever the bit rate and the clock source of the
    configuration: the timing it programs does not depend on the
    requested bit rate. *)
Theorem Init_fixed_timing (hw : CAN_Type -> CAN_Type) (cfg : can_config_t)
    (st : driver) :
  fst (CAN_Init hw (Some cfg) st) = STATUS_SUCCESS ->
  In (Wr (instance cfg) rCTRL1 CTRL1_timing)
     (trace (snd (CAN_Init hw (Some cfg) st))).
Proof.
  intros H. unfold trace. rewrite <- in_rev.
  exact (Init_stores_timing hw cfg st H).
Qed.

Lemma Init_fixed_timing_witness :
  let cfg := Config 0 CAN_CLK_SRC_SOSCDIV2 125000 CAN_MODE_NORMAL false false in
  In (Wr 0 rCTRL1 CTRL1_timing) (trace (snd (CAN_Init hw_ack (Some cfg) power_on))).
Proof.
  intros cfg. apply (Init_fixed_timing hw_ack cfg power_on).
  vm_compute. reflexivity.
Defined.

(** ** Clearing the message buffers *)

Lemma read_write_other (r r' : reg) (v : Z) (b : CAN_Type) :
  match r, r' with
  | rRAMn i, rRAMn j | rRXIMR i, rRXIMR j => Z.to_nat i <> Z.to_nat j
  | _, _ => r <> r'
  end ->
  read_reg r (write_reg r' v b) = read_reg r b.
Proof.
  destruct b, r, r'; cbn; intros H; try reflexivity; try congruence;
    apply list_lookup_total_insert_ne; congruence.
Qed.

Lemma rximr_write_same (i v : Z) (b : CAN_Type) :
  bank_wf b -> 0 <= i < 32 ->
  read_reg (rRXIMR i) (write_reg (rRXIMR i) v b) = v.
Proof.
  intros [_ Hrx] Hi. destruct b; cbn in *.
  apply list_lookup_total_insert_eq. lia.
Qed.

Section LoopStores.

Variable hw : CAN_Type -> CAN_Type.

(** The stores of a loop whose body is one store to element [j] of a
    register array. *)
Lemma for_each_wr_trace (f : Z -> reg) (inst v : Z) (n : nat) :
  forall i st,
    trace (snd (for_each n i (fun j => wr hw inst (f j) v) st))
    = trace st ++ map (fun j => Wr inst (f j) v) (seqZ i (Z.of_nat n)).
Proof.
  induction n as [|n IH]; intros i st.
  - cbn. rewrite app_nil_r. reflexivity.
  - cbn [for_each]. rewrite snd_bind, IH.
    rewrite (seqZ_cons i (Z.of_nat (S n))) by lia.
    replace (Z.pred (Z.of_nat (S n))) with (Z.of_nat n) by lia.
    replace (Z.succ i) with (i + 1) by lia.
    unfold wr at 1. unfold trace. cbn [snd bus map].
    rewrite trace_cons, <- app_assoc. reflexivity.
Qed.

Hypothesis Hidle : forall b, hw b = b.

Variable f : Z -> reg.
Variable size : Z.
Hypothesis f_same : forall j v b,
  bank_wf b -> 0 <= j < size -> read_reg (f j) (write_reg (f j) v b) = v.
Hypothesis f_other : forall j k v b,
  0 <= j -> 0 <= k -> j <> k ->
  read_reg (f k) (write_reg (f j) v b) = read_reg (f k) b.
Hypothesis f_rest : forall r j v b,
  (forall k, r <> f k) -> read_reg r (write_reg (f j) v b) = read_reg r b.

Lemma for_each_wr_bank (inst v : Z) (n : nat) :
  forall i st,
    0 <= i -> i + Z.of_nat n <= size -> bank_wf (bank st inst) ->
    let b' := bank (snd (for_each n i (fun j => wr hw inst (f j) v) st)) inst in
    bank_wf b' /\
    (forall k, 0 <= k ->
       read_reg (f k) b'
       = if (i <=? k) && (k <? i + Z.of_nat n) then v
         else read_reg (f k) (bank st inst)) /\
    (forall r, (forall k, r <> f k) ->
       read_reg r b' = read_reg r (bank st inst)).
Proof.
  induction n as [|n IH]; intros i st Hi Hn Hwf b'; subst b'.
  - cbn [for_each ret snd]. split; [exact Hwf|]. split; [|reflexivity].
    intros k Hk.
    destruct (Z.leb_spec i k); destruct (Z.ltb_spec k (i + Z.of_nat 0));
      cbn [andb]; try lia; reflexivity.
  - cbn [for_each]. rewrite snd_bind.
    set (st1 := snd (wr hw inst (f i) v st)).
    assert (B1 : bank st1 inst = write_reg (f i) v (bank st inst)).
    { unfold st1. apply bank_wr_same. exact Hidle. }
    destruct (IH (i + 1) st1) as (W & Hin & Hrest); try lia.
    { rewrite B1. apply write_reg_wf. exact Hwf. }
    split; [exact W|]. split.
    + intros k Hk. rewrite Hin by exact Hk. rewrite B1.
      destruct (Z.leb_spec (i + 1) k) as [L1|L1];
        destruct (Z.ltb_spec k (i + 1 + Z.of_nat n)) as [L2|L2];
        destruct (Z.leb_spec i k) as [L3|L3];
        destruct (Z.ltb_spec k (i + Z.of_nat (S n))) as [L4|L4];
        cbn [andb]; try lia; try reflexivity;
        try (symmetry; apply f_other; lia);
        try (apply f_other; lia).
      all: assert (k = i) by lia; subst k; apply f_same; [exact Hwf|lia].
    + intros r Hr. rewrite Hrest by exact Hr. rewrite B1.
      apply f_rest. exact Hr.
Qed.

End LoopStores.

(** X15.  [CAN_InitMessageBuffers] stores 0 to the 128 words of the
    mailbox RAM in ascending order, then 0xFFFFFFFF to the individual
    masks 0..15, then 0xFFFFFFFF to the flag register, and nothing else.
    Under a passive controller this leaves every mailbox word 0, the
    masks 0..15 all ones and every flag clear; the individual masks
    16..31, those of the receive mailboxes, are as before, as is every
    other register. *)
Theorem InitMessageBuffers_effect (hw : CAN_Type -> CAN_Type) (st : driver)
    (inst : Z) :
  let st' := snd (CAN_InitMessageBuffers hw inst st) in
  trace st' = trace st
              ++ map (fun i => Wr inst (rRAMn i) 0) (seqZ 0 128)
              ++ map (fun i => Wr inst (rRXIMR i) 0xFFFFFFFF) (seqZ 0 16)
              ++ [Wr inst rIFLAG1 0xFFFFFFFF] /\
  ((forall b, hw b = b) -> bank_wf (bank st inst) ->
   (forall i, 0 <= i < 128 -> read_reg (rRAMn i) (bank st' inst) = 0) /\
   (forall i, 0 <= i < 16 ->
      read_reg (rRXIMR i) (bank st' inst) = 0xFFFFFFFF) /\
   (forall i, 16 <= i < 32 ->
      read_reg (rRXIMR i) (bank st' inst)
      = read_reg (rRXIMR i) (bank st inst)) /\
   IFLAG1 (bank st' inst) = 0 /\
   (forall r, r <> rIFLAG1 -> (forall i, r <> rRAMn i) ->
      (forall i, r <> rRXIMR i) ->
      read_reg r (bank st' inst) = read_reg r (bank st inst))).
Proof.
  intros st'. subst st'. unfold CAN_InitMessageBuffers.
  rewrite !snd_bind.
  set (s1 := snd (for_each 128 0 (fun i => wr hw inst (rRAMn i) 0) st)).
  set (s2 := snd (for_each 16 0 (fun i => wr hw inst (rRXIMR i) 0xFFFFFFFF)
                    s1)).
  split.
  - unfold wr at 1. unfold trace at 1. cbn [snd bus]. rewrite trace_cons.
    fold (trace s2). unfold s2. rewrite for_each_wr_trace.
    fold s1. unfold s1. rewrite for_each_wr_trace.
    rewrite <- !app_assoc. reflexivity.
  - intros Hidle Hwf.
    destruct (for_each_wr_bank hw Hidle rRAMn 128) with
      (inst := inst) (v := 0) (n := 128%nat) (i := 0) (st := st)
      as (W1 & R1 & O1); try (exact Hwf || lia).
    { intros j v b Hb Hj. apply ram_write_same; assumption. }
    { intros j k v b Hj Hk Hne. apply read_write_other. lia. }
    { intros r j v b Hr. apply read_write_other.
      destruct r; try discriminate. specialize (Hr i). congruence. }
    fold s1 in W1, R1, O1.
    destruct (for_each_wr_bank hw Hidle rRXIMR 32) with
      (inst := inst) (v := 0xFFFFFFFF) (n := 16%nat) (i := 0) (st := s1)
      as (W2 & R2 & O2); try (exact W1 || lia).
    { intros j v b Hb Hj. apply rximr_write_same; assumption. }
    { intros j k v b Hj Hk Hne. apply read_write_other. lia. }
    { intros r j v b Hr. apply read_write_other.
      destruct r; try discriminate. specialize (Hr i). congruence. }
    fold s2 in W2, R2, O2.
    rewrite bank_wr_same by exact Hidle.
    assert (Hkeep : forall r, r <> rIFLAG1 ->
              read_reg r (write_reg rIFLAG1 0xFFFFFFFF (bank s2 inst))
              = read_reg r (bank s2 inst)).
    { intros r Hr. apply read_write_other. destruct r; congruence. }
    split; [|split; [|split; [|split]]].
    + intros i Hi. rewrite Hkeep by discriminate.
      rewrite O2 by discriminate. rewrite R1 by lia.
      replace (0 <=? i) with true by (symmetry; apply Z.leb_le; lia).
      replace (i <? 0 + Z.of_nat 128) with true
        by (symmetry; apply Z.ltb_lt; lia).
      reflexivity.
    + intros i Hi. rewrite Hkeep by discriminate. rewrite R2 by lia.
      replace (0 <=? i) with true by (symmetry; apply Z.leb_le; lia).
      replace (i <? 0 + Z.of_nat 16) with true
        by (symmetry; apply Z.ltb_lt; lia).
      reflexivity.
    + intros i Hi. rewrite Hkeep by discriminate. rewrite R2 by lia.
      replace (i <? 0 + Z.of_nat 16) with false
        by (symmetry; apply Z.ltb_ge; lia).
      rewrite andb_false_r. apply O1. discriminate.
    + rewrite IFLAG1_write_reg. change (not32 0xFFFFFFFF) with 0.
      apply Z.land_0_r.
    + intros r H1 H2 H3. rewrite Hkeep by exact H1.
      rewrite O2 by exact H3. apply O1. exact H2.
Qed.


Lemma InitMessageBuffers_effect_witness :
  let st' := snd (CAN_InitMessageBuffers hw_idle 0 scenario_C) in
  (forall i, 0 <= i < 128 -> read_reg (rRAMn i) (bank st' 0) = 0) /\
  IFLAG1 (bank st' 0) = 0.
Proof.
  intros st'.
  destruct (InitMessageBuffers_effect hw_idle scenario_C 0) as [_ H].
  destruct H as (Hram & _ & _ & Hflag & _).
  - reflexivity.
  - split; reflexivity.
  - split; [exact Hram|exact Hflag].
Defined.

(** ** Queries *)

(** X16.  [CAN_GetErrorState] loads [ESR1] once and reports the
    fault-confinement field by its two bits: bus-off whenever bit 5 is
    set, error-passive when only bit 4 is set, error-active when both are
    clear. *)
Theorem GetErrorState_decodes (hw : CAN_Type -> CAN_Type) (st : driver)
    (inst : Z) (e0 : can_error_state_t) :
  0 <= inst < 3 ->
  let v := ESR1 (hw (bank st inst)) in
  fst (CAN_GetErrorState hw inst (Some e0) st)
  = (STATUS_SUCCESS,
     Some (if Z.testbit v 5 then CAN_ERROR_BUS_OFF
           else if Z.testbit v 4 then CAN_ERROR_PASSIVE
           else CAN_ERROR_ACTIVE)) /\
  trace (snd (CAN_GetErrorState hw inst (Some e0) st))
  = trace st ++ [Rd inst rESR1 v].
Proof.
  intros Hi v. unfold CAN_GetErrorState.
  rewrite instance_in_range by exact Hi.
  rewrite fst_bind, snd_bind. unfold rd, trace, bank in *.
  cbn [fst snd ret bus read_reg]. fold v. split; [|reflexivity].
  do 2 f_equal.
  unfold CAN_ESR1_FLTCONF_MASK, CAN_ESR1_FLTCONF_SHIFT.
  change 0x30 with (Z.lor (2 ^ 4) (2 ^ 5)).
  rewrite Z.land_lor_distr_r, !land_pow2_value by lia.
  destruct (Z.testbit v 4), (Z.testbit v 5); reflexivity.
Qed.

Lemma GetErrorState_decodes_witness :
  let st := Driver (fun _ => Regs 0 0 0 0 0x0003FF20 0 0 0 (replicate 128 0)
                                  (replicate 32 0))
                   [false; false; false] [NULL; NULL; NULL] [] in
  fst (CAN_GetErrorState hw_idle 0 (Some CAN_ERROR_ACTIVE) st)
  = (STATUS_SUCCESS, Some CAN_ERROR_BUS_OFF) /\
  trace (snd (CAN_GetErrorState hw_idle 0 (Some CAN_ERROR_ACTIVE) st))
  = [Rd 0 rESR1 0x0003FF20].
Proof.
  intros st.
  apply (GetErrorState_decodes hw_idle st 0 CAN_ERROR_ACTIVE). lia.
Defined.

Section ReadOnly.

Variable hw : CAN_Type -> CAN_Type.

Lemma read_only_ret {A} (a : A) : read_only hw (ret a).
Proof.
  intros st. split; [exists []; split; reflexivity|]. repeat split.
Qed.

Lemma read_only_rd (inst : Z) (r : reg) : read_only hw (rd hw inst r).
Proof.
  intros st. split; [eexists [_]; split; reflexivity|].
  split; [reflexivity|]. split; [reflexivity|].
  intros Hidle i. apply bank_rd. exact Hidle.
Qed.

Lemma read_only_bind {A B} (c : M A) (k : A -> M B) :
  read_only hw c -> (forall a, read_only hw (k a)) ->
  read_only hw (bind c k).
Proof.
  intros Hc Hk st. unfold bind.
  destruct (Hc st) as ((l1 & E1 & L1) & F1 & C1 & B1).
  destruct (c st) as [a st1]. cbn [snd] in *.
  destruct (Hk a st1) as ((l2 & E2 & L2) & F2 & C2 & B2).
  split.
  { exists (l2 ++ l1). split.
    - rewrite E2, E1, app_assoc. reflexivity.
    - rewrite forallb_app, L1, L2. reflexivity. }
  split; [congruence|]. split; [congruence|].
  intros Hidle i. rewrite B2, B1 by exact Hidle. reflexivity.
Qed.

End ReadOnly.

(** X17.  The three queries [CAN_IsMbBusy], [CAN_GetErrorState] and
    [CAN_GetErrorCounters] never store and never call back: whatever
    their arguments and whatever the controller does, the log grows by
    loads only and the two tables are unchanged, and under a passive
    controller every register is as before.  With a null result pointer
    they return [STATUS_INVALID_PARAM] without any bus access. *)
Theorem queries_read_only (hw : CAN_Type -> CAN_Type) :
  (forall inst mb isBusy, read_only hw (CAN_IsMbBusy hw inst mb isBusy)) /\
  (forall inst e, read_only hw (CAN_GetErrorState hw inst e)) /\
  (forall inst tx rx, read_only hw (CAN_GetErrorCounters hw inst tx rx)) /\
  (forall inst mb st,
     CAN_IsMbBusy hw inst mb None st = (STATUS_INVALID_PARAM, None, st)) /\
  (forall inst st,
     CAN_GetErrorState hw inst None st = (STATUS_INVALID_PARAM, None, st)) /\
  (forall inst tx rx st,
     tx = None \/ rx = None ->
     CAN_GetErrorCounters hw inst tx rx st
     = (STATUS_INVALID_PARAM, tx, rx, st)).
Proof.
  split; [|split; [|split; [|split; [|split]]]].
  - intros inst mb isBusy. unfold CAN_IsMbBusy.
    destruct (_ || _), isBusy; try apply read_only_ret.
    apply read_only_bind; [apply read_only_rd|]. intros cs.
    apply read_only_ret.
  - intros inst e. unfold CAN_GetErrorState.
    destruct (_ <=? _), e; try apply read_only_ret.
    apply read_only_bind; [apply read_only_rd|]. intros v.
    apply read_only_ret.
  - intros inst tx rx. unfold CAN_GetErrorCounters.
    destruct (_ <=? _), tx, rx; try apply read_only_ret.
    apply read_only_bind; [apply read_only_rd|]. intros e1.
    apply read_only_bind; [apply read_only_rd|]. intros e2.
    apply read_only_ret.
  - intros inst mb st. unfold CAN_IsMbBusy. destruct (_ || _); reflexivity.
  - intros inst st. unfold CAN_GetErrorState.
    destruct (_ <=? _); reflexivity.
  - intros inst tx rx st H. unfold CAN_GetErrorCounters.
    destruct (_ <=? _), tx, rx; try reflexivity;
      destruct H; discriminate.
Qed.

(** ** Clearing one mailbox *)

(** X18.  After [CAN_ClearMb], under a passive controller, the four words
    of the mailbox are 0, the words of every other mailbox are as before,
    and [CAN_IsMbBusy] reports the mailbox as not busy. *)
Theorem ClearMb_effect (hw : CAN_Type -> CAN_Type) (st : driver)
    (inst mb : Z) (b0 : bool) :
  (forall b, hw b = b) ->
  bank_wf (bank st inst) ->
  0 <= inst < 3 ->
  0 <= mb < 32 ->
  let st' := snd (CAN_ClearMb hw inst mb st) in
  mailbox_holds (bank st' inst) mb 0 0 0 0 /\
  (forall j, 0 <= j -> j / 4 <> mb ->
     read_reg (rRAMn j) (bank st' inst) = read_reg (rRAMn j) (bank st inst)) /\
  fst (CAN_IsMbBusy hw inst mb (Some b0) st') = (STATUS_SUCCESS, Some false).
Proof.
  intros Hidle Hwf Hi Hmb st'. subst st'.
  unfold CAN_ClearMb. rewrite mb_offset by exact Hmb. rewrite Z.add_0_r.
  set (stf := snd _).
  assert (B : bank stf inst
              = write_reg (rRAMn (mb * 4 + 3)) 0
                  (write_reg (rRAMn (mb * 4 + 2)) 0
                     (write_reg (rRAMn (mb * 4 + 1)) 0
                        (write_reg (rRAMn (mb * 4)) 0 (bank st inst))))).
  { unfold stf. idle_bank Hidle. reflexivity. }
  assert (Hword : forall r, 0 <= r < 4 ->
            read_reg (rRAMn (mb * 4 + r)) (bank stf inst) = 0).
  { intros r Hr. rewrite B.
    assert (Hc : r = 0 \/ r = 1 \/ r = 2 \/ r = 3) by lia.
    destruct Hc as [->|[->|[->| ->]]]; rewrite ?Z.add_0_r;
      repeat first
        [ apply ram_write_same;
          [repeat apply write_reg_wf; exact Hwf|lia]
        | rewrite read_write_other by lia ]. }
  split; [|split].
  - unfold mailbox_holds.
    split; [rewrite <- (Z.add_0_r (mb * 4)); apply Hword; lia|].
    repeat split; apply Hword; lia.
  - intros j Hj Hne. rewrite B.
    assert (j <> mb * 4 /\ j <> mb * 4 + 1 /\ j <> mb * 4 + 2
            /\ j <> mb * 4 + 3) as (N0 & N1 & N2 & N3).
    { repeat split; intros ->; apply Hne;
        [apply mailbox_word0|apply mailbox_word; lia..]. }
    rewrite !read_write_other by lia. reflexivity.
  - rewrite (IsMbBusy_valid hw Hidle) by assumption.
    rewrite <- (Z.add_0_r (mb * 4)), Hword by lia. reflexivity.
Qed.

Lemma ClearMb_effect_witness :
  let st' := snd (CAN_ClearMb hw_idle 0 16 delivered) in
  mailbox_holds (bank st' 0) 16 0 0 0 0 /\
  (forall j, 0 <= j -> j / 4 <> 16 ->
     read_reg (rRAMn j) (bank st' 0) = read_reg (rRAMn j) (bank delivered 0)) /\
  fst (CAN_IsMbBusy hw_idle 0 16 (Some true) st') = (STATUS_SUCCESS, Some false).
Proof.
  apply (ClearMb_effect hw_idle delivered 0 16 true).
  - reflexivity.
  - split; reflexivity.
  - lia.
  - lia.
Defined.

(** ** The range of the bit-timing calculator *)

Lemma prescaler_in_range (clk baud tq : Z) :
  0 < baud -> 0 < tq -> baud * tq < 2 ^ 32 -> 0 <= clk < 2 ^ 32 ->
  (prescaler clk baud tq <= 255 <-> baud * tq <= clk < 257 * (baud * tq)).
Proof.
  intros Hb Htq Hw Hclk. unfold prescaler.
  rewrite (u32_small (baud * tq)) by lia.
  set (d := baud * tq) in *.
  assert (Hd : 0 < d) by (unfold d; lia).
  pose proof (Z.div_mod clk d ltac:(lia)) as Hdm.
  pose proof (Z.mod_pos_bound clk d Hd) as Hr.
  set (q := clk / d) in *. set (r := clk mod d) in *.
  assert (Hq : 0 <= q <= clk) by nia.
  destruct (Z.eq_dec q 0) as [Hz|Hnz].
  - rewrite Hz. change (u32 (0 - 1)) with 4294967295. nia.
  - rewrite u32_small by lia. split; intros H; nia.
Qed.

(** X19.  For a non-zero bit rate whose 16-fold fits 32 bits and a 32-bit
    clock, [CAN_CalculateTiming] succeeds exactly when the clock is at
    least 8 times and less than 4112 times the bit rate; otherwise it
    returns [STATUS_INVALID_PARAM] and leaves the caller's structure as it
    was. *)
Theorem CalculateTiming_range (clk baud : Z) (t : can_timing_config_t) :
  0 < baud -> baud * 16 < 2 ^ 32 -> 0 <= clk < 2 ^ 32 ->
  (fst (CAN_CalculateTiming clk baud (Some t)) = STATUS_SUCCESS
   <-> 8 * baud <= clk < 4112 * baud) /\
  (fst (CAN_CalculateTiming clk baud (Some t)) <> STATUS_SUCCESS ->
   CAN_CalculateTiming clk baud (Some t) = (STATUS_INVALID_PARAM, Some t)).
Proof.
  intros Hb Hw Hclk.
  pose proof (prescaler_in_range clk baud 16 Hb ltac:(lia) Hw Hclk) as P16.
  pose proof (prescaler_in_range clk baud 8 Hb ltac:(lia) ltac:(lia) Hclk)
    as P8.
  unfold CAN_CalculateTiming.
  replace (baud =? 0) with false by (symmetry; apply Z.eqb_neq; lia).
  cbn [orb].
  destruct (Z.eqb_spec clk 0) as [Hz|Hnz].
  { cbn [fst]. split; [|reflexivity].
    split; [discriminate|]. intros H. exfalso. lia. }
  destruct (Z.ltb_spec 255 (prescaler clk baud 16)) as [H16|H16].
  - destruct (Z.ltb_spec 255 (prescaler clk baud 8)) as [H8|H8]; cbn [fst].
    + split; [|reflexivity]. split; [discriminate|].
      intros H. exfalso.
      assert (~ (baud * 16 <= clk < 257 * (baud * 16)))
        by (intros Hin; apply P16 in Hin; lia).
      assert (~ (baud * 8 <= clk < 257 * (baud * 8)))
        by (intros Hin; apply P8 in Hin; lia).
      lia.
    + split; [|intros H; contradiction].
      split; [|reflexivity]. intros _.
      assert (baud * 8 <= clk < 257 * (baud * 8)) by (apply P8; lia). lia.
  - cbn [fst]. split; [|intros H; contradiction].
    split; [|reflexivity]. intros _.
    assert (baud * 16 <= clk < 257 * (baud * 16)) by (apply P16; lia). lia.
Qed.

Lemma CalculateTiming_range_witness :
  (fst (CAN_CalculateTiming 40000000 500000 (Some (Timing 0 0 0 0 0)))
   = STATUS_SUCCESS
   <-> 8 * 500000 <= 40000000 < 4112 * 500000) /\
  (fst (CAN_CalculateTiming 40000000 500000 (Some (Timing 0 0 0 0 0)))
   <> STATUS_SUCCESS ->
   CAN_CalculateTiming 40000000 500000 (Some (Timing 0 0 0 0 0))
   = (STATUS_INVALID_PARAM, Some (Timing 0 0 0 0 0))).
Proof.
  apply (CalculateTiming_range 40000000 500000 (Timing 0 0 0 0 0)).
  - lia.
  - reflexivity.
  - split; [lia|reflexivity].
Defined.


(** ** The shape of the driver's tables *)

Lemma shape_ret {A} (a : A) : keeps_shape (ret a).
Proof. intros st. split; reflexivity. Qed.

Lemma shape_get : keeps_shape get.
Proof. intros st. split; reflexivity. Qed.

Lemma shape_bind {A B} (c : M A) (k : A -> M B) :
  keeps_shape c -> (forall a, keeps_shape (k a)) -> keeps_shape (bind c k).
Proof.
  intros Hc Hk st. unfold bind. destruct (Hc st) as [L1 C1].
  destruct (c st) as [a st1]. cbn [snd] in *.
  destruct (Hk a st1) as [L2 C2]. split; congruence.
Qed.

Lemma shape_set_initialized (inst : Z) (v : bool) :
  keeps_shape (set_initialized inst v).
Proof.
  intros st. unfold set_initialized. cbn. rewrite length_insert.
  split; reflexivity.
Qed.

Lemma shape_call (cb base : Z) (ev : can_event_t) (d : can_event_data_t) :
  keeps_shape (call cb base ev d).
Proof. intros st. split; reflexivity. Qed.

Section Shape.

Variable hw : CAN_Type -> CAN_Type.

Lemma shape_rd (inst : Z) (r : reg) : keeps_shape (rd hw inst r).
Proof. intros st. split; reflexivity. Qed.

Lemma shape_wr (inst : Z) (r : reg) (v : Z) : keeps_shape (wr hw inst r v).
Proof. intros st. split; reflexivity. Qed.

(** Walk through a computation built from loads, stores, tests and
    sequencing. *)
Ltac shape_step :=
  first
    [ apply shape_ret | apply shape_get | apply shape_rd | apply shape_wr
    | apply shape_set_initialized | apply shape_call
    | assumption
    | apply shape_bind; [|intros ?]
    | match goal with
      | |- keeps_shape (if ?b then _ else _) => destruct b
      | |- keeps_shape (match ?x with _ => _ end) => destruct x
      | |- keeps_shape (let '(_, _) := ?x in _) => destruct x
      end ].

Ltac shape := repeat shape_step.

Lemma shape_set_bits (inst : Z) (r : reg) (m : Z) :
  keeps_shape (set_bits hw inst r m).
Proof. unfold set_bits. shape. Qed.

Lemma shape_clear_bits (inst : Z) (r : reg) (m : Z) :
  keeps_shape (clear_bits hw inst r m).
Proof. unfold clear_bits. shape. Qed.

Lemma shape_poll_mcr (n : nat) (inst : Z) (waiting : Z -> bool) :
  keeps_shape (poll_mcr hw n inst waiting).
Proof. induction n as [|n IH]; cbn [poll_mcr]; shape. Qed.

Lemma shape_for_each (n : nat) (body : Z -> M unit) :
  (forall i, keeps_shape (body i)) ->
  forall i, keeps_shape (for_each n i body).
Proof.
  intros Hbody. induction n as [|n IH]; intros i; cbn [for_each];
    [apply shape_ret|].
  apply shape_bind; [apply Hbody|]. intros _. apply IH.
Qed.

Lemma shape_Send (inst mb : Z) (msg : option can_message_t) :
  keeps_shape (CAN_Send hw inst mb msg).
Proof. unfold CAN_Send. shape. Qed.

Lemma shape_send_wait (n : nat) (inst mask : Z) :
  keeps_shape (send_wait hw n inst mask).
Proof. induction n as [|n IH]; cbn [send_wait]; shape. Qed.

Lemma shape_SendBlocking (inst mb : Z) (msg : option can_message_t) (t : Z) :
  keeps_shape (CAN_SendBlocking hw inst mb msg t).
Proof.
  unfold CAN_SendBlocking.
  apply shape_bind; [apply shape_Send|]. intros s.
  destruct (negb _); [apply shape_ret|apply shape_send_wait].
Qed.

Lemma shape_Receive (inst mb : Z) (msg : option can_message_t) :
  keeps_shape (CAN_Receive hw inst mb msg).
Proof. unfold CAN_Receive. shape. Qed.

Lemma shape_receive_wait (n : nat) (inst mb mask : Z)
    (msg : option can_message_t) :
  keeps_shape (receive_wait hw n inst mb mask msg).
Proof.
  induction n as [|n IH]; cbn [receive_wait]; [apply shape_ret|].
  apply shape_bind; [apply shape_rd|]. intros f.
  destruct (negb _); [apply shape_Receive|exact IH].
Qed.

Lemma shape_ReceiveBlocking (inst mb : Z) (msg : option can_message_t)
    (t : Z) :
  keeps_shape (CAN_ReceiveBlocking hw inst mb msg t).
Proof.
  unfold CAN_ReceiveBlocking.
  destruct (_ <=? _), msg; try apply shape_ret.
  apply shape_bind; [apply shape_get|]. intros s.
  destruct (negb _); [apply shape_ret|apply shape_receive_wait].
Qed.

Lemma shape_ConfigRxFilter (inst mb : Z) (flt : option can_rx_filter_t) :
  keeps_shape (CAN_ConfigRxFilter hw inst mb flt).
Proof.
  unfold CAN_ConfigRxFilter.
  destruct (_ <=? _), flt; try apply shape_ret.
  apply shape_bind; [apply shape_get|]. intros s.
  destruct (negb _); [apply shape_ret|].
  destruct (_ || _); [apply shape_ret|].
  apply shape_bind; [apply shape_wr|]. intros _.
  apply shape_bind; [apply shape_wr|]. intros _.
  apply shape_bind; [apply shape_wr|]. intros _.
  apply shape_bind; [apply shape_set_bits|]. intros _. apply shape_ret.
Qed.

Lemma shape_ConfigTxMailbox (inst mb : Z) :
  keeps_shape (CAN_ConfigTxMailbox hw inst mb).
Proof.
  unfold CAN_ConfigTxMailbox.
  destruct (_ <=? _); [apply shape_ret|].
  apply shape_bind; [apply shape_get|]. intros s.
  destruct (negb _); [apply shape_ret|].
  destruct (_ || _); [apply shape_ret|].
  apply shape_bind; [apply shape_wr|]. intros _.
  apply shape_bind; [apply shape_set_bits|]. intros _. apply shape_ret.
Qed.

Lemma shape_AbortTransmission (inst mb : Z) :
  keeps_shape (CAN_AbortTransmission hw inst mb).
Proof. unfold CAN_AbortTransmission. shape. Qed.

Lemma shape_IsMbBusy (inst mb : Z) (b : option bool) :
  keeps_shape (CAN_IsMbBusy hw inst mb b).
Proof. unfold CAN_IsMbBusy. shape. Qed.

Lemma shape_GetErrorState (inst : Z) (e : option can_error_state_t) :
  keeps_shape (CAN_GetErrorState hw inst e).
Proof. unfold CAN_GetErrorState. shape. Qed.

Lemma shape_GetErrorCounters (inst : Z) (tx rx : option Z) :
  keeps_shape (CAN_GetErrorCounters hw inst tx rx).
Proof. unfold CAN_GetErrorCounters. shape. Qed.

Lemma shape_Deinit (inst : Z) : keeps_shape (CAN_Deinit hw inst).
Proof.
  unfold CAN_Deinit. destruct (_ <=? _); [apply shape_ret|].
  apply shape_bind; [apply shape_set_bits|]. intros _. shape.
Qed.

Lemma shape_EnableClock (inst : Z) (src : can_clk_src_t) :
  keeps_shape (CAN_EnableClock hw inst src).
Proof.
  unfold CAN_EnableClock.
  apply shape_bind; [apply shape_set_bits|]. intros _.
  apply shape_bind; [|intros _; apply shape_clear_bits].
  destruct (decide _); [apply shape_clear_bits|apply shape_set_bits].
Qed.

Lemma shape_EnterFreezeMode (inst : Z) :
  keeps_shape (CAN_EnterFreezeMode hw inst).
Proof.
  unfold CAN_EnterFreezeMode.
  apply shape_bind; [apply shape_set_bits|]. intros _.
  apply shape_bind; [apply shape_poll_mcr|]. intros t. apply shape_ret.
Qed.

Lemma shape_SoftReset (inst : Z) : keeps_shape (CAN_SoftReset hw inst).
Proof.
  unfold CAN_SoftReset.
  apply shape_bind; [apply shape_set_bits|]. intros _.
  apply shape_bind; [apply shape_poll_mcr|]. intros t. apply shape_ret.
Qed.

Lemma shape_ExitFreezeMode (inst : Z) :
  keeps_shape (CAN_ExitFreezeMode hw inst).
Proof.
  unfold CAN_ExitFreezeMode.
  apply shape_bind; [apply shape_clear_bits|]. intros _.
  apply shape_bind; [apply shape_poll_mcr|]. intros [|t];
    [apply shape_ret|].
  apply shape_bind; [apply shape_poll_mcr|]. intros t'. apply shape_ret.
Qed.

Lemma shape_InitMessageBuffers (inst : Z) :
  keeps_shape (CAN_InitMessageBuffers hw inst).
Proof.
  unfold CAN_InitMessageBuffers.
  apply shape_bind; [apply shape_for_each; intros i; apply shape_wr|].
  intros _.
  apply shape_bind; [apply shape_for_each; intros i; apply shape_wr|].
  intros _. apply shape_wr.
Qed.

Lemma shape_Init (config : option can_config_t) :
  keeps_shape (CAN_Init hw config).
Proof.
  unfold CAN_Init. destruct config as [cfg|]; [|apply shape_ret].
  destruct (_ <=? _); [apply shape_ret|].
  apply shape_bind; [apply shape_EnableClock|]. intros _.
  apply shape_bind; [apply shape_EnterFreezeMode|]. intros s1.
  destruct (negb (bool_decide (s1 = STATUS_SUCCESS))); [apply shape_ret|].
  apply shape_bind; [apply shape_SoftReset|]. intros s2.
  destruct (negb (bool_decide (s2 = STATUS_SUCCESS))); [apply shape_ret|].
  destruct (CAN_CalculateTiming _ _ _) as [[] [timing|]];
    try apply shape_ret.
  apply shape_bind; [apply shape_wr|]. intros _.
  apply shape_bind.
  { destruct (decide (mode cfg = CAN_MODE_LOOPBACK));
      [apply shape_set_bits|].
    destruct (decide (mode cfg = CAN_MODE_LISTEN_ONLY));
      [apply shape_set_bits|apply shape_ret]. }
  intros _. apply shape_bind.
  { destruct (negb (enableSelfReception cfg));
      [apply shape_set_bits|apply shape_ret]. }
  intros _. apply shape_bind.
  { destruct (useRxFifo cfg); [apply shape_set_bits|apply shape_clear_bits]. }
  intros _. apply shape_bind.
  { apply shape_bind; [apply shape_rd|]. intros v. apply shape_wr. }
  intros _. apply shape_bind; [apply shape_InitMessageBuffers|].
  intros _. apply shape_bind; [apply shape_wr|].
  intros _. apply shape_bind; [apply shape_wr|].
  intros _. apply shape_bind; [apply shape_ExitFreezeMode|]. intros s3.
  destruct (negb (bool_decide (s3 = STATUS_SUCCESS))); [apply shape_ret|].
  apply shape_bind; [apply shape_set_initialized|]. intros _.
  apply shape_ret.
Qed.

Lemma shape_irq_service (instance idx k : Z) :
  keeps_shape (irq_service hw instance idx k).
Proof.
  unfold irq_service, CAN_ReadMbCs, CAN_ReadMbId, CAN_CopyDataFromMb,
    CAN_ReadMbData, CAN_WriteMbCs.
  apply shape_bind; [apply shape_rd|]. intros cs.
  apply shape_bind.
  - destruct (_ =? CAN_CS_CODE_TX_INACTIVE); [shape|].
    destruct (_ =? CAN_CS_CODE_RX_FULL); [|shape].
    apply shape_bind; [apply shape_rd|]. intros idw.
    destruct (negb (Z.land cs CAN_WMBn_CS_IDE_MASK =? 0)); shape.
  - intros [event eventData]. shape.
Qed.

Lemma shape_irq_scan (n : nat) (mbIdx instance idx f : Z) :
  keeps_shape (irq_scan hw n mbIdx instance idx f).
Proof.
  revert mbIdx. induction n as [|n IH]; intros mbIdx; cbn [irq_scan].
  - apply shape_ret.
  - destruct (negb _); [apply shape_irq_service|apply IH].
Qed.

Lemma shape_IRQHandler (base : Z) : keeps_shape (CAN_IRQHandler hw base).
Proof.
  unfold CAN_IRQHandler.
  apply shape_bind; [apply shape_get|]. intros s.
  destruct (_ || _); [apply shape_ret|].
  apply shape_bind; [apply shape_rd|]. intros f.
  destruct (negb _); [apply shape_irq_scan|apply shape_ret].
Qed.

End Shape.

Lemma shape_wf {A} (c : M A) (st : driver) :
  keeps_shape c -> tables_wf st -> tables_wf (snd (c st)).
Proof.
  intros Hc [H1 H2]. destruct (Hc st) as [L C]. split; congruence.
Qed.

(** X20.  The two tables of the driver keep their three entries under
    every operation of the driver, whatever the arguments and whatever
    the controller does; and apart from [CAN_RegisterCallback] and
    [CAN_UnregisterCallback] no operation, the interrupt handler
    included, changes the callback table. *)
Theorem tables_preserved (hw : CAN_Type -> CAN_Type) :
  (forall config, keeps_shape (CAN_Init hw config)) /\
  (forall inst, keeps_shape (CAN_Deinit hw inst)) /\
  (forall inst mb msg, keeps_shape (CAN_Send hw inst mb msg)) /\
  (forall inst mb msg t, keeps_shape (CAN_SendBlocking hw inst mb msg t)) /\
  (forall inst mb msg, keeps_shape (CAN_Receive hw inst mb msg)) /\
  (forall inst mb msg t, keeps_shape (CAN_ReceiveBlocking hw inst mb msg t)) /\
  (forall inst mb flt, keeps_shape (CAN_ConfigRxFilter hw inst mb flt)) /\
  (forall inst mb, keeps_shape (CAN_ConfigTxMailbox hw inst mb)) /\
  (forall inst mb, keeps_shape (CAN_AbortTransmission hw inst mb)) /\
  (forall inst mb b, keeps_shape (CAN_IsMbBusy hw inst mb b)) /\
  (forall inst e, keeps_shape (CAN_GetErrorState hw inst e)) /\
  (forall inst tx rx, keeps_shape (CAN_GetErrorCounters hw inst tx rx)) /\
  (forall base, keeps_shape (CAN_IRQHandler hw base)) /\
  (forall base cb st,
     tables_wf st -> tables_wf (snd (CAN_RegisterCallback base cb st))) /\
  (forall base st,
     tables_wf st -> tables_wf (snd (CAN_UnregisterCallback base st))).
Proof.
  repeat split;
    auto using shape_Init, shape_Deinit, shape_Send, shape_SendBlocking,
      shape_Receive, shape_ReceiveBlocking, shape_ConfigRxFilter,
      shape_ConfigTxMailbox, shape_AbortTransmission, shape_IsMbBusy,
      shape_GetErrorState, shape_GetErrorCounters, shape_IRQHandler.
  all: try (apply shape_Init || apply shape_Deinit || apply shape_Send
            || apply shape_SendBlocking || apply shape_Receive
            || apply shape_ReceiveBlocking || apply shape_ConfigRxFilter
            || apply shape_ConfigTxMailbox || apply shape_AbortTransmission
            || apply shape_IsMbBusy || apply shape_GetErrorState
            || apply shape_GetErrorCounters || apply shape_IRQHandler).
  all: match goal with
       | H : tables_wf _ |- _ => destruct H as [H1 H2]
       end;
       unfold CAN_RegisterCallback, CAN_UnregisterCallback;
       destruct (_ =? 0xFF); cbn; rewrite ?length_insert; assumption.
Qed.

(** ** The service layer *)

Lemma memcpy_all (dst src : list Z) :
  length src = 8%nat -> length dst = 8%nat -> memcpy dst src 8 = src.
Proof.
  intros Hs Hd. unfold memcpy.
  rewrite take_ge, drop_ge by lia. apply app_nil_r.
Qed.

Lemma drvMsg_data (m : can_srv_message_t) :
  data (drvMsg_of m)
  = take (Z.to_nat (dlc m)) (srv_data m)
    ++ replicate (8 - Z.to_nat (dlc m)) 0.
Proof.
  unfold drvMsg_of, memcpy. cbn [data].
  change [0; 0; 0; 0; 0; 0; 0; 0] with (replicate 8 0).
  rewrite drop_replicate. reflexivity.
Qed.

Lemma drvMsg_bytes (m : can_srv_message_t) :
  byte_array (srv_data m) -> 0 <= dlc m <= 8 ->
  byte_array (data (drvMsg_of m)).
Proof.
  intros [Hlen Hb] Hd. rewrite drvMsg_data. split.
  - rewrite length_app, length_take, length_replicate. lia.
  - apply Forall_app. split.
    + apply Forall_take. exact Hb.
    + apply Forall_replicate. lia.
Qed.

Lemma lookup_insert_flag (l : list bool) (i : nat) :
  (i < length l)%nat -> <[i := true]> l !!! i = true.
Proof. apply list_lookup_total_insert_eq. Qed.

Section ServiceProofs.

Variable hw : CAN_Type -> CAN_Type.
Variable driver_cb : can_callback_t.

Lemma ConfigRxFilter_ok (st : driver) (inst mb : Z) (flt : can_rx_filter_t) :
  0 <= inst < 3 -> initialized st inst = true -> 16 <= mb < 32 ->
  fst (CAN_ConfigRxFilter hw inst mb (Some flt) st) = STATUS_SUCCESS /\
  s_canInitialized (snd (CAN_ConfigRxFilter hw inst mb (Some flt) st))
  = s_canInitialized st /\
  s_canCallbacks (snd (CAN_ConfigRxFilter hw inst mb (Some flt) st))
  = s_canCallbacks st.
Proof.
  intros Hi Hinit Hmb. rewrite (ConfigRxFilter_valid hw) by assumption.
  repeat split.
Qed.

Lemma ConfigTxMailbox_ok (st : driver) (inst mb : Z) :
  0 <= inst < 3 -> initialized st inst = true -> 8 <= mb < 16 ->
  fst (CAN_ConfigTxMailbox hw inst mb st) = STATUS_SUCCESS /\
  s_canInitialized (snd (CAN_ConfigTxMailbox hw inst mb st))
  = s_canInitialized st /\
  s_canCallbacks (snd (CAN_ConfigTxMailbox hw inst mb st))
  = s_canCallbacks st.
Proof.
  intros Hi Hinit Hmb. rewrite (ConfigTxMailbox_valid hw) by assumption.
  repeat split.
Qed.

(** [CAN_SRV_Init] when [CAN_Init] fails. *)
Lemma SRV_Init_failure (cfg : can_srv_config_t) (s : service)
    (st1 : status_t) (d1 : driver) :
  CAN_Init hw (Some (canConfig_of 0 cfg)) (drv s) = (st1, d1) ->
  st1 <> STATUS_SUCCESS ->
  CAN_SRV_Init hw driver_cb (Some cfg) s
  = (CAN_SRV_ERROR,
     Service d1 (nvic s) (s_can_initialized s) 0 CAN0 (s_user_callback s)
             (user_calls s)).
Proof.
  intros E1 Hne. unfold CAN_SRV_Init.
  change CAN_DEFAULT_INSTANCE with 0. cbv zeta.
  rewrite E1. destruct st1; try contradiction; reflexivity.
Qed.

(** [CAN_SRV_Init] when [CAN_Init] succeeds: the four configuration calls
    that follow cannot fail. *)
Lemma SRV_Init_success (cfg : can_srv_config_t) (s : service) (d1 : driver) :
  CAN_Init hw (Some (canConfig_of 0 cfg)) (drv s) = (STATUS_SUCCESS, d1) ->
  initialized d1 0 = true ->
  exists d5,
    CAN_SRV_Init hw driver_cb (Some cfg) s
    = (CAN_SRV_SUCCESS,
       Service d5
         (NVIC_SetPriority CAN0_ORed_16_31_MB_IRQn 5
            (NVIC_SetPriority CAN0_ORed_0_15_MB_IRQn 5
               (NVIC_EnableInterrupt CAN0_ORed_16_31_MB_IRQn
                  (NVIC_EnableInterrupt CAN0_ORed_0_15_MB_IRQn (nvic s)))))
         true 0 CAN0 (s_user_callback s) (user_calls s)) /\
    s_canInitialized d5 = s_canInitialized d1 /\
    s_canCallbacks d5 = <[0%nat := driver_cb]> (s_canCallbacks d1).
Proof.
  intros E1 Hinit1.
  destruct (CAN_SRV_Init hw driver_cb (Some cfg) s) as [r s'] eqn:E.
  unfold CAN_SRV_Init in E.
  change CAN_DEFAULT_INSTANCE with 0 in E. cbv zeta in E.
  rewrite E1 in E.
  change (negb (bool_decide (STATUS_SUCCESS = STATUS_SUCCESS))) with false
    in E.
  cbv iota in E.
  (* primary filter *)
  match type of E with
  | context [CAN_ConfigRxFilter hw 0 CAN_RX_MB_PRIMARY (Some ?f) d1] =>
      destruct (ConfigRxFilter_ok d1 0 CAN_RX_MB_PRIMARY f)
        as (S2 & F2 & C2);
      [lia|exact Hinit1|unfold CAN_RX_MB_PRIMARY; lia|];
      destruct (CAN_ConfigRxFilter hw 0 CAN_RX_MB_PRIMARY (Some f) d1)
        as [st2 d2]
  end.
  cbn [fst snd] in S2, F2, C2. subst st2.
  change (negb (bool_decide (STATUS_SUCCESS = STATUS_SUCCESS))) with false
    in E.
  cbv iota in E.
  assert (Hinit2 : initialized d2 0 = true).
  { unfold initialized in *. rewrite F2. exact Hinit1. }
  (* secondary filter *)
  assert (Hsec : exists d3,
    (if negb (filter_id2 cfg =? 0)
     then CAN_ConfigRxFilter hw 0 CAN_RX_MB_SECONDARY
            (Some (Filter (filter_id2 cfg) (filter_mask2 cfg)
                     (if filter_extended cfg then CAN_ID_EXT
                      else CAN_ID_STD))) d2
     else (STATUS_SUCCESS, d2)) = (STATUS_SUCCESS, d3) /\
    s_canInitialized d3 = s_canInitialized d2 /\
    s_canCallbacks d3 = s_canCallbacks d2).
  { destruct (negb (filter_id2 cfg =? 0)).
    - match goal with
      | |- context [CAN_ConfigRxFilter hw 0 CAN_RX_MB_SECONDARY (Some ?f) d2] =>
          destruct (ConfigRxFilter_ok d2 0 CAN_RX_MB_SECONDARY f)
            as (S3 & F3 & C3);
          [lia|exact Hinit2|unfold CAN_RX_MB_SECONDARY; lia|];
          destruct (CAN_ConfigRxFilter hw 0 CAN_RX_MB_SECONDARY (Some f) d2)
            as [st3 d3]
      end.
      cbn [fst snd] in *. subst st3. exists d3. repeat split; assumption.
    - exists d2. repeat split. }
  destruct Hsec as (d3 & E3 & F3 & C3). rewrite E3 in E.
  change (negb (bool_decide (STATUS_SUCCESS = STATUS_SUCCESS))) with false
    in E.
  cbv iota in E.
  assert (Hinit3 : initialized d3 0 = true).
  { unfold initialized in *. rewrite F3. exact Hinit2. }
  (* transmit mailbox *)
  destruct (ConfigTxMailbox_ok d3 0 CAN_TX_MB) as (S4 & F4 & C4);
    [lia|exact Hinit3|unfold CAN_TX_MB; lia|].
  destruct (CAN_ConfigTxMailbox hw 0 CAN_TX_MB d3) as [st4 d4].
  cbn [fst snd] in S4, F4, C4. subst st4.
  change (negb (bool_decide (STATUS_SUCCESS = STATUS_SUCCESS))) with false
    in E.
  cbv iota in E.
  (* the bridge *)
  unfold CAN_RegisterCallback in E.
  change (CAN_GetInstanceIndex CAN0) with 0 in E.
  change (0 =? 0xFF) with false in E.
  cbv iota in E. unfold bind, set_callback, ret in E.
  change (negb (bool_decide (STATUS_SUCCESS = STATUS_SUCCESS))) with false
    in E.
  cbv iota in E.
  injection E as <- <-.
  eexists. split; [reflexivity|]. cbn [s_canInitialized s_canCallbacks].
  change (Z.to_nat 0) with 0%nat. split; congruence.
Qed.

End ServiceProofs.

Lemma keeps_Send (hw : CAN_Type -> CAN_Type) (inst mb : Z)
    (msg : option can_message_t) :
  keeps_flags (CAN_Send hw inst mb msg).
Proof.
  unfold CAN_Send. destruct (_ <=? _), msg; try apply keeps_ret.
  apply keeps_bind; [apply keeps_get|]. intros st.
  destruct (negb _); [apply keeps_ret|].
  destruct (_ || _); [apply keeps_ret|].
  destruct (_ <? _); [apply keeps_ret|].
  repeat (apply keeps_bind; [apply keeps_wr|intros _]). apply keeps_ret.
Qed.

Lemma keeps_call (cb base : Z) (ev : can_event_t) (d : can_event_data_t) :
  keeps_flags (call cb base ev d).
Proof. intros st. reflexivity. Qed.

Lemma keeps_irq_service (hw : CAN_Type -> CAN_Type) (instance idx k : Z) :
  keeps_flags (irq_service hw instance idx k).
Proof.
  unfold irq_service, CAN_ReadMbCs, CAN_ReadMbId, CAN_CopyDataFromMb,
    CAN_ReadMbData, CAN_WriteMbCs.
  apply keeps_bind; [apply keeps_rd|]. intros cs.
  apply keeps_bind.
  - destruct (_ =? CAN_CS_CODE_TX_INACTIVE).
    { apply keeps_bind; [apply keeps_wr|]. intros _. apply keeps_ret. }
    destruct (_ =? CAN_CS_CODE_RX_FULL); [|apply keeps_ret].
    apply keeps_bind; [apply keeps_rd|]. intros idw.
    destruct (negb (Z.land cs CAN_WMBn_CS_IDE_MASK =? 0));
      (apply keeps_bind;
       [apply keeps_bind; [apply keeps_rd|]; intros d0;
        apply keeps_bind; [apply keeps_rd|]; intros d1; apply keeps_ret
       |intros bytes;
        apply keeps_bind; [apply keeps_wr|]; intros _;
        apply keeps_bind; [apply keeps_wr|]; intros _; apply keeps_ret]).
  - intros [event eventData]. destruct (negb _); [|apply keeps_ret].
    apply keeps_bind; [apply keeps_get|]. intros s. apply keeps_call.
Qed.

Lemma keeps_IRQHandler (hw : CAN_Type -> CAN_Type) (base : Z) :
  keeps_flags (CAN_IRQHandler hw base).
Proof.
  unfold CAN_IRQHandler.
  apply keeps_bind; [apply keeps_get|]. intros s.
  destruct (_ || _); [apply keeps_ret|].
  apply keeps_bind; [apply keeps_rd|]. intros f.
  destruct (negb _); [|apply keeps_ret].
  generalize 0. generalize 32%nat. intros n.
  induction n as [|n IH]; intros i; cbn [irq_scan]; [apply keeps_ret|].
  destruct (negb _); [apply keeps_irq_service|apply IH].
Qed.

Section ServiceInvariant.

Variable hw : CAN_Type -> CAN_Type.
Variable driver_cb : can_callback_t.

Lemma bridge_fields (base : Z) (ev : can_event_t) (d : can_event_data_t)
    (s : service) :
  let s' := CAN_SRV_DriverCallback base ev d s in
  drv s' = drv s /\ nvic s' = nvic s /\
  s_can_initialized s' = s_can_initialized s /\
  s_can_instance_num s' = s_can_instance_num s /\
  s_can_instance s' = s_can_instance s /\
  s_user_callback s' = s_user_callback s.
Proof.
  cbv zeta. unfold CAN_SRV_DriverCallback.
  destruct (s_user_callback s =? NULL); [repeat split|].
  destruct ev; repeat split.
Qed.

Lemma replay_fields (l : list access) (s : service) :
  let s' := fold_right (run_callback driver_cb) s l in
  drv s' = drv s /\ nvic s' = nvic s /\
  s_can_initialized s' = s_can_initialized s /\
  s_can_instance_num s' = s_can_instance_num s /\
  s_can_instance s' = s_can_instance s /\
  s_user_callback s' = s_user_callback s.
Proof.
  cbv zeta. induction l as [|a l IH]; [repeat split|].
  cbn [fold_right]. destruct IH as (I1 & I2 & I3 & I4 & I5 & I6).
  set (s1 := fold_right (run_callback driver_cb) s l) in *.
  unfold run_callback.
  destruct a as [| |cb base ev d]; try (repeat split; assumption).
  destruct (cb =? driver_cb).
  2:{ repeat split; assumption. }
  destruct (bridge_fields base ev d s1) as (B1 & B2 & B3 & B4 & B5 & B6).
  cbv zeta in *. repeat split; congruence.
Qed.

Lemma inv_Init (config : option can_srv_config_t) (s : service) :
  srv_inv driver_cb s ->
  srv_inv driver_cb (snd (CAN_SRV_Init hw driver_cb config s)).
Proof.
  intros (Hnum & [Wf Wc] & Hinit).
  destruct config as [cfg|];
    [|exact (conj Hnum (conj (conj Wf Wc) Hinit))].
  pose proof (Init_outcome_cases hw (canConfig_of 0 cfg) (drv s)) as Hout.
  pose proof (shape_Init hw (Some (canConfig_of 0 cfg)) (drv s))
    as [Hlen Hcb].
  destruct (CAN_Init hw (Some (canConfig_of 0 cfg)) (drv s))
    as [st1 d1] eqn:E1.
  cbn [fst snd] in *.
  destruct Hout as [(-> & _ & Hfl)|(Hst & Hfl)].
  - assert (Hinit1 : initialized d1 0 = true).
    { unfold initialized. rewrite Hfl. apply lookup_insert_flag.
      rewrite Wf. cbn. lia. }
    destruct (SRV_Init_success hw driver_cb cfg s d1 E1 Hinit1)
      as (d5 & -> & F5 & C5).
    cbn [snd]. split; [reflexivity|]. split.
    { split; cbn [drv]; [congruence|].
      rewrite C5, length_insert. congruence. }
    intros _. cbn [drv s_can_instance]. split; [reflexivity|]. split.
    + unfold initialized in *. rewrite F5. exact Hinit1.
    + unfold callback. rewrite C5.
      apply list_lookup_total_insert_eq. rewrite Hcb, Wc. lia.
  - rewrite (SRV_Init_failure hw driver_cb cfg s st1 d1 E1)
      by (destruct Hst; subst; discriminate).
    cbn [snd]. split; [reflexivity|]. split.
    { split; cbn [drv]; congruence. }
    cbn [s_can_initialized drv s_can_instance]. intros Hi.
    destruct (Hinit Hi) as (_ & I2 & I3).
    split; [reflexivity|]. unfold initialized, callback in *.
    split; congruence.
Qed.

Lemma inv_Send (msg : option can_srv_message_t) (s : service) :
  srv_inv driver_cb s -> srv_inv driver_cb (snd (CAN_SRV_Send hw msg s)).
Proof.
  intros Hs. pose proof Hs as (Hnum & [Wf Wc] & Hinit). unfold CAN_SRV_Send.
  destruct (negb (s_can_initialized s)); [exact Hs|].
  destruct msg as [m|]; [|exact Hs].
  destruct (8 <? dlc m); [exact Hs|].
  pose proof (keeps_Send hw (s_can_instance_num s) CAN_TX_MB
                (Some (drvMsg_of m)) (drv s)) as Hfl.
  pose proof (shape_Send hw (s_can_instance_num s) CAN_TX_MB
                (Some (drvMsg_of m)) (drv s)) as [_ Hcb].
  destruct (CAN_Send hw _ _ _ _) as [st d]. cbn [snd] in Hfl, Hcb.
  assert (Hres : srv_inv driver_cb (with_drv d s)).
  { unfold srv_inv, with_drv, tables_wf, initialized, callback in *.
    cbn [drv s_can_instance_num s_can_initialized s_can_instance].
    rewrite Hfl, Hcb.
    split; [exact Hnum|]. split; [split; assumption|exact Hinit]. }
  destruct (negb _); exact Hres.
Qed.

Lemma inv_Deinit (s : service) :
  srv_inv driver_cb s -> srv_inv driver_cb (snd (CAN_SRV_Deinit hw s)).
Proof.
  intros Hs. pose proof Hs as (Hnum & [Wf Wc] & Hinit). unfold CAN_SRV_Deinit.
  destruct (negb (s_can_initialized s)); [exact Hs|].
  cbn [snd]. split; [exact Hnum|]. split; [|intros H; discriminate H].
  cbn [drv].
  set (d1 := snd (CAN_UnregisterCallback (s_can_instance s) (drv s))).
  assert (W1 : tables_wf d1).
  { unfold d1, CAN_UnregisterCallback.
    destruct (_ =? 0xFF); [exact (conj Wf Wc)|].
    unfold bind, set_callback, ret. cbn [snd].
    split; cbn [s_canInitialized s_canCallbacks];
      [exact Wf|rewrite length_insert; exact Wc]. }
  exact (shape_wf _ d1 (shape_Deinit hw _) W1).
Qed.

Lemma inv_IRQHandler (s : service) :
  srv_inv driver_cb s ->
  srv_inv driver_cb (CAN0_ORed_16_31_MB_IRQHandler hw driver_cb s).
Proof.
  intros (Hnum & Hwf & Hinit). unfold CAN0_ORed_16_31_MB_IRQHandler.
  set (d := snd (CAN_IRQHandler hw CAN0 (drv s))).
  destruct (replay_fields
              (take (length (bus d) - length (bus (drv s))) (bus d))
              (with_drv d s)) as (R1 & R2 & R3 & R4 & R5 & R6).
  cbv zeta in *.
  unfold srv_inv. rewrite R1, R3, R4, R5.
  unfold with_drv.
  cbn [drv s_can_initialized s_can_instance_num s_can_instance].
  pose proof (keeps_IRQHandler hw CAN0 (drv s)) as Hfl.
  pose proof (shape_IRQHandler hw CAN0 (drv s)) as [_ Hcb].
  fold d in Hfl, Hcb.
  split; [exact Hnum|]. split.
  { exact (shape_wf _ (drv s) (shape_IRQHandler hw CAN0) Hwf). }
  intros Hi. destruct (Hinit Hi) as (I1 & I2 & I3).
  unfold initialized, callback in *. rewrite Hfl, Hcb. auto.
Qed.

End ServiceInvariant.

(** X21.  The service layer keeps its book-keeping consistent with the
    driver: from power-on, and across [CAN_SRV_Init],
    [CAN_SRV_RegisterCallback], [CAN_SRV_Send], [CAN_SRV_Deinit], the
    bridge callback and the interrupt routine of controller 0, whatever
    their arguments and whatever the controller does, the instance number
    stays 0, the driver's tables keep their three entries and, whenever
    the service is marked initialised, driver instance 0 is initialised
    and the bridge is its registered callback. *)
Theorem srv_invariant (hw : CAN_Type -> CAN_Type) (driver_cb : can_callback_t) :
  srv_inv driver_cb srv_power_on /\
  forall s, srv_inv driver_cb s ->
    (forall config,
       srv_inv driver_cb (snd (CAN_SRV_Init hw driver_cb config s))) /\
    (forall cb, srv_inv driver_cb (snd (CAN_SRV_RegisterCallback cb s))) /\
    (forall msg, srv_inv driver_cb (snd (CAN_SRV_Send hw msg s))) /\
    srv_inv driver_cb (snd (CAN_SRV_Deinit hw s)) /\
    (forall base ev d,
       srv_inv driver_cb (CAN_SRV_DriverCallback base ev d s)) /\
    srv_inv driver_cb (CAN0_ORed_16_31_MB_IRQHandler hw driver_cb s).
Proof.
  split.
  { split; [reflexivity|]. split; [split; reflexivity|].
    intros H. discriminate H. }
  intros s Hs.
  split; [intros config; apply inv_Init; exact Hs|].
  split.
  { intros cb. unfold CAN_SRV_RegisterCallback.
    destruct (negb (s_can_initialized s)); exact Hs. }
  split; [intros msg; apply inv_Send; exact Hs|].
  split; [apply inv_Deinit; exact Hs|].
  split; [|apply inv_IRQHandler; exact Hs].
  intros base ev d.
  destruct (bridge_fields base ev d s) as (B1 & _ & B3 & B4 & B5 & _).
  cbv zeta in *. unfold srv_inv. rewrite B1, B3, B4, B5. exact Hs.
Qed.

(** X22.  [CAN_SRV_Init] succeeds exactly when [CAN_Init] of instance 0
    succeeds on the configuration it builds: once the driver is
    initialised, the calls that configure mailboxes 16, 17 and 8 and
    register the bridge cannot fail.  On success the service is marked
    initialised, driver instance 0 is initialised and the bridge is its
    callback; otherwise the result is [CAN_SRV_ERROR] and the service's
    initialised mark, the interrupt controller and the driver's callback
    table are as before. *)
Theorem SRV_Init_outcomes (hw : CAN_Type -> CAN_Type)
    (driver_cb : can_callback_t) (cfg : can_srv_config_t) (s : service) :
  tables_wf (drv s) ->
  let ok := fst (CAN_Init hw (Some (canConfig_of 0 cfg)) (drv s)) in
  let r := CAN_SRV_Init hw driver_cb (Some cfg) s in
  (ok = STATUS_SUCCESS ->
   fst r = CAN_SRV_SUCCESS /\
   s_can_initialized (snd r) = true /\
   initialized (drv (snd r)) 0 = true /\
   callback (drv (snd r)) 0 = driver_cb) /\
  (ok <> STATUS_SUCCESS ->
   fst r = CAN_SRV_ERROR /\
   s_can_initialized (snd r) = s_can_initialized s /\
   nvic (snd r) = nvic s /\
   s_canCallbacks (drv (snd r)) = s_canCallbacks (drv s)) /\
  CAN_SRV_Init hw driver_cb None s = (CAN_SRV_ERROR, s).
Proof.
  intros [Wf Wc] ok r. subst ok r.
  pose proof (Init_outcome_cases hw (canConfig_of 0 cfg) (drv s)) as Hout.
  pose proof (shape_Init hw (Some (canConfig_of 0 cfg)) (drv s))
    as [Hlen Hcb].
  destruct (CAN_Init hw (Some (canConfig_of 0 cfg)) (drv s))
    as [st1 d1] eqn:E1.
  cbn [fst snd] in *.
  split; [|split; [|reflexivity]].
  - intros ->.
    destruct Hout as [(_ & _ & Hfl)|([H|H] & _)]; try discriminate H.
    assert (Hinit1 : initialized d1 0 = true).
    { unfold initialized. rewrite Hfl. apply lookup_insert_flag.
      rewrite Wf. cbn. lia. }
    destruct (SRV_Init_success hw driver_cb cfg s d1 E1 Hinit1)
      as (d5 & -> & F5 & C5).
    cbn [fst snd drv s_can_initialized].
    split; [reflexivity|]. split; [reflexivity|]. split.
    + unfold initialized in *. rewrite F5. exact Hinit1.
    + unfold callback. rewrite C5.
      apply list_lookup_total_insert_eq. rewrite Hcb, Wc. lia.
  - intros Hne.
    rewrite (SRV_Init_failure hw driver_cb cfg s st1 d1 E1 Hne).
    cbn [fst snd drv s_can_initialized nvic]. repeat split. exact Hcb.
Qed.

Lemma SRV_Init_outcomes_witness :
  let r := CAN_SRV_Init hw_ack 0x8000
             (Some (SrvConfig 500000 0x200 0x7FF false 0 0 CAN_MODE_LOOPBACK))
             srv_power_on in
  fst r = CAN_SRV_SUCCESS /\
  s_can_initialized (snd r) = true /\
  initialized (drv (snd r)) 0 = true /\
  callback (drv (snd r)) 0 = 0x8000.
Proof.
  intros r.
  destruct (SRV_Init_outcomes hw_ack 0x8000
              (SrvConfig 500000 0x200 0x7FF false 0 0 CAN_MODE_LOOPBACK)
              srv_power_on) as (Hok & _ & _).
  - split; reflexivity.
  - apply Hok. vm_compute. reflexivity.
Defined.

(** X23.  [CAN_SRV_Send] on a consistent service state: when the service
    is not initialised it returns [CAN_SRV_NOT_INITIALIZED], and for a
    null message or a length above 8 [CAN_SRV_ERROR], in both cases with
    the state unchanged and no bus access.  Otherwise it succeeds: the
    driver accepts the frame, and the five stores of [CAN_Send] to
    mailbox 8 of controller 0 carry the identifier, flags and length of
    the message and a payload of its first [dlc] bytes followed by
    zeros. *)
Theorem SRV_Send_outcomes (hw : CAN_Type -> CAN_Type)
    (driver_cb : can_callback_t) (s : service) :
  srv_inv driver_cb s ->
  (s_can_initialized s = false ->
   forall msg, CAN_SRV_Send hw msg s = (CAN_SRV_NOT_INITIALIZED, s)) /\
  (s_can_initialized s = true ->
   CAN_SRV_Send hw None s = (CAN_SRV_ERROR, s) /\
   (forall m, 8 < dlc m -> CAN_SRV_Send hw (Some m) s = (CAN_SRV_ERROR, s)) /\
   (forall m, dlc m <= 8 ->
      let r := CAN_SRV_Send hw (Some m) s in
      fst r = CAN_SRV_SUCCESS /\
      trace (drv (snd r)) = trace (drv s) ++ send_stores 0 8 (drvMsg_of m) /\
      data (drvMsg_of m)
      = take (Z.to_nat (dlc m)) (srv_data m)
        ++ replicate (8 - Z.to_nat (dlc m)) 0 /\
      snd r = with_drv (drv (snd r)) s)).
Proof.
  intros (Hnum & _ & Hinit). split.
  - intros Hoff msg. unfold CAN_SRV_Send. rewrite Hoff. reflexivity.
  - intros Hon. destruct (Hinit Hon) as (_ & Hdrv & _).
    unfold CAN_SRV_Send. rewrite Hon, Hnum. cbn [negb].
    split; [reflexivity|]. split.
    + intros m Hm. replace (8 <? dlc m) with true
        by (symmetry; apply Z.ltb_lt; lia). reflexivity.
    + intros m Hm. replace (8 <? dlc m) with false
        by (symmetry; apply Z.ltb_ge; lia).
      destruct (CAN_Send_valid hw (drv s) 0 CAN_TX_MB (drvMsg_of m))
        as (S & T & _ & _);
        [lia|exact Hdrv|unfold CAN_TX_MB; lia|exact Hm|].
      destruct (CAN_Send hw 0 CAN_TX_MB (Some (drvMsg_of m)) (drv s))
        as [st d].
      cbn [fst snd] in S, T. subst st.
      change (negb (bool_decide (STATUS_SUCCESS = STATUS_SUCCESS)))
        with false.
      cbv zeta iota. cbn [fst snd]. unfold with_drv at 1 2. cbn [drv].
      split; [reflexivity|]. split; [exact T|].
      split; [apply drvMsg_data|reflexivity].
Qed.

Lemma SRV_Send_outcomes_witness :
  let s := Service ready nvic0 true 0 CAN0 NULL [] in
  let m := SrvMessage 0x123 [1; 2; 3; 4; 5; 6; 7; 8] 2 false false in
  fst (CAN_SRV_Send hw_idle (Some m) s) = CAN_SRV_SUCCESS /\
  trace (drv (snd (CAN_SRV_Send hw_idle (Some m) s)))
  = send_stores 0 8 (Message 0x123 CAN_ID_STD CAN_FRAME_DATA 2
                       [1; 2; 0; 0; 0; 0; 0; 0]).
Proof.
  intros s m.
  destruct (SRV_Send_outcomes hw_idle NULL s) as [_ Hon].
  - split; [reflexivity|]. split; [split; reflexivity|].
    intros _. repeat split; reflexivity.
  - destruct (Hon eq_refl) as (_ & _ & Hsend).
    destruct (Hsend m) as (S & T & _ & _); [simpl; lia|].
    split; [exact S|exact T].
Defined.

Lemma replay_loads_stores (driver_cb : can_callback_t) (l : list access)
    (s : service) :
  forallb (fun a => negb (is_call a)) l = true ->
  fold_right (run_callback driver_cb) s l = s.
Proof.
  induction l as [|a l IH]; [reflexivity|].
  cbn [forallb fold_right]. intros H. apply andb_prop in H as [Ha Hl].
  rewrite IH by exact Hl. destruct a; try reflexivity. discriminate Ha.
Qed.

(** The handler on a receive-full lowest pending mailbox: what it adds to
    the log, most recent first. *)
Lemma handler_rx_log (hw : CAN_Type -> CAN_Type) (st : driver)
    (base idx k : Z) (c : access) :
  CAN_GetInstanceIndex base = idx ->
  idx <> 0xFF ->
  callback st idx <> NULL ->
  lowest_pending (IFLAG1 (hw (bank st idx))) k ->
  cs_code (read_reg (rRAMn (k * 4)) (hw (hw (bank st idx))))
  = CAN_CS_CODE_RX_FULL ->
  last (trace (snd (CAN_IRQHandler hw base st))) = Some c ->
  exists l,
    bus (snd (CAN_IRQHandler hw base st)) = c :: l ++ bus st /\
    length l = 7%nat /\
    forallb (fun a => negb (is_call a)) l = true.
Proof.
  intros Hidx Hknown Hcb Hlow Hcode Hlast.
  pose proof Hlow as (Hk & _ & _).
  rewrite (irq_handler_dispatch hw st base idx k) in * by assumption.
  destruct (rd_flags_state hw st idx) as (Htr & Hbank & Hcall).
  set (st1 := snd (rd hw idx rIFLAG1 st)) in *.
  pose proof (irq_service_cases hw st1 base idx k Hk) as Hcases.
  cbv zeta in Hcases. rewrite Hbank in Hcases.
  destruct Hcases as [[Hc _]|[(_ & idw & d0 & d1 & msg & Hserve & _)
                              |(_ & Hc & _)]];
    try (rewrite Hcode in Hc; discriminate Hc);
    try (rewrite Hcode in Hc; contradiction Hc; reflexivity).
  rewrite Hserve, Htr in Hlast.
  change [Rd idx (rRAMn (k * 4)) (read_reg (rRAMn (k * 4)) (hw (hw (bank st idx))));
          Rd idx (rRAMn (k * 4 + 1)) idw; Rd idx (rRAMn (k * 4 + 2)) d0;
          Rd idx (rRAMn (k * 4 + 3)) d1; Wr idx rIFLAG1 (2 ^ k);
          Wr idx (rRAMn (k * 4))
            (rearm_cs (read_reg (rRAMn (k * 4)) (hw (hw (bank st idx)))));
          Call (callback st1 idx) base CAN_EVENT_RX_COMPLETE
            (EventData k (Some msg) 0)]
    with ([Rd idx (rRAMn (k * 4))
             (read_reg (rRAMn (k * 4)) (hw (hw (bank st idx))));
           Rd idx (rRAMn (k * 4 + 1)) idw; Rd idx (rRAMn (k * 4 + 2)) d0;
           Rd idx (rRAMn (k * 4 + 3)) d1; Wr idx rIFLAG1 (2 ^ k);
           Wr idx (rRAMn (k * 4))
             (rearm_cs (read_reg (rRAMn (k * 4)) (hw (hw (bank st idx)))))]
          ++ [Call (callback st1 idx) base CAN_EVENT_RX_COMPLETE
                (EventData k (Some msg) 0)]) in Hlast.
  rewrite app_assoc, last_snoc in Hlast. injection Hlast as <-.
  apply (f_equal (@rev access)) in Hserve.
  unfold trace in Hserve. rewrite rev_involutive in Hserve.
  rewrite Hserve, rev_app_distr.
  apply (f_equal (@rev access)) in Htr.
  unfold trace in Htr. rewrite rev_involutive, rev_app_distr in Htr.
  rewrite rev_involutive in Htr. rewrite rev_involutive, Htr.
  cbn [rev app].
  eexists [_; _; _; _; _; _; _]. split; [reflexivity|].
  split; reflexivity.
Qed.

(** X24.  A frame sent through the service comes back to the user through
    the bridge.  Let the service be initialised with a user callback, and
    let the lowest pending mailbox of controller 0 hold, marked
    receive-full, the words [CAN_SRV_Send] stores for the message [m].
    Under a passive controller the interrupt routine then calls the user's
    callback once, with instance 0, the RX-complete event and [m] itself
    up to its payload: the first [dlc] bytes, then zeros. *)
Theorem srv_loopback_delivery (hw : CAN_Type -> CAN_Type)
    (driver_cb : can_callback_t) (s : service) (k cs : Z)
    (m : can_srv_message_t) :
  (forall b, hw b = b) ->
  srv_inv driver_cb s ->
  s_can_initialized s = true ->
  driver_cb <> NULL ->
  s_user_callback s <> NULL ->
  lowest_pending (IFLAG1 (bank (drv s) 0)) k ->
  mailbox_holds (bank (drv s) 0) k cs (send_id (drvMsg_of m))
                (send_data0 (drvMsg_of m)) (send_data1 (drvMsg_of m)) ->
  cs_code cs = CAN_CS_CODE_RX_FULL ->
  same_frame_fields cs (send_cs (drvMsg_of m)) ->
  byte_array (srv_data m) ->
  0 <= dlc m <= 8 ->
  0 <= srv_id m <= (if isExtended m then 0x1FFFFFFF else 0x7FF) ->
  user_calls (CAN0_ORed_16_31_MB_IRQHandler hw driver_cb s)
  = UserCall (s_user_callback s) 0 CAN_SRV_EVENT_RX_COMPLETE
             (Some (srv_truncate m))
    :: user_calls s.
Proof.
  intros Hidle (Hnum & _ & Hinv) Hon Hcbn Hucb Hlow Hmb Hcode Hsame Hbytes
    Hdlc Hid.
  destruct (Hinv Hon) as (_ & _ & Hcb).
  assert (Hcb' : callback (drv s) 0 <> NULL) by congruence.
  pose proof (drvMsg_bytes m Hbytes Hdlc) as Hdb.
  pose proof (handler_rx_event hw (drv s) CAN0 0 k cs _ _ _
                Hidle eq_refl ltac:(discriminate) Hcb' Hlow Hmb Hcode)
    as Hlast.
  assert (Hstd : (if isExtended m then CAN_ID_EXT else CAN_ID_STD)
                 = CAN_ID_STD -> 0 <= srv_id m <= 0x7FF).
  { destruct (isExtended m); [discriminate|]. intros _. exact Hid. }
  assert (Hext : (if isExtended m then CAN_ID_EXT else CAN_ID_STD)
                 = CAN_ID_EXT -> 0 <= srv_id m <= 0x1FFFFFFF).
  { destruct (isExtended m); [|discriminate]. intros _. exact Hid. }
  rewrite (sent_frame_decoded cs (drvMsg_of m) Hsame Hdb Hdlc Hstd Hext)
    in Hlast.
  cbn [dataLength id idType frameType drvMsg_of] in Hlast.
  assert (Hlow' : lowest_pending (IFLAG1 (hw (bank (drv s) 0))) k)
    by (rewrite Hidle; exact Hlow).
  assert (Hcode' : cs_code (read_reg (rRAMn (k * 4))
                              (hw (hw (bank (drv s) 0))))
                   = CAN_CS_CODE_RX_FULL).
  { rewrite !Hidle. destruct Hmb as (-> & _). exact Hcode. }
  destruct (handler_rx_log hw (drv s) CAN0 0 k _ eq_refl
              ltac:(discriminate) Hcb' Hlow' Hcode' Hlast)
    as (l & Hbus & Hl & Hnc).
  unfold CAN0_ORed_16_31_MB_IRQHandler.
  set (d := snd (CAN_IRQHandler hw CAN0 (drv s))) in *.
  rewrite Hbus.
  replace (length (_ :: l ++ bus (drv s)) - length (bus (drv s)))%nat
    with (length (Call (callback (drv s) 0) CAN0 CAN_EVENT_RX_COMPLETE
                    (EventData k
                       (Some (Message (srv_id m)
                                (if isExtended m then CAN_ID_EXT
                                 else CAN_ID_STD)
                                (if isRemote m then CAN_FRAME_REMOTE
                                 else CAN_FRAME_DATA)
                                (dlc m)
                                (take (Z.to_nat (dlc m))
                                   (data (drvMsg_of m))
                                 ++ replicate (8 - Z.to_nat (dlc m)) 0))) 0)
                  :: l))
    by (cbn [length]; rewrite length_app; lia).
  rewrite (app_comm_cons l), take_app_length.
  cbn [fold_right].
  rewrite replay_loads_stores by exact Hnc.
  unfold run_callback. rewrite Hcb, Z.eqb_refl.
  unfold CAN_SRV_DriverCallback, with_drv.
  cbn [s_user_callback s_can_instance_num user_calls drv nvic
       s_can_initialized s_can_instance message].
  apply Z.eqb_neq in Hucb. rewrite Hucb, Hnum.
  cbn [user_calls]. f_equal.
  change (bool_decide (CAN_EVENT_RX_COMPLETE = CAN_EVENT_RX_COMPLETE))
    with true. cbv iota. do 2 f_equal.
  unfold srv_truncate.
  cbn [id idType frameType dataLength data srvMessage0 srv_data].
  rewrite drvMsg_data, take_app_le by (rewrite length_take; destruct Hbytes; lia).
  rewrite take_take, Nat.min_id.
  rewrite memcpy_all.
  - destruct (isExtended m), (isRemote m); reflexivity.
  - destruct Hbytes as [Hlen _].
    rewrite length_app, length_take, length_replicate. lia.
  - reflexivity.
Qed.

Lemma srv_loopback_delivery_witness :
  let m := SrvMessage 0x123 [1; 2; 3; 4; 5; 6; 7; 8] 2 false false in
  let d :=
    Driver (fun _ => Regs 0 0 0 0 0 0 0x10000 0
                       (<[67%nat := send_data1 (drvMsg_of m)]>
                          (<[66%nat := send_data0 (drvMsg_of m)]>
                             (<[65%nat := send_id (drvMsg_of m)]>
                                (<[64%nat := 0x02420000]> (replicate 128 0)))))
                       (replicate 32 0))
           [true; false; false] [0x8000; NULL; NULL] [] in
  let s := Service d nvic0 true 0 CAN0 0x9000 [] in
  user_calls (CAN0_ORed_16_31_MB_IRQHandler hw_idle 0x8000 s)
  = [UserCall 0x9000 0 CAN_SRV_EVENT_RX_COMPLETE
       (Some (SrvMessage 0x123 [1; 2; 0; 0; 0; 0; 0; 0] 2 false false))].
Proof.
  intros m d s.
  apply (srv_loopback_delivery hw_idle 0x8000 s 16 0x02420000 m).
  - reflexivity.
  - split; [reflexivity|]. split; [split; reflexivity|].
    intros _. repeat split; reflexivity.
  - reflexivity.
  - discriminate.
  - discriminate.
  - split; [lia|]. split; [reflexivity|].
    intros j Hj.
    assert (Hc : j = 0 \/ j = 1 \/ j = 2 \/ j = 3 \/ j = 4 \/ j = 5 \/ j = 6
                 \/ j = 7 \/ j = 8 \/ j = 9 \/ j = 10 \/ j = 11 \/ j = 12
                 \/ j = 13 \/ j = 14 \/ j = 15) by lia.
    repeat (destruct Hc as [->|Hc]; [reflexivity|]). subst. reflexivity.
  - repeat split; reflexivity.
  - reflexivity.
  - repeat split; reflexivity.
  - split; [reflexivity|]. repeat constructor; lia.
  - simpl. lia.
  - simpl. lia.
Defined.

(** X25.  [CAN_SRV_Deinit] of an initialised, consistent service succeeds
    and shuts everything down: the service is marked uninitialised and
    the user callback is cleared, driver instance 0 is deinitialised and
    its callback unregistered, so that afterwards [CAN_SRV_Send] and
    [CAN_SRV_RegisterCallback] return [CAN_SRV_NOT_INITIALIZED] and the
    interrupt routine returns without any bus access and without calling
    the user.  On a service that is not initialised it returns
    [CAN_SRV_NOT_INITIALIZED] and changes nothing. *)
Theorem SRV_Deinit_effect (hw : CAN_Type -> CAN_Type)
    (driver_cb : can_callback_t) (s : service) :
  srv_inv driver_cb s ->
  (s_can_initialized s = false ->
   CAN_SRV_Deinit hw s = (CAN_SRV_NOT_INITIALIZED, s)) /\
  (s_can_initialized s = true ->
   let s' := snd (CAN_SRV_Deinit hw s) in
   fst (CAN_SRV_Deinit hw s) = CAN_SRV_SUCCESS /\
   s_can_initialized s' = false /\
   s_user_callback s' = NULL /\
   initialized (drv s') 0 = false /\
   callback (drv s') 0 = NULL /\
   (forall msg, CAN_SRV_Send hw msg s' = (CAN_SRV_NOT_INITIALIZED, s')) /\
   (forall cb,
      CAN_SRV_RegisterCallback cb s' = (CAN_SRV_NOT_INITIALIZED, s')) /\
   bus (drv (CAN0_ORed_16_31_MB_IRQHandler hw driver_cb s')) = bus (drv s') /\
   user_calls (CAN0_ORed_16_31_MB_IRQHandler hw driver_cb s') = user_calls s).
Proof.
  intros (Hnum & [Wf Wc] & Hinv). split.
  - intros Hoff. unfold CAN_SRV_Deinit. rewrite Hoff. reflexivity.
  - intros Hon s'. destruct (Hinv Hon) as (Hbase & _ & _).
    subst s'. unfold CAN_SRV_Deinit. rewrite Hon, Hbase, Hnum.
    cbn [negb fst snd].
    assert (Hun : snd (CAN_UnregisterCallback CAN0 (drv s))
                  = Driver (banks (drv s)) (s_canInitialized (drv s))
                      (<[0%nat := NULL]> (s_canCallbacks (drv s)))
                      (bus (drv s))) by reflexivity.
    rewrite Hun. clear Hun.
    set (d1 := Driver _ _ _ _).
    assert (Hcb1 : callback d1 0 = NULL).
    { unfold callback, d1. cbn [s_canCallbacks].
      apply list_lookup_total_insert_eq. rewrite Wc. cbn. lia. }
    assert (W1 : tables_wf d1).
    { unfold d1. split; cbn [s_canInitialized s_canCallbacks];
        [exact Wf|rewrite length_insert; exact Wc]. }
    destruct (Deinit_state hw d1 0 ltac:(lia) W1) as (Hflag & Hcbs & Hlog).
    set (d2 := snd (CAN_Deinit hw 0 d1)) in *.
    assert (Hcb2 : callback d2 0 = NULL).
    { unfold callback in *. rewrite Hcbs. exact Hcb1. }
    assert (Hquiet : CAN_IRQHandler hw CAN0 d2 = (tt, d2)).
    { unfold CAN_IRQHandler, bind, get.
      change (CAN_GetInstanceIndex CAN0) with 0. rewrite Hcb2.
      change (NULL =? NULL) with true. rewrite orb_true_r. reflexivity. }
    cbn [s_can_initialized s_user_callback drv user_calls].
    split; [reflexivity|]. split; [reflexivity|]. split; [reflexivity|].
    split; [exact Hflag|]. split; [exact Hcb2|].
    split; [intros msg; reflexivity|]. split; [intros cb; reflexivity|].
    unfold CAN0_ORed_16_31_MB_IRQHandler. cbn [drv].
    rewrite Hquiet. cbn [snd]. rewrite Nat.sub_diag. cbn [take fold_right].
    split; reflexivity.
Qed.

Lemma SRV_Deinit_effect_witness :
  let s := Service scenario_C nvic0 true 0 CAN0 0x9000 [] in
  let s' := snd (CAN_SRV_Deinit hw_idle s) in
  fst (CAN_SRV_Deinit hw_idle s) = CAN_SRV_SUCCESS /\
  s_can_initialized s' = false /\
  initialized (drv s') 0 = false /\
  bus (drv (CAN0_ORed_16_31_MB_IRQHandler hw_idle 0x8000 s')) = bus (drv s').
Proof.
  intros s s'.
  destruct (SRV_Deinit_effect hw_idle 0x8000 s) as [_ Hon].
  - split; [reflexivity|]. split; [split; reflexivity|].
    intros _. repeat split; reflexivity.
  - destruct (Hon eq_refl) as (H1 & H2 & _ & H4 & _ & _ & _ & H8 & _).
    repeat split; assumption.
Defined.


(** ** The handshakes with the controller *)

Section Handshake.

Variable hw : CAN_Type -> CAN_Type.

(** A polling loop on [MCR], whatever the controller does: either all
    [n] loads satisfied the waiting condition and the loop ends with the
    counter at 0, or the first load that does not satisfy it ends the loop
    with a non-zero counter. *)
Lemma poll_mcr_outcomes (inst : Z) (waiting : Z -> bool) (n : nat) :
  forall st,
    let r := poll_mcr hw n inst waiting st in
    exists vs,
      Forall (fun v => waiting v = true) vs /\
      ((fst r = O /\ length vs = n /\
        trace (snd r) = trace st ++ map (Rd inst rMCR) vs) \/
       (exists v m,
          waiting v = false /\ fst r = S m /\ (length vs < n)%nat /\
          trace (snd r)
          = trace st ++ map (Rd inst rMCR) vs ++ [Rd inst rMCR v])).
Proof.
  induction n as [|n IH]; intros st r; subst r.
  - cbn [poll_mcr]. unfold ret. cbn [fst snd]. exists [].
    split; [constructor|]. left. cbn. rewrite app_nil_r. repeat split.
  - set (v := read_reg rMCR (hw (banks st inst))).
    set (st1 := Driver (upd_bank (banks st) inst (hw (banks st inst)))
                       (s_canInitialized st) (s_canCallbacks st)
                       (Rd inst rMCR v :: bus st)).
    assert (Hstep : poll_mcr hw (S n) inst waiting st
                    = if waiting v then poll_mcr hw n inst waiting st1
                      else (S n, st1)).
    { cbn [poll_mcr]. unfold bind at 1. unfold rd at 1. cbv beta iota zeta.
      fold v. fold st1. destruct (waiting v); reflexivity. }
    rewrite Hstep. clear Hstep.
    destruct (waiting v) eqn:Hw.
    + destruct (IH st1) as (vs & Hall & Hcase).
      exists (v :: vs). split; [constructor; assumption|].
      destruct Hcase as [(Hr & Hlen & Htr)|(w & m & Hwf & Hr & Hlen & Htr)].
      * left. split; [exact Hr|]. split; [cbn; lia|].
        rewrite Htr. unfold trace, st1. cbn [bus map].
        rewrite trace_cons, <- app_assoc. reflexivity.
      * right. exists w, m. split; [exact Hwf|]. split; [exact Hr|].
        split; [cbn; lia|].
        rewrite Htr. unfold trace, st1. cbn [bus map].
        rewrite trace_cons, <- !app_assoc. reflexivity.
    + exists []. split; [constructor|]. right. exists v, n.
      split; [exact Hw|]. split; [reflexivity|]. split; [cbn; lia|].
      unfold trace, st1. cbn [fst snd bus map app]. apply trace_cons.
Qed.

(** A read-modify-write of [MCR] followed by one polling loop. *)
Lemma request_and_poll (inst : Z) (f : Z -> Z) (waiting : Z -> bool)
    (st : driver) :
  let v0 := MCR (hw (bank st inst)) in
  let r := (let* v := rd hw inst rMCR in wr hw inst rMCR (f v);;
            let* timeout := poll_mcr hw (Z.to_nat CAN_FREEZE_TIMEOUT) inst
                              waiting in
            ret (timeout_status timeout)) st in
  exists vs,
    Forall (fun v => waiting v = true) vs /\
    ((fst r = STATUS_TIMEOUT /\
      length vs = Z.to_nat CAN_FREEZE_TIMEOUT /\
      trace (snd r)
      = trace st ++ [Rd inst rMCR v0; Wr inst rMCR (f v0)]
          ++ map (Rd inst rMCR) vs) \/
     (exists v,
        waiting v = false /\ fst r = STATUS_SUCCESS /\
        (length vs < Z.to_nat CAN_FREEZE_TIMEOUT)%nat /\
        trace (snd r)
        = trace st ++ [Rd inst rMCR v0; Wr inst rMCR (f v0)]
            ++ map (Rd inst rMCR) vs ++ [Rd inst rMCR v])).
Proof.
  intros v0 r. subst r.
  rewrite !fst_bind, !snd_bind. cbv beta.
  set (st2 := snd (wr hw inst rMCR (f (fst (rd hw inst rMCR st)))
                     (snd (rd hw inst rMCR st)))).
  assert (Htr2 : trace st2
                 = trace st ++ [Rd inst rMCR v0; Wr inst rMCR (f v0)]).
  { unfold st2, wr, rd, trace, bank. cbn [fst snd bus read_reg].
    rewrite !trace_cons, <- app_assoc. reflexivity. }
  destruct (poll_mcr_outcomes inst waiting (Z.to_nat CAN_FREEZE_TIMEOUT) st2)
    as (vs & Hall & Hcase).
  cbv zeta in Hcase. unfold ret. cbn [fst snd].
  exists vs. split; [exact Hall|].
  destruct Hcase as [(Hr & Hlen & Htr)|(w & m & Hwf & Hr & Hlen & Htr)].
  - left. rewrite Hr. split; [reflexivity|]. split; [exact Hlen|].
    rewrite Htr, Htr2, <- app_assoc. reflexivity.
  - right. exists w. split; [exact Hwf|]. rewrite Hr.
    split; [reflexivity|]. split; [exact Hlen|].
    rewrite Htr, Htr2, <- app_assoc. reflexivity.
Qed.

End Handshake.

(** X26.  The freeze and reset handshakes, whatever the controller does.
    [CAN_EnterFreezeMode] sets FRZ and HALT in [MCR] with one load and one
    store and then loads [MCR] until FRZACK (bit 24) reads set:
    [STATUS_SUCCESS] at the first load that shows it, also when that is
    the 10000th, [STATUS_TIMEOUT] after 10000 loads that all showed it
    clear.  [CAN_SoftReset] does the same with SOFTRST (bit 25), which it
    sets and waits to read clear.  Neither stores anything after the
    request. *)
Theorem handshake_outcomes (hw : CAN_Type -> CAN_Type) (st : driver)
    (inst : Z) :
  let v0 := MCR (hw (bank st inst)) in
  (let r := CAN_EnterFreezeMode hw inst st in
   let request :=
     [Rd inst rMCR v0;
      Wr inst rMCR (Z.lor v0 (Z.lor CAN_MCR_FRZ_MASK CAN_MCR_HALT_MASK))] in
   exists vs,
     Forall (fun v => Z.testbit v 24 = false) vs /\
     ((fst r = STATUS_TIMEOUT /\
       Z.of_nat (length vs) = CAN_FREEZE_TIMEOUT /\
       trace (snd r) = trace st ++ request ++ map (Rd inst rMCR) vs) \/
      (exists v,
         Z.testbit v 24 = true /\ fst r = STATUS_SUCCESS /\
         Z.of_nat (length vs) < CAN_FREEZE_TIMEOUT /\
         trace (snd r)
         = trace st ++ request ++ map (Rd inst rMCR) vs
             ++ [Rd inst rMCR v]))) /\
  (let r := CAN_SoftReset hw inst st in
   let request :=
     [Rd inst rMCR v0; Wr inst rMCR (Z.lor v0 CAN_MCR_SOFTRST_MASK)] in
   exists vs,
     Forall (fun v => Z.testbit v 25 = true) vs /\
     ((fst r = STATUS_TIMEOUT /\
       Z.of_nat (length vs) = CAN_FREEZE_TIMEOUT /\
       trace (snd r) = trace st ++ request ++ map (Rd inst rMCR) vs) \/
      (exists v,
         Z.testbit v 25 = false /\ fst r = STATUS_SUCCESS /\
         Z.of_nat (length vs) < CAN_FREEZE_TIMEOUT /\
         trace (snd r)
         = trace st ++ request ++ map (Rd inst rMCR) vs
             ++ [Rd inst rMCR v]))).
Proof.
  intros v0.
  assert (Hlen : forall n : nat,
            (n = Z.to_nat CAN_FREEZE_TIMEOUT -> Z.of_nat n = CAN_FREEZE_TIMEOUT)
            /\ ((n < Z.to_nat CAN_FREEZE_TIMEOUT)%nat ->
                Z.of_nat n < CAN_FREEZE_TIMEOUT)).
  { intros n. unfold CAN_FREEZE_TIMEOUT. split; lia. }
  split.
  - cbv zeta.
    destruct (request_and_poll hw inst
                (fun v => Z.lor v (Z.lor CAN_MCR_FRZ_MASK CAN_MCR_HALT_MASK))
                (fun v => Z.land v CAN_MCR_FRZACK_MASK =? 0) st)
      as (vs & Hall & Hcase).
    exists vs. split.
    { eapply Forall_impl; [exact Hall|]. cbv beta. intros v Hv.
      change CAN_MCR_FRZACK_MASK with (2 ^ 24) in Hv.
      rewrite land_pow2_eqb in Hv by lia.
      destruct (Z.testbit v 24); [discriminate Hv|reflexivity]. }
    destruct Hcase as [(Hr & Hl & Htr)|(v & Hv & Hr & Hl & Htr)].
    + left. split; [exact Hr|]. split; [apply Hlen; exact Hl|exact Htr].
    + right. exists v. split.
      { change CAN_MCR_FRZACK_MASK with (2 ^ 24) in Hv.
        rewrite land_pow2_eqb in Hv by lia.
        destruct (Z.testbit v 24); [reflexivity|discriminate Hv]. }
      split; [exact Hr|]. split; [apply Hlen; exact Hl|exact Htr].
  - cbv zeta.
    destruct (request_and_poll hw inst
                (fun v => Z.lor v CAN_MCR_SOFTRST_MASK)
                (fun v => negb (Z.land v CAN_MCR_SOFTRST_MASK =? 0)) st)
      as (vs & Hall & Hcase).
    exists vs. split.
    { eapply Forall_impl; [exact Hall|]. cbv beta. intros v Hv.
      change CAN_MCR_SOFTRST_MASK with (2 ^ 25) in Hv.
      rewrite land_pow2_eqb, negb_involutive in Hv by lia. exact Hv. }
    destruct Hcase as [(Hr & Hl & Htr)|(v & Hv & Hr & Hl & Htr)].
    + left. split; [exact Hr|]. split; [apply Hlen; exact Hl|exact Htr].
    + right. exists v. split.
      { change CAN_MCR_SOFTRST_MASK with (2 ^ 25) in Hv.
        rewrite land_pow2_eqb, negb_involutive in Hv by lia. exact Hv. }
      split; [exact Hr|]. split; [apply Hlen; exact Hl|exact Htr].
Qed.

(** ** The interrupt lines of the service layer *)

Lemma enable_line_81 (nv : NVIC_Type) :
  NVIC_EnableInterrupt CAN0_ORed_0_15_MB_IRQn nv
  = Nvic (<[2%nat := Z.lor (ISER nv !!! 2%nat) (2 ^ 17)]> (ISER nv))
         (ICER nv) (ISPR nv) (ICPR nv) (IABR nv) (IP nv).
Proof. reflexivity. Qed.

Lemma enable_line_82 (nv : NVIC_Type) :
  NVIC_EnableInterrupt CAN0_ORed_16_31_MB_IRQn nv
  = Nvic (<[2%nat := Z.lor (ISER nv !!! 2%nat) (2 ^ 18)]> (ISER nv))
         (ICER nv) (ISPR nv) (ICPR nv) (IABR nv) (IP nv).
Proof. reflexivity. Qed.

Lemma disable_line_81 (nv : NVIC_Type) :
  NVIC_DisableInterrupt CAN0_ORed_0_15_MB_IRQn nv
  = Nvic (ISER nv)
         (<[2%nat := Z.lor (ICER nv !!! 2%nat) (2 ^ 17)]> (ICER nv))
         (ISPR nv) (ICPR nv) (IABR nv) (IP nv).
Proof. reflexivity. Qed.

Lemma disable_line_82 (nv : NVIC_Type) :
  NVIC_DisableInterrupt CAN0_ORed_16_31_MB_IRQn nv
  = Nvic (ISER nv)
         (<[2%nat := Z.lor (ICER nv !!! 2%nat) (2 ^ 18)]> (ICER nv))
         (ISPR nv) (ICPR nv) (IABR nv) (IP nv).
Proof. reflexivity. Qed.

(** The priority byte [NVIC_SetPriority] stores for priority 5: the high
    nibble is 5, the low nibble is kept. *)
Lemma priority_byte (cur : Z) :
  0 <= cur < 256 ->
  u8 (Z.lor (u8 (Z.land cur (Z.lnot (Z.shiftl 0xF 4))))
            (Z.shiftl (Z.land 5 0xF) 4))
  = 0x50 + cur mod 16.
Proof.
  intros Hc.
  assert (Hall : forallb
            (fun c => u8 (Z.lor (u8 (Z.land c (Z.lnot (Z.shiftl 0xF 4))))
                                (Z.shiftl (Z.land 5 0xF) 4))
                      =? 0x50 + c mod 16) (seqZ 0 256) = true)
    by (vm_compute; reflexivity).
  rewrite forallb_forall in Hall. apply Z.eqb_eq. apply Hall.
  apply list_elem_of_In. apply elem_of_seqZ. lia.
Qed.

Lemma set_priority_5 (n : Z) (nv : NVIC_Type) :
  0 <= n < 240 ->
  NVIC_SetPriority n 5 nv
  = Nvic (ISER nv) (ICER nv) (ISPR nv) (ICPR nv) (IABR nv)
         (<[Z.to_nat n :=
              u8 (Z.lor (u8 (Z.land (IP nv !!! Z.to_nat n)
                                    (Z.lnot (Z.shiftl 0xF 4))))
                        (Z.shiftl (Z.land 5 0xF) 4))]> (IP nv)).
Proof.
  intros Hn. unfold NVIC_SetPriority.
  replace (0 <=? n) with true by (symmetry; apply Z.leb_le; lia).
  replace (n <? 240) with true by (symmetry; apply Z.ltb_lt; lia).
  cbn [andb]. change (5 <=? 15) with true. cbv iota.
  assert (Hu : u8 n = n) by (unfold u8; apply Z.mod_small; lia).
  rewrite Hu. reflexivity.
Qed.

(** X27.  The interrupt lines the service layer programs, as stores to
    the interrupt controller.  A successful [CAN_SRV_Init] sets bits 17
    and 18 of the set-enable word 2 (interrupts 81 and 82, the two
    mailbox interrupts of controller 0) and keeps its other bits and the
    other set-enable words; in the priority bytes of the two interrupts it
    sets the high nibble to 5 and keeps the low nibble; the clear-enable
    words are untouched.  A successful [CAN_SRV_Deinit] sets bits 17 and
    18 of the clear-enable word 2 and changes neither the set-enable words
    nor the priorities. *)
Theorem SRV_interrupt_lines (hw : CAN_Type -> CAN_Type)
    (driver_cb : can_callback_t) (s : service) :
  tables_wf (drv s) ->
  length (ISER (nvic s)) = 8%nat ->
  length (ICER (nvic s)) = 8%nat ->
  length (IP (nvic s)) = 240%nat ->
  Forall (fun b => 0 <= b < 256) (IP (nvic s)) ->
  (forall cfg,
     fst (CAN_SRV_Init hw driver_cb (Some cfg) s) = CAN_SRV_SUCCESS ->
     let nv := nvic (snd (CAN_SRV_Init hw driver_cb (Some cfg) s)) in
     (forall j, 0 <= j ->
        Z.testbit (ISER nv !!! 2%nat) j
        = Z.testbit (ISER (nvic s) !!! 2%nat) j || (j =? 17) || (j =? 18)) /\
     (forall i, i <> 2%nat -> ISER nv !!! i = ISER (nvic s) !!! i) /\
     IP nv !!! 81%nat = 0x50 + (IP (nvic s) !!! 81%nat) mod 16 /\
     IP nv !!! 82%nat = 0x50 + (IP (nvic s) !!! 82%nat) mod 16 /\
     (forall i, i <> 81%nat -> i <> 82%nat ->
        IP nv !!! i = IP (nvic s) !!! i) /\
     ICER nv = ICER (nvic s)) /\
  (s_can_initialized s = true ->
   let nv := nvic (snd (CAN_SRV_Deinit hw s)) in
   (forall j, 0 <= j ->
      Z.testbit (ICER nv !!! 2%nat) j
      = Z.testbit (ICER (nvic s) !!! 2%nat) j || (j =? 17) || (j =? 18)) /\
   (forall i, i <> 2%nat -> ICER nv !!! i = ICER (nvic s) !!! i) /\
   ISER nv = ISER (nvic s) /\
   IP nv = IP (nvic s)).
Proof.
  intros [Wf Wc] Lset Lclr Lip Hip.
  assert (Hbyte : forall i : nat, (i < 240)%nat ->
            0 <= IP (nvic s) !!! i < 256).
  { intros i Hi. apply (Forall_lookup_total_1 _ _ i Hip). lia. }
  split.
  - intros cfg Hok nv. subst nv.
    pose proof (Init_outcome_cases hw (canConfig_of 0 cfg) (drv s)) as Hout.
    destruct (CAN_Init hw (Some (canConfig_of 0 cfg)) (drv s))
      as [st1 d1] eqn:E1.
    cbn [fst snd] in Hout.
    destruct Hout as [(-> & _ & Hfl)|(Hst & _)].
    2:{ rewrite (SRV_Init_failure hw driver_cb cfg s st1 d1 E1) in Hok
          by (destruct Hst; subst; discriminate).
        discriminate Hok. }
    assert (Hinit1 : initialized d1 0 = true).
    { unfold initialized. rewrite Hfl. apply lookup_insert_flag.
      rewrite Wf. cbn. lia. }
    destruct (SRV_Init_success hw driver_cb cfg s d1 E1 Hinit1)
      as (d5 & -> & _ & _).
    cbn [snd nvic].
    rewrite (set_priority_5 82), (set_priority_5 81) by (cbv; split; congruence).
    rewrite enable_line_82, enable_line_81.
    cbn [ISER ICER IP]. split; [|split; [|split; [|split; [|split]]]].
    + intros j Hj.
      rewrite !list_lookup_total_insert_eq
        by (rewrite ?length_insert; lia).
      rewrite !lor_pow2_bit by lia. reflexivity.
    + intros i Hi. rewrite !list_lookup_total_insert_ne by lia. reflexivity.
    + change (Z.to_nat 82) with 82%nat. change (Z.to_nat 81) with 81%nat.
      rewrite list_lookup_total_insert_ne by lia.
      rewrite list_lookup_total_insert_eq by lia.
      apply priority_byte. apply Hbyte. lia.
    + change (Z.to_nat 82) with 82%nat. change (Z.to_nat 81) with 81%nat.
      rewrite list_lookup_total_insert_eq by (rewrite length_insert; lia).
      rewrite list_lookup_total_insert_ne by lia.
      apply priority_byte. apply Hbyte. lia.
    + intros i H81 H82.
      change (Z.to_nat 82) with 82%nat. change (Z.to_nat 81) with 81%nat.
      rewrite !list_lookup_total_insert_ne by lia. reflexivity.
    + reflexivity.
  - intros Hon nv. subst nv. unfold CAN_SRV_Deinit. rewrite Hon.
    cbn [negb snd nvic].
    rewrite disable_line_82, disable_line_81. cbn [ISER ICER IP].
    split; [|split; [|split]]; try reflexivity.
    + intros j Hj.
      rewrite !list_lookup_total_insert_eq
        by (rewrite ?length_insert; lia).
      rewrite !lor_pow2_bit by lia. reflexivity.
    + intros i Hi. rewrite !list_lookup_total_insert_ne by lia. reflexivity.
Qed.

Lemma SRV_interrupt_lines_witness :
  let nv := nvic (snd (CAN_SRV_Deinit hw_idle
                         (Service ready nvic0 true 0 CAN0 NULL []))) in
  Z.testbit (ICER nv !!! 2%nat) 17 = true /\
  Z.testbit (ICER nv !!! 2%nat) 18 = true /\
  ISER nv = ISER nvic0.
Proof.
  intros nv.
  destruct (SRV_interrupt_lines hw_idle NULL
              (Service ready nvic0 true 0 CAN0 NULL [])) as [_ Hoff].
  - split; reflexivity.
  - reflexivity.
  - reflexivity.
  - reflexivity.
  - apply Forall_replicate. lia.
  - destruct (Hoff eq_refl) as (Hbits & _ & Hset & _).
    split; [rewrite Hbits by lia; reflexivity|].
    split; [rewrite Hbits by lia; reflexivity|exact Hset].
Defined.

(** ** C6: the initialised flag over a history of calls *)

Section CallFlags.

Variable hw : CAN_Type -> CAN_Type.

Lemma keeps_set_callback (inst : Z) (cb : can_callback_t) :
  keeps_flags (set_callback inst cb).
Proof. intros st. reflexivity. Qed.

Lemma keeps_send_wait (n : nat) (inst mask : Z) :
  keeps_flags (send_wait hw n inst mask).
Proof.
  induction n as [|n IH]; cbn [send_wait]; [apply keeps_ret|].
  apply keeps_bind; [apply keeps_rd|]. intros f.
  destruct (negb _); [|exact IH].
  apply keeps_bind; [apply keeps_wr|]. intros _. apply keeps_ret.
Qed.

Lemma keeps_SendBlocking (inst mb : Z) (msg : option can_message_t) (t : Z) :
  keeps_flags (CAN_SendBlocking hw inst mb msg t).
Proof.
  unfold CAN_SendBlocking.
  apply keeps_bind; [apply keeps_Send|]. intros s.
  destruct (negb _); [apply keeps_ret|apply keeps_send_wait].
Qed.

Lemma keeps_Receive (inst mb : Z) (msg : option can_message_t) :
  keeps_flags (CAN_Receive hw inst mb msg).
Proof.
  unfold CAN_Receive. destruct (_ <=? _), msg; try apply keeps_ret.
  apply keeps_bind; [apply keeps_get|]. intros s.
  destruct (negb _); [apply keeps_ret|].
  destruct (_ || _); [apply keeps_ret|].
  apply keeps_bind; [apply keeps_rd|]. intros f.
  destruct (_ =? 0); [apply keeps_ret|].
  repeat (apply keeps_bind; [apply keeps_rd || apply keeps_wr|intros ?]).
  apply keeps_ret.
Qed.

Lemma keeps_receive_wait (n : nat) (inst mb mask : Z)
    (msg : option can_message_t) :
  keeps_flags (receive_wait hw n inst mb mask msg).
Proof.
  induction n as [|n IH]; cbn [receive_wait]; [apply keeps_ret|].
  apply keeps_bind; [apply keeps_rd|]. intros f.
  destruct (negb _); [apply keeps_Receive|exact IH].
Qed.

Lemma keeps_ReceiveBlocking (inst mb : Z) (msg : option can_message_t)
    (t : Z) :
  keeps_flags (CAN_ReceiveBlocking hw inst mb msg t).
Proof.
  unfold CAN_ReceiveBlocking.
  destruct (_ <=? _), msg; try apply keeps_ret.
  apply keeps_bind; [apply keeps_get|]. intros s.
  destruct (negb _); [apply keeps_ret|apply keeps_receive_wait].
Qed.

Lemma keeps_ConfigRxFilter (inst mb : Z) (flt : option can_rx_filter_t) :
  keeps_flags (CAN_ConfigRxFilter hw inst mb flt).
Proof.
  unfold CAN_ConfigRxFilter.
  destruct (_ <=? _), flt; try apply keeps_ret.
  apply keeps_bind; [apply keeps_get|]. intros s.
  destruct (negb _); [apply keeps_ret|].
  destruct (_ || _); [apply keeps_ret|].
  apply keeps_bind; [apply keeps_wr|]. intros _.
  apply keeps_bind; [apply keeps_wr|]. intros _.
  apply keeps_bind; [apply keeps_wr|]. intros _.
  apply keeps_bind; [apply keeps_set_bits|]. intros _. apply keeps_ret.
Qed.

Lemma keeps_ConfigTxMailbox (inst mb : Z) :
  keeps_flags (CAN_ConfigTxMailbox hw inst mb).
Proof.
  unfold CAN_ConfigTxMailbox.
  destruct (_ <=? _); [apply keeps_ret|].
  apply keeps_bind; [apply keeps_get|]. intros s.
  destruct (negb _); [apply keeps_ret|].
  destruct (_ || _); [apply keeps_ret|].
  apply keeps_bind; [apply keeps_wr|]. intros _.
  apply keeps_bind; [apply keeps_set_bits|]. intros _. apply keeps_ret.
Qed.

Lemma keeps_AbortTransmission (inst mb : Z) :
  keeps_flags (CAN_AbortTransmission hw inst mb).
Proof.
  unfold CAN_AbortTransmission. destruct (_ || _); [apply keeps_ret|].
  apply keeps_bind; [apply keeps_wr|]. intros _. apply keeps_ret.
Qed.

Lemma keeps_IsMbBusy (inst mb : Z) (b : option bool) :
  keeps_flags (CAN_IsMbBusy hw inst mb b).
Proof.
  unfold CAN_IsMbBusy. destruct (_ || _), b; try apply keeps_ret.
  apply keeps_bind; [apply keeps_rd|]. intros cs. apply keeps_ret.
Qed.

Lemma keeps_GetErrorState (inst : Z) (e : option can_error_state_t) :
  keeps_flags (CAN_GetErrorState hw inst e).
Proof.
  unfold CAN_GetErrorState. destruct (_ <=? _), e; try apply keeps_ret.
  apply keeps_bind; [apply keeps_rd|]. intros v. apply keeps_ret.
Qed.

Lemma keeps_GetErrorCounters (inst : Z) (tx rx : option Z) :
  keeps_flags (CAN_GetErrorCounters hw inst tx rx).
Proof.
  unfold CAN_GetErrorCounters. destruct (_ <=? _), tx, rx;
    try apply keeps_ret.
  apply keeps_bind; [apply keeps_rd|]. intros e1.
  apply keeps_bind; [apply keeps_rd|]. intros e2. apply keeps_ret.
Qed.

Lemma keeps_RegisterCallback (base : Z) (cb : can_callback_t) :
  keeps_flags (CAN_RegisterCallback base cb).
Proof.
  unfold CAN_RegisterCallback. destruct (_ =? _); [apply keeps_ret|].
  apply keeps_bind; [apply keeps_set_callback|]. intros _. apply keeps_ret.
Qed.

Lemma keeps_UnregisterCallback (base : Z) :
  keeps_flags (CAN_UnregisterCallback base).
Proof.
  unfold CAN_UnregisterCallback. destruct (_ =? _); [apply keeps_ret|].
  apply keeps_bind; [apply keeps_set_callback|]. intros _. apply keeps_ret.
Qed.

Lemma returning_state {A} (f : A -> status_t) (c : M A) (st : driver) :
  snd (returning f c st) = snd (c st) /\
  fst (returning f c st) = Some (f (fst (c st))).
Proof. unfold returning, bind, ret. destruct (c st). split; reflexivity. Qed.

Lemma keeps_returning {A} (f : A -> status_t) (c : M A) :
  keeps_flags c -> keeps_flags (returning f c).
Proof.
  intros Hc. unfold returning. apply keeps_bind; [exact Hc|].
  intros a. apply keeps_ret.
Qed.

(** What [CAN_Deinit] does to the table, by its status. *)
Lemma Deinit_flags (i : Z) (st : driver) :
  (fst (CAN_Deinit hw i st) = STATUS_SUCCESS /\ i < CAN_INSTANCE_COUNT /\
   s_canInitialized (snd (CAN_Deinit hw i st))
   = <[Z.to_nat i := false]> (s_canInitialized st)) \/
  (fst (CAN_Deinit hw i st) = STATUS_INVALID_PARAM /\
   s_canInitialized (snd (CAN_Deinit hw i st)) = s_canInitialized st).
Proof.
  unfold CAN_Deinit.
  destruct (Z.leb_spec CAN_INSTANCE_COUNT i) as [|Hlt];
    [right; split; reflexivity|].
  left. rewrite !fst_bind, !snd_bind. cbn [ret fst snd].
  split; [reflexivity|]. split; [exact Hlt|].
  unfold set_initialized at 1. cbn [snd s_canInitialized].
  rewrite (keeps_set_bits hw i rMCR CAN_MCR_MDIS_MASK st). reflexivity.
Qed.

Lemma lookup_flag_insert (fl : list bool) (i inst : Z) (v : bool) :
  length fl = 3%nat -> 0 <= i < 3 -> 0 <= inst < 3 ->
  <[Z.to_nat i := v]> fl !!! Z.to_nat inst
  = if i =? inst then v else fl !!! Z.to_nat inst.
Proof.
  intros Hl Hi Hinst. destruct (Z.eqb_spec i inst) as [->|Hne].
  - apply list_lookup_total_insert_eq. lia.
  - apply list_lookup_total_insert_ne. lia.
Qed.

(** One call moves the flag of [inst] as [completes] says, and keeps the
    size of the table. *)
Lemma call_flag (c : can_call) (st : driver) (inst : Z) :
  typed c -> 0 <= inst < 3 ->
  length (s_canInitialized st) = 3%nat ->
  let r := do_call hw c st in
  initialized (snd r) inst = completes inst c (fst r) (initialized st inst) /\
  length (s_canInitialized (snd r)) = 3%nat.
Proof.
  intros Hty Hinst Hlen r. subst r.
  assert (Hkeep : forall c', keeps_flags c' ->
            completes inst c (fst (c' st)) (initialized st inst)
            = initialized st inst ->
            initialized (snd (c' st)) inst
            = completes inst c (fst (c' st)) (initialized st inst) /\
            length (s_canInitialized (snd (c' st))) = 3%nat).
  { intros c' Hc' ->. unfold initialized. rewrite (Hc' st).
    split; [reflexivity|exact Hlen]. }
  destruct c as [config|i| | | | | | | | | | | | | ]; cbn [do_call];
    try (apply Hkeep; [|reflexivity]).
  - destruct (returning_state (fun s => s) (CAN_Init hw config) st)
      as [-> ->].
    destruct config as [cfg|].
    + cbn [typed] in Hty. unfold initialized.
      destruct (Init_outcome_cases hw cfg st)
        as [(-> & (Hlt & _) & ->)|([-> | ->] & ->)];
        cbn [completes]; try (split; [reflexivity|exact Hlen]).
      unfold CAN_INSTANCE_COUNT in Hlt.
      rewrite lookup_flag_insert, length_insert by (assumption || lia).
      split; [reflexivity|exact Hlen].
    + cbn [CAN_Init ret fst snd completes].
      split; [reflexivity|exact Hlen].
  - destruct (returning_state (fun s => s) (CAN_Deinit hw i) st) as [-> ->].
    cbn [typed] in Hty. unfold initialized.
    destruct (Deinit_flags i st) as [(-> & Hlt & ->)|(-> & ->)];
      cbn [completes]; [|split; [reflexivity|exact Hlen]].
    unfold CAN_INSTANCE_COUNT in Hlt.
    rewrite lookup_flag_insert, length_insert by (assumption || lia).
    split; [reflexivity|exact Hlen].
  - apply keeps_returning, keeps_Send.
  - apply keeps_returning, keeps_SendBlocking.
  - apply keeps_returning, keeps_Receive.
  - apply keeps_returning, keeps_ReceiveBlocking.
  - apply keeps_returning, keeps_ConfigRxFilter.
  - apply keeps_returning, keeps_ConfigTxMailbox.
  - apply keeps_returning, keeps_AbortTransmission.
  - apply keeps_returning, keeps_IsMbBusy.
  - apply keeps_returning, keeps_GetErrorState.
  - apply keeps_returning, keeps_GetErrorCounters.
  - apply keeps_returning, keeps_RegisterCallback.
  - apply keeps_returning, keeps_UnregisterCallback.
  - apply keeps_bind; [apply keeps_IRQHandler|]. intros _. apply keeps_ret.
Qed.

End CallFlags.

(** The flag of an instance says whether a [CAN_Init] has completed
    successfully on it since the last [CAN_Deinit]: no other call writes
    the table. *)
Lemma flag_follows_history (h : history) (st : driver) (inst : Z) :
  Forall (fun x => typed (snd x)) h ->
  0 <= inst < 3 ->
  length (s_canInitialized st) = 3%nat ->
  initialized (run_history h st) inst
  = init_completed inst h st (initialized st inst).
Proof.
  intros Hty Hinst. revert st.
  induction Hty as [|[hw c] h Hc _ IH]; intros st Hlen; [reflexivity|].
  cbn [run_history init_completed]. cbn [snd] in Hc.
  destruct (call_flag hw c st inst Hc Hinst Hlen) as [Hflag Hlen'].
  cbv zeta in Hflag, Hlen'. rewrite <- Hflag. apply IH. exact Hlen'.
Qed.

(** C6, as the code has it.  After any history of calls since power-on
    in which no [CAN_Init] has completed successfully on the instance, or
    none since its last [CAN_Deinit], the initialised flag of the instance
    is false, and [CAN_Send], [CAN_SendBlocking], [CAN_Receive],
    [CAN_ReceiveBlocking], [CAN_ConfigRxFilter] and [CAN_ConfigTxMailbox],
    called with a non-null message or filter, return
    [STATUS_NOT_INITIALIZED] and touch nothing.  The history may contain
    failed attempts; and whatever the hardware does, one more [CAN_Init]
    that does not return success, at whichever step it fails, leaves the
    flag false and the six operations rejecting.  [CAN_AbortTransmission]
    and [CAN_IsMbBusy] do not consult the flag: on that instance they
    return [STATUS_SUCCESS] for every mailbox index below 32. *)
Theorem uninitialized_instance_rejects (h : history) (inst : Z) :
  Forall (fun x => typed (snd x)) h ->
  0 <= inst < 3 ->
  init_completed inst h power_on false = false ->
  let st := run_history h power_on in
  initialized st inst = false /\
  (forall hw, rejects_uninitialized hw st inst) /\
  (forall hw config,
     fst (CAN_Init hw config st) <> STATUS_SUCCESS ->
     let st' := snd (CAN_Init hw config st) in
     initialized st' inst = false /\
     forall hw', rejects_uninitialized hw' st' inst) /\
  (forall hw mb b, 0 <= mb < 32 ->
     fst (CAN_AbortTransmission hw inst mb st) = STATUS_SUCCESS /\
     fst (fst (CAN_IsMbBusy hw inst mb (Some b) st)) = STATUS_SUCCESS).
Proof.
  intros Hty Hi Hnone st.
  assert (Hflag : initialized st inst = false).
  { assert (Hon : initialized power_on inst = false).
    { assert (inst = 0 \/ inst = 1 \/ inst = 2) as [->|[->| ->]] by lia;
        reflexivity. }
    unfold st. rewrite flag_follows_history by (assumption || reflexivity).
    rewrite Hon. exact Hnone. }
  split; [exact Hflag|]. split; [|split].
  - intros hw. apply flag_clear_rejects; assumption.
  - intros hw config Hfail st'.
    assert (Hflag' : initialized st' inst = false).
    { unfold initialized, st'.
      rewrite (Init_failure_keeps_flags hw config st Hfail). exact Hflag. }
    split; [exact Hflag'|]. intros hw'.
    apply flag_clear_rejects; assumption.
  - intros hw mb b Hmb.
    assert (Hr : (CAN_INSTANCE_COUNT <=? inst) || (CAN_MB_COUNT <=? mb)
                 = false).
    { apply orb_false_intro; apply Z.leb_gt;
        unfold CAN_INSTANCE_COUNT, CAN_MB_COUNT; lia. }
    unfold CAN_AbortTransmission, CAN_IsMbBusy. rewrite Hr.
    rewrite !fst_bind. split; reflexivity.
Qed.

(** On instance 0: a [CAN_Init] that times out on a controller that never
    acknowledges, a successful one, a [CAN_Send], [CAN_Deinit], and a
    [CAN_Init] rejected for its bit rate. *)
Lemma uninitialized_instance_rejects_witness :
  let st := run_history history_reset power_on in
  initialized st 0 = false /\
  (forall hw, rejects_uninitialized hw st 0) /\
  (forall hw config,
     fst (CAN_Init hw config st) <> STATUS_SUCCESS ->
     let st' := snd (CAN_Init hw config st) in
     initialized st' 0 = false /\
     forall hw', rejects_uninitialized hw' st' 0) /\
  (forall hw mb b, 0 <= mb < 32 ->
     fst (CAN_AbortTransmission hw 0 mb st) = STATUS_SUCCESS /\
     fst (fst (CAN_IsMbBusy hw 0 mb (Some b) st)) = STATUS_SUCCESS).
Proof.
  apply (uninitialized_instance_rejects history_reset 0).
  - repeat constructor; cbn; lia.
  - lia.
  - vm_compute. reflexivity.
Defined.

(** C6 as stated fails twice.  The two operations that never look at the
    flag accept an instance whose only [CAN_Init] failed:
    [CAN_AbortTransmission] stores the abort code and returns success, and
    [CAN_IsMbBusy] loads the control-status word and returns success.  And
    a [CAN_Init] that fails on an instance initialised before, be it on
    its bit rate (after the controller was frozen and reset) or by the
    time-out of the freeze request, leaves the flag true, so that
    [CAN_Send] is accepted. *)
Lemma uninitialized_claim_fails :
  (let st := snd (CAN_Init hw_idle (Some config_500k) power_on) in
   fst (CAN_Init hw_idle (Some config_500k) power_on) = STATUS_ERROR /\
   initialized st 0 = false /\
   fst (CAN_AbortTransmission hw_idle 0 8 st) = STATUS_SUCCESS /\
   firstn 1 (bus (snd (CAN_AbortTransmission hw_idle 0 8 st)))
   = [Wr 0 (rRAMn 32) 0x09000000] /\
   fst (CAN_IsMbBusy hw_idle 0 8 (Some false) st)
   = (STATUS_SUCCESS, Some false) /\
   fst (CAN_AbortTransmission hw_idle 0 8 power_on) = STATUS_SUCCESS /\
   STATUS_SUCCESS <> STATUS_NOT_INITIALIZED) /\
  (let st1 := snd (CAN_Init hw_ack (Some config_500k) power_on) in
   let st2 := snd (CAN_Init hw_ack (Some config_no_baud) st1) in
   fst (CAN_Init hw_ack (Some config_500k) power_on) = STATUS_SUCCESS /\
   fst (CAN_Init hw_ack (Some config_no_baud) st1) = STATUS_INVALID_PARAM /\
   initialized st2 0 = true /\
   fst (CAN_Send hw_ack 0 8 (Some msg_123) st2) = STATUS_SUCCESS /\
   let st3 := snd (CAN_Init hw_idle (Some config_500k) st1) in
   fst (CAN_Init hw_idle (Some config_500k) st1) = STATUS_ERROR /\
   initialized st3 0 = true /\
   fst (CAN_Send hw_idle 0 8 (Some msg_123) st3) = STATUS_SUCCESS).
Proof. vm_compute. repeat split; discriminate. Qed.
